(** * Tuxedo Touch alarm panel client: model and verification

    A shallow embedding of [alarm_control_panel.py]: the [Cipher] codec and
    the [TuxedoTouch] entity, with executable models of the library
    functions they call ([binascii], [Crypto.Util.Padding], AES in CBC
    mode from [Crypto.Cipher], [urllib.parse.urlencode], [json.loads]) and
    the network ([requests.post]) as a parameter; and of [config_flow.py]:
    the configuration flow that obtains the key, with [requests.get], the
    HTML parser, [ipaddress.ip_address] and [int] on text as parameters.

    Python [bytes] are [list byte]; Python [str] is [string], read as the
    UTF-8 encoding of the text.  A call that can raise returns [exc]; a
    method of the entity returns [M], its result together with the events
    it caused (requests, log records, sleeps, scheduled updates).
    Exception messages that interpolate a number are shortened. *)

From Stdlib Require Import String Ascii List NArith ZArith Lia Bool Btauto.
From Stdlib Require Import Strings.Byte DecimalString.
From Stdlib Require DecimalPos.
Import ListNotations.
Local Open Scope string_scope.
Local Open Scope list_scope.

(* ================================================================== *)
(** * Part I: definitions                                              *)
(* ================================================================== *)

(** ** Exceptions and results *)

(** The exception classes that the modelled code can raise.  All but
    [TypeError], [KeyError], [AttributeError] and [ConnectionError] are
    subclasses of Python's [ValueError]. *)
Inductive exn : Type :=
| BinasciiError (msg : string)      (* binascii.Error *)
| ValueError (msg : string)
| JSONDecodeError (msg : string)    (* json.JSONDecodeError *)
| UnicodeDecodeError (msg : string)
| TypeError (msg : string)
| KeyError (key : string)
| AttributeError (msg : string)
| ConnectionError (msg : string).   (* requests.exceptions.ConnectionError and kin *)

(** [isinstance(e, ValueError)] *)
Definition is_ValueError (e : exn) : bool :=
  match e with
  | BinasciiError _ | ValueError _ | JSONDecodeError _ | UnicodeDecodeError _ => true
  | _ => false
  end.

Inductive exc (A : Type) : Type :=
| Ok (a : A)
| Raise (e : exn).
Arguments Ok {A} a.
Arguments Raise {A} e.

Definition bind {A B} (m : exc A) (k : A -> exc B) : exc B :=
  match m with
  | Ok a => k a
  | Raise e => Raise e
  end.

Notation "x <- m ;; k" := (bind m (fun x => k))
  (at level 61, m at next level, right associativity).

(** ** Bytes *)

Definition byte_of_N (n : N) : byte :=
  match Byte.of_N (n mod 256) with
  | Some b => b
  | None => x00
  end.

Definition all_bytes : list byte := map (fun n => byte_of_N (N.of_nat n)) (seq 0 256).

Definition bxor (a b : byte) : byte :=
  byte_of_N (N.lxor (Byte.to_N a) (Byte.to_N b)).

(** ** AES (FIPS-197), the block cipher behind [Crypto.Cipher.AES] *)

(** Multiplication by [x] in GF(2^8) modulo x^8+x^4+x^3+x+1. *)
Definition xtime (b : byte) : byte :=
  let n := Byte.to_N b in
  byte_of_N (N.lxor (N.shiftl n 1) (if N.testbit n 7 then 283 else 0)).

Fixpoint gf_mul_bits (fuel : nat) (a : byte) (k : N) : byte :=
  match fuel with
  | O => x00
  | S fuel' =>
      bxor (if N.odd k then a else x00) (gf_mul_bits fuel' (xtime a) (N.div2 k))
  end.

(** Product in GF(2^8) of the field element [a] by the constant [k]. *)
Definition gf_mul (k : N) (a : byte) : byte := gf_mul_bits 8 a k.

Fixpoint gf_pow (n : nat) (a : byte) : byte :=
  match n with
  | O => x01
  | S n' => gf_mul (Byte.to_N a) (gf_pow n' a)
  end.

Definition rotl8 (n : N) (k : N) : N :=
  N.lor (N.shiftl n k mod 256) (N.shiftr n (8 - k)).

(** The S-box by its definition: inverse in the field, then the affine map. *)
Definition sbox_formula (b : byte) : byte :=
  let i := Byte.to_N (gf_pow 254 b) in
  byte_of_N (N.lxor i (N.lxor (rotl8 i 1) (N.lxor (rotl8 i 2)
              (N.lxor (rotl8 i 3) (N.lxor (rotl8 i 4) 99))))).

Definition sbox_table : list byte :=
  Eval vm_compute in map sbox_formula all_bytes.

Definition inv_sbox_table : list byte :=
  Eval vm_compute in
    map (fun y => match find (fun x => Byte.eqb (nth (Byte.to_nat x) sbox_table x00) y)
                             all_bytes with
                  | Some x => x
                  | None => x00
                  end) all_bytes.

Definition sbox (b : byte) : byte := nth (Byte.to_nat b) sbox_table x00.
Definition inv_sbox (b : byte) : byte := nth (Byte.to_nat b) inv_sbox_table x00.

(** A word is a column of four bytes; the state is four columns. *)
Definition word : Type := (byte * byte * byte * byte)%type.
Definition state : Type := (word * word * word * word)%type.

Definition xor_word (u v : word) : word :=
  let '(a, b, c, d) := u in
  let '(a', b', c', d') := v in
  (bxor a a', bxor b b', bxor c c', bxor d d').

Definition map_state (f : word -> word) (s : state) : state :=
  let '(c0, c1, c2, c3) := s in (f c0, f c1, f c2, f c3).

Definition add_round_key (k s : state) : state :=
  let '(k0, k1, k2, k3) := k in
  let '(c0, c1, c2, c3) := s in
  (xor_word c0 k0, xor_word c1 k1, xor_word c2 k2, xor_word c3 k3).

Definition sub_word (w : word) : word :=
  let '(a, b, c, d) := w in (sbox a, sbox b, sbox c, sbox d).
Definition inv_sub_word (w : word) : word :=
  let '(a, b, c, d) := w in (inv_sbox a, inv_sbox b, inv_sbox c, inv_sbox d).
Definition rot_word (w : word) : word :=
  let '(a, b, c, d) := w in (b, c, d, a).

Definition sub_bytes : state -> state := map_state sub_word.
Definition inv_sub_bytes : state -> state := map_state inv_sub_word.

(** Row [r] of the state is rotated left by [r] columns. *)
Definition shift_rows (s : state) : state :=
  let '((a0, a1, a2, a3), (b0, b1, b2, b3), (c0, c1, c2, c3), (d0, d1, d2, d3)) := s in
  ((a0, b1, c2, d3), (b0, c1, d2, a3), (c0, d1, a2, b3), (d0, a1, b2, c3)).
Definition inv_shift_rows (s : state) : state :=
  let '((a0, a1, a2, a3), (b0, b1, b2, b3), (c0, c1, c2, c3), (d0, d1, d2, d3)) := s in
  ((a0, d1, c2, b3), (b0, a1, d2, c3), (c0, b1, a2, d3), (d0, c1, b2, a3)).

Definition bxor4 (a b c d : byte) : byte := bxor (bxor a b) (bxor c d).

Definition mix_column (w : word) : word :=
  let '(a, b, c, d) := w in
  (bxor4 (gf_mul 2 a) (gf_mul 3 b) c d,
   bxor4 a (gf_mul 2 b) (gf_mul 3 c) d,
   bxor4 a b (gf_mul 2 c) (gf_mul 3 d),
   bxor4 (gf_mul 3 a) b c (gf_mul 2 d)).
Definition inv_mix_column (w : word) : word :=
  let '(a, b, c, d) := w in
  (bxor4 (gf_mul 14 a) (gf_mul 11 b) (gf_mul 13 c) (gf_mul 9 d),
   bxor4 (gf_mul 9 a) (gf_mul 14 b) (gf_mul 11 c) (gf_mul 13 d),
   bxor4 (gf_mul 13 a) (gf_mul 9 b) (gf_mul 14 c) (gf_mul 11 d),
   bxor4 (gf_mul 11 a) (gf_mul 13 b) (gf_mul 9 c) (gf_mul 14 d)).

Definition mix_columns : state -> state := map_state mix_column.
Definition inv_mix_columns : state -> state := map_state inv_mix_column.

(** Key expansion.  [words] holds w[0..i-1] in reverse (latest first);
    [nk] is the key length in words. *)
Fixpoint words_of_bytes (l : list byte) : list word :=
  match l with
  | a :: b :: c :: d :: rest => (a, b, c, d) :: words_of_bytes rest
  | _ => []
  end.

Definition rcon (i : nat) : word := (gf_pow (i - 1) x02, x00, x00, x00).

Fixpoint expand_key (n : nat) (nk i : nat) (rev_words : list word) : list word :=
  match n with
  | O => rev_words
  | S n' =>
      let prev := nth 0 rev_words (x00, x00, x00, x00) in
      let back := nth (nk - 1) rev_words (x00, x00, x00, x00) in
      let temp :=
        if Nat.eqb (i mod nk) 0 then xor_word (sub_word (rot_word prev)) (rcon (i / nk))
        else if andb (Nat.ltb 6 nk) (Nat.eqb (i mod nk) 4) then sub_word prev
        else prev in
      expand_key n' nk (S i) (xor_word back temp :: rev_words)
  end.

Fixpoint states_of_words (l : list word) : list state :=
  match l with
  | a :: b :: c :: d :: rest => (a, b, c, d) :: states_of_words rest
  | _ => []
  end.

(** The round keys of a 16, 24 or 32 byte key: 11, 13 or 15 of them. *)
Definition key_schedule (key : list byte) : list state :=
  let nk := (length key / 4)%nat in
  let total := (4 * (nk + 7))%nat in
  states_of_words (rev (expand_key (total - nk) nk nk (rev (words_of_bytes key)))).

Fixpoint enc_rounds (ks : list state) (s : state) : state :=
  match ks with
  | [] => s
  | [k] => add_round_key k (shift_rows (sub_bytes s))
  | k :: ks' => enc_rounds ks' (add_round_key k (mix_columns (shift_rows (sub_bytes s))))
  end.

Fixpoint dec_rounds (ks : list state) (s : state) : state :=
  match ks with
  | [] => s
  | [k] => inv_sub_bytes (inv_shift_rows (add_round_key k s))
  | k :: ks' =>
      inv_sub_bytes (inv_shift_rows (inv_mix_columns (add_round_key k (dec_rounds ks' s))))
  end.

(** Cipher and InvCipher of FIPS-197 on one block. *)
Definition aes_encrypt_block (ks : list state) (s : state) : state :=
  match ks with
  | [] => s
  | k0 :: ks' => enc_rounds ks' (add_round_key k0 s)
  end.
Definition aes_decrypt_block (ks : list state) (s : state) : state :=
  match ks with
  | [] => s
  | k0 :: ks' => add_round_key k0 (dec_rounds ks' s)
  end.

Definition bytes_of_word (w : word) : list byte :=
  let '(a, b, c, d) := w in [a; b; c; d].
Definition bytes_of_state (s : state) : list byte :=
  let '(c0, c1, c2, c3) := s in
  bytes_of_word c0 ++ bytes_of_word c1 ++ bytes_of_word c2 ++ bytes_of_word c3.

Definition state_of_bytes16 (a0 a1 a2 a3 b0 b1 b2 b3 c0 c1 c2 c3 d0 d1 d2 d3 : byte) : state :=
  ((a0, a1, a2, a3), (b0, b1, b2, b3), (c0, c1, c2, c3), (d0, d1, d2, d3)).

(** ** CBC mode ([Crypto.Cipher._mode_cbc.CbcMode]) *)

Definition xor_state (s t : state) : state := add_round_key t s.

(** Chained encryption of whole blocks; [None] when the data is not a
    multiple of 16 bytes.  Returns the last ciphertext block as well: it is
    the chaining value the cipher object keeps. *)
Fixpoint cbc_encrypt_blocks (ks : list state) (prev : state) (data : list byte)
  : option (state * list byte) :=
  match data with
  | [] => Some (prev, [])
  | a0 :: a1 :: a2 :: a3 :: b0 :: b1 :: b2 :: b3
    :: c0 :: c1 :: c2 :: c3 :: d0 :: d1 :: d2 :: d3 :: rest =>
      let p := state_of_bytes16 a0 a1 a2 a3 b0 b1 b2 b3 c0 c1 c2 c3 d0 d1 d2 d3 in
      let c := aes_encrypt_block ks (xor_state p prev) in
      match cbc_encrypt_blocks ks c rest with
      | Some (final, out) => Some (final, bytes_of_state c ++ out)
      | None => None
      end
  | _ => None
  end.

Fixpoint cbc_decrypt_blocks (ks : list state) (prev : state) (data : list byte)
  : option (state * list byte) :=
  match data with
  | [] => Some (prev, [])
  | a0 :: a1 :: a2 :: a3 :: b0 :: b1 :: b2 :: b3
    :: c0 :: c1 :: c2 :: c3 :: d0 :: d1 :: d2 :: d3 :: rest =>
      let c := state_of_bytes16 a0 a1 a2 a3 b0 b1 b2 b3 c0 c1 c2 c3 d0 d1 d2 d3 in
      let p := xor_state (aes_decrypt_block ks c) prev in
      match cbc_decrypt_blocks ks c rest with
      | Some (final, out) => Some (final, bytes_of_state p ++ out)
      | None => None
      end
  | _ => None
  end.

(** What the object allows next: [self._next] of [CbcMode]. *)
Inductive cbc_next : Type := EncryptOrDecrypt | EncryptOnly | DecryptOnly.

(** The cipher object returned by [AES.new(key, AES.MODE_CBC, iv)]: it is
    stateful, the chaining value moves on with every call. *)
Record CbcMode : Type := mkCbcMode {
  cbc_round_keys : list state;
  cbc_chain : state;
  cbc_allowed : cbc_next
}.

Definition block_size : nat := 16.            (* AES.block_size *)
Definition key_size : list nat := [16; 24; 32]%nat.  (* AES.key_size *)

Definition AES_new_CBC (key iv : list byte) : exc CbcMode :=
  if negb (existsb (Nat.eqb (List.length key)) key_size) then
    Raise (ValueError "Incorrect AES key length")
  else
    match iv with
    | [a0; a1; a2; a3; b0; b1; b2; b3; c0; c1; c2; c3; d0; d1; d2; d3] =>
        Ok (mkCbcMode (key_schedule key)
              (state_of_bytes16 a0 a1 a2 a3 b0 b1 b2 b3 c0 c1 c2 c3 d0 d1 d2 d3)
              EncryptOrDecrypt)
    | _ => Raise (ValueError "Incorrect IV length (it must be 16 bytes long)")
    end.

Definition CbcMode_encrypt (c : CbcMode) (plaintext : list byte)
  : exc (CbcMode * list byte) :=
  match cbc_allowed c with
  | DecryptOnly => Raise (TypeError "encrypt() cannot be called after decrypt()")
  | _ =>
      match cbc_encrypt_blocks (cbc_round_keys c) (cbc_chain c) plaintext with
      | Some (final, out) => Ok (mkCbcMode (cbc_round_keys c) final EncryptOnly, out)
      | None => Raise (ValueError "Data must be padded to 16 byte boundary in CBC mode")
      end
  end.

Definition CbcMode_decrypt (c : CbcMode) (ciphertext : list byte)
  : exc (CbcMode * list byte) :=
  match cbc_allowed c with
  | EncryptOnly => Raise (TypeError "decrypt() cannot be called after encrypt()")
  | _ =>
      match cbc_decrypt_blocks (cbc_round_keys c) (cbc_chain c) ciphertext with
      | Some (final, out) => Ok (mkCbcMode (cbc_round_keys c) final DecryptOnly, out)
      | None => Raise (ValueError "Data must be padded to 16 byte boundary in CBC mode")
      end
  end.

(** ** PKCS#7 padding ([Crypto.Util.Padding], style pkcs7) *)

Definition bchr (n : nat) : byte := byte_of_N (N.of_nat n).

Definition bytes_eqb (l l' : list byte) : bool :=
  if list_eq_dec Byte.byte_eq_dec l l' then true else false.

Definition pad (data_to_pad : list byte) (block_size : nat) : list byte :=
  let padding_len := (block_size - List.length data_to_pad mod block_size)%nat in
  data_to_pad ++ repeat (bchr padding_len) padding_len.

Definition unpad (padded_data : list byte) (block_size : nat) : exc (list byte) :=
  let pdata_len := List.length padded_data in
  if Nat.eqb pdata_len 0 then
    Raise (ValueError "Zero-length input cannot be unpadded")
  else if negb (Nat.eqb (pdata_len mod block_size) 0) then
    Raise (ValueError "Input data is not padded")
  else
    let padding_len := Byte.to_nat (last padded_data x00) in
    if orb (Nat.ltb padding_len 1) (Nat.ltb (Nat.min block_size pdata_len) padding_len) then
      Raise (ValueError "Padding is incorrect.")
    else if negb (bytes_eqb (skipn (pdata_len - padding_len) padded_data)
                            (repeat (bchr padding_len) padding_len)) then
      Raise (ValueError "PKCS#7 padding is incorrect.")
    else Ok (firstn (pdata_len - padding_len) padded_data).

(** ** [binascii]: hexadecimal and base64 *)

Definition is_ascii (b : byte) : bool := N.ltb (Byte.to_N b) 128.

(** The value of a hexadecimal digit, in either case. *)
Definition hex_digit (b : byte) : option N :=
  let n := Byte.to_N b in
  if andb (N.leb 48 n) (N.leb n 57) then Some (n - 48)%N
  else if andb (N.leb 97 n) (N.leb n 102) then Some (n - 87)%N
  else if andb (N.leb 65 n) (N.leb n 70) then Some (n - 55)%N
  else None.

Fixpoint unhexlify (l : list byte) : option (list byte) :=
  match l with
  | hi :: lo :: rest =>
      match hex_digit hi, hex_digit lo, unhexlify rest with
      | Some h, Some l, Some out => Some (byte_of_N (16 * h + l) :: out)
      | _, _, _ => None
      end
  | _ => Some []
  end.

(** [binascii.a2b_hex] on a [str] argument. *)
Definition a2b_hex (hexstr : string) : exc (list byte) :=
  let l := list_byte_of_string hexstr in
  if negb (forallb is_ascii l) then
    Raise (ValueError "string argument should contain only ASCII characters")
  else if Nat.odd (List.length l) then
    Raise (BinasciiError "Odd-length string")
  else
    match unhexlify l with
    | Some out => Ok out
    | None => Raise (BinasciiError "Non-hexadecimal digit found")
    end.

(** The base64 alphabet, by index 0..63. *)
Definition table_b2a_base64 (i : N) : byte :=
  if N.ltb i 26 then byte_of_N (65 + i)
  else if N.ltb i 52 then byte_of_N (97 + (i - 26))
  else if N.ltb i 62 then byte_of_N (48 + (i - 52))
  else if N.eqb i 62 then "+"%byte
  else "/"%byte.

(** Its inverse; [None] for a byte outside the alphabet. *)
Definition table_a2b_base64 (b : byte) : option N :=
  let n := Byte.to_N b in
  if andb (N.leb 65 n) (N.leb n 90) then Some (n - 65)%N
  else if andb (N.leb 97 n) (N.leb n 122) then Some (n - 97 + 26)%N
  else if andb (N.leb 48 n) (N.leb n 57) then Some (n - 48 + 52)%N
  else if N.eqb n 43 then Some 62%N
  else if N.eqb n 47 then Some 63%N
  else None.

Fixpoint b2a_groups (data : list byte) : list byte :=
  match data with
  | [] => []
  | [a] =>
      let a := Byte.to_N a in
      [table_b2a_base64 (N.shiftr a 2);
       table_b2a_base64 (N.shiftl (N.land a 3) 4);
       "="%byte; "="%byte]
  | [a; b] =>
      let a := Byte.to_N a in
      let b := Byte.to_N b in
      [table_b2a_base64 (N.shiftr a 2);
       table_b2a_base64 (N.lor (N.shiftl (N.land a 3) 4) (N.shiftr b 4));
       table_b2a_base64 (N.shiftl (N.land b 15) 2);
       "="%byte]
  | a :: b :: c :: rest =>
      let a := Byte.to_N a in
      let b := Byte.to_N b in
      let c := Byte.to_N c in
      table_b2a_base64 (N.shiftr a 2)
      :: table_b2a_base64 (N.lor (N.shiftl (N.land a 3) 4) (N.shiftr b 4))
      :: table_b2a_base64 (N.lor (N.shiftl (N.land b 15) 2) (N.shiftr c 6))
      :: table_b2a_base64 (N.land c 63)
      :: b2a_groups rest
  end.

(** [binascii.b2a_base64(data)]: one line of base64, newline included. *)
Definition b2a_base64 (data : list byte) : list byte := b2a_groups data ++ [x0a].

(** The decoding loop of [binascii.a2b_base64] (CPython 3.11, not in
    strict mode): bytes outside the alphabet are skipped, a pad sequence
    that completes a quad ends the input.  [quad_pos] counts the data
    characters of the current quad, [leftchar] holds the bits not yet
    written, [pads] the pad characters seen since the last data
    character. *)
Fixpoint a2b_base64_loop (ascii_data : list byte) (quad_pos : nat) (leftchar : N)
  (pads : nat) (bin_data : list byte) : exc (list byte) :=
  match ascii_data with
  | [] =>
      if Nat.eqb quad_pos 0 then Ok (rev bin_data)
      else if Nat.eqb quad_pos 1 then
        Raise (BinasciiError
          "Invalid base64-encoded string: number of data characters cannot be 1 more than a multiple of 4")
      else Raise (BinasciiError "Incorrect padding")
  | this_ch :: rest =>
      if Byte.eqb this_ch "="%byte then
        if Nat.leb 2 quad_pos then
          if Nat.leb 4 (quad_pos + S pads) then Ok (rev bin_data)
          else a2b_base64_loop rest quad_pos leftchar (S pads) bin_data
        else a2b_base64_loop rest quad_pos leftchar pads bin_data
      else
        match table_a2b_base64 this_ch with
        | None => a2b_base64_loop rest quad_pos leftchar pads bin_data
        | Some v =>
            match quad_pos with
            | 0%nat => a2b_base64_loop rest 1 v 0 bin_data
            | 1%nat =>
                a2b_base64_loop rest 2 (N.land v 15) 0
                  (byte_of_N (N.lor (N.shiftl leftchar 2) (N.shiftr v 4)) :: bin_data)
            | 2%nat =>
                a2b_base64_loop rest 3 (N.land v 3) 0
                  (byte_of_N (N.lor (N.shiftl leftchar 4) (N.shiftr v 2)) :: bin_data)
            | _ =>
                a2b_base64_loop rest 0 0 0
                  (byte_of_N (N.lor (N.shiftl leftchar 6) v) :: bin_data)
            end
        end
  end.

(** [binascii.a2b_base64] on a [str] argument. *)
Definition a2b_base64 (data : string) : exc (list byte) :=
  let l := list_byte_of_string data in
  if negb (forallb is_ascii l) then
    Raise (ValueError "string argument should contain only ASCII characters")
  else a2b_base64_loop l 0 0 0 [].

(** ** [urllib.parse.urlencode] *)

(** [_ALWAYS_SAFE]: letters, digits and [_.-~]. *)
Definition always_safe (b : byte) : bool :=
  let n := Byte.to_N b in
  orb (andb (N.leb 65 n) (N.leb n 90))
      (orb (andb (N.leb 97 n) (N.leb n 122))
           (orb (andb (N.leb 48 n) (N.leb n 57))
                (existsb (N.eqb n) [95; 46; 45; 126]%N))).

Definition hex_upper (n : N) : byte :=
  if N.ltb n 10 then byte_of_N (48 + n) else byte_of_N (55 + n).

(** One byte of the UTF-8 text under [quote_plus]: kept, [+] for a space,
    or [%XX]. *)
Definition quote_byte (b : byte) : list byte :=
  if always_safe b then [b]
  else if Byte.eqb b " "%byte then ["+"%byte]
  else ["%"%byte; hex_upper (N.shiftr (Byte.to_N b) 4); hex_upper (N.land (Byte.to_N b) 15)].

Definition quote_plus (s : string) : list byte :=
  flat_map quote_byte (list_byte_of_string s).

Fixpoint join_amp (l : list (list byte)) : list byte :=
  match l with
  | [] => []
  | [x] => x
  | x :: rest => x ++ "&"%byte :: join_amp rest
  end.

(** [urlencode(params)] for a dict of [str] keys and values, in insertion
    order; the result is ASCII text, returned as its bytes. *)
Definition urlencode (params : list (string * string)) : list byte :=
  join_amp (map (fun kv => quote_plus (fst kv) ++ "="%byte :: quote_plus (snd kv)) params).

(** ** JSON values and [json.loads] *)

(** A Python [float] read from a decimal literal, kept as the exact decimal
    [(-1)^neg * m * 10^e] that [float()] rounds to the nearest double. *)
Inductive pyfloat : Type :=
| FDec (neg : bool) (m : N) (e : Z)
| FInf (neg : bool)
| FNan.

(** What [json.loads] returns; [JNull] is Python's [None], [JObj] a [dict]
    in insertion order. *)
#[warnings="-register-all"]
Inductive json : Type :=
| JNull
| JBool (b : bool)
| JInt (z : Z)
| JFloat (f : pyfloat)
| JStr (s : string)
| JArr (items : list json)
| JObj (members : list (string * json)).

(** The double nearest to [m * 10^e] is zero exactly when the decimal is at
    most 2^-1075, half the least subnormal (a tie goes to the even 0.0). *)
Definition float_is_zero (f : pyfloat) : bool :=
  match f with
  | FDec _ m e =>
      orb (N.eqb m 0)
          (andb (Z.ltb e 0) (Z.leb (Z.of_N m * 2 ^ 1075) (10 ^ (- e))))
  | _ => false
  end.

(** [bool(v)] *)
Definition json_truthy (v : json) : bool :=
  match v with
  | JNull => false
  | JBool b => b
  | JInt z => negb (Z.eqb z 0)
  | JFloat f => negb (float_is_zero f)
  | JStr s => negb (String.eqb s "")
  | JArr items => match items with [] => false | _ => true end
  | JObj members => match members with [] => false | _ => true end
  end.

(** [d[k] = v] on a dict kept in insertion order. *)
Fixpoint dict_set (d : list (string * json)) (k : string) (v : json)
  : list (string * json) :=
  match d with
  | [] => [(k, v)]
  | (k', v') :: rest =>
      if String.eqb k' k then (k', v) :: rest else (k', v') :: dict_set rest k v
  end.

Fixpoint dict_get (d : list (string * json)) (k : string) : option json :=
  match d with
  | [] => None
  | (k', v) :: rest => if String.eqb k' k then Some v else dict_get rest k
  end.

(** [obj[key]] for a [str] key. *)
Definition json_getitem (obj : json) (key : string) : exc json :=
  match obj with
  | JObj members =>
      match dict_get members key with
      | Some v => Ok v
      | None => Raise (KeyError key)
      end
  | JStr _ => Raise (TypeError "string indices must be integers")
  | JArr _ => Raise (TypeError "list indices must be integers or slices, not str")
  | _ => Raise (TypeError "object is not subscriptable")
  end.

Definition is_digit (b : byte) : bool :=
  andb (N.leb 48 (Byte.to_N b)) (N.leb (Byte.to_N b) 57).

Definition is_ws (b : byte) : bool :=
  existsb (N.eqb (Byte.to_N b)) [32; 9; 10; 13]%N.

Fixpoint skip_ws (l : list byte) : list byte :=
  match l with
  | b :: rest => if is_ws b then skip_ws rest else l
  | [] => []
  end.

(** The longest run of digits: its value, its length and what follows. *)
Fixpoint scan_digits (l : list byte) (acc : N) (count : nat) : N * nat * list byte :=
  match l with
  | b :: rest =>
      if is_digit b then scan_digits rest (10 * acc + (Byte.to_N b - 48)) (S count)
      else (acc, count, l)
  | [] => (acc, count, [])
  end.

(** The UTF-8 bytes of a code point (three bytes for a lone surrogate, as
    the [surrogatepass] handler writes it). *)
Definition utf8_encode (cp : N) : list byte :=
  if N.ltb cp 128 then [byte_of_N cp]
  else if N.ltb cp 2048 then
    [byte_of_N (N.lor 192 (N.shiftr cp 6)); byte_of_N (N.lor 128 (N.land cp 63))]
  else if N.ltb cp 65536 then
    [byte_of_N (N.lor 224 (N.shiftr cp 12));
     byte_of_N (N.lor 128 (N.land (N.shiftr cp 6) 63));
     byte_of_N (N.lor 128 (N.land cp 63))]
  else
    [byte_of_N (N.lor 240 (N.shiftr cp 18));
     byte_of_N (N.lor 128 (N.land (N.shiftr cp 12) 63));
     byte_of_N (N.lor 128 (N.land (N.shiftr cp 6) 63));
     byte_of_N (N.lor 128 (N.land cp 63))].

Definition hex4 (a b c d : byte) : option N :=
  match hex_digit a, hex_digit b, hex_digit c, hex_digit d with
  | Some a, Some b, Some c, Some d => Some (((a * 16 + b) * 16 + c) * 16 + d)%N
  | _, _, _, _ => None
  end.

Definition is_high_surrogate (c : N) : bool := andb (N.leb 55296 c) (N.leb c 56319).
Definition is_low_surrogate (c : N) : bool := andb (N.leb 56320 c) (N.leb c 57343).

(** [scanstring] with [strict=True], after the opening quote: the decoded
    text (reversed, as bytes) and what follows the closing quote. *)
Fixpoint scanstring (l : list byte) (acc : list byte) : exc (list byte * list byte) :=
  match l with
  | [] => Raise (JSONDecodeError "Unterminated string starting at")
  | b :: rest =>
      if Byte.eqb b x22 then Ok (rev acc, rest)
      else if Byte.eqb b "\"%byte then
        match rest with
        | [] => Raise (JSONDecodeError "Unterminated string starting at")
        | e :: rest' =>
            if Byte.eqb e "u"%byte then
              match rest' with
              | h1 :: h2 :: h3 :: h4 :: rest'' =>
                  match hex4 h1 h2 h3 h4 with
                  | None => Raise (JSONDecodeError "Invalid \uXXXX escape")
                  | Some c =>
                      match rest'' with
                      | b1 :: b2 :: g1 :: g2 :: g3 :: g4 :: ((_ :: _) as tail) =>
                          if andb (is_high_surrogate c)
                                  (andb (Byte.eqb b1 "\"%byte) (Byte.eqb b2 "u"%byte)) then
                            match hex4 g1 g2 g3 g4 with
                            | None => Raise (JSONDecodeError "Invalid \uXXXX escape")
                            | Some c2 =>
                                if is_low_surrogate c2 then
                                  scanstring tail
                                    (rev (utf8_encode
                                            (65536 + N.shiftl (c - 55296) 10 + (c2 - 56320)))
                                     ++ acc)
                                else scanstring rest'' (rev (utf8_encode c) ++ acc)
                            end
                          else scanstring rest'' (rev (utf8_encode c) ++ acc)
                      | _ => scanstring rest'' (rev (utf8_encode c) ++ acc)
                      end
                  end
              | _ => Raise (JSONDecodeError "Invalid \uXXXX escape")
              end
            else
              let plain (c : byte) := scanstring rest' (c :: acc) in
              if Byte.eqb e x22 then plain x22
              else if Byte.eqb e "\"%byte then plain "\"%byte
              else if Byte.eqb e "/"%byte then plain "/"%byte
              else if Byte.eqb e "b"%byte then plain x08
              else if Byte.eqb e "f"%byte then plain x0c
              else if Byte.eqb e "n"%byte then plain x0a
              else if Byte.eqb e "r"%byte then plain x0d
              else if Byte.eqb e "t"%byte then plain x09
              else Raise (JSONDecodeError "Invalid \escape")
        end
      else if N.leb (Byte.to_N b) 31 then
        Raise (JSONDecodeError "Invalid control character at")
      else scanstring rest (b :: acc)
  end.

Definition starts_with (prefix : string) (l : list byte) : bool :=
  let p := list_byte_of_string prefix in
  bytes_eqb (firstn (List.length p) l) p.

(** The number grammar of the scanner: an optional minus sign, then 0 or a
    digit 1-9 followed by digits; then optionally a dot and digits; then
    optionally e or E, a sign and digits.  A fraction or exponent that does
    not complete is left unread; an integer literal gives an [int]. *)
Definition scan_number (l : list byte) : option (json * list byte) :=
  let '(neg, l1) :=
    match l with
    | b :: r => if Byte.eqb b "-"%byte then (true, r) else (false, l)
    | [] => (false, l)
    end in
  match l1 with
  | [] => None
  | d :: r =>
      if negb (is_digit d) then None
      else
        let '(ip, _, r1) :=
          if Byte.eqb d "0"%byte then (0%N, 1%nat, r) else scan_digits l1 0 0 in
        let '(mant, fcount, r2) :=
          match r1 with
          | dot :: d' :: _ =>
              if andb (Byte.eqb dot "."%byte) (is_digit d') then scan_digits (tl r1) ip 0
              else (ip, 0%nat, r1)
          | _ => (ip, 0%nat, r1)
          end in
        let '(has_exp, ex, r3) :=
          match r2 with
          | e :: after_e =>
              if orb (Byte.eqb e "e"%byte) (Byte.eqb e "E"%byte) then
                let '(eneg, after_sign) :=
                  match after_e with
                  | sg :: t =>
                      if Byte.eqb sg "-"%byte then (true, t)
                      else if Byte.eqb sg "+"%byte then (false, t)
                      else (false, after_e)
                  | [] => (false, after_e)
                  end in
                let '(ev, ecount, after_exp) := scan_digits after_sign 0 0 in
                if Nat.eqb ecount 0 then (false, 0%Z, r2)
                else (true, if eneg then (- Z.of_N ev)%Z else Z.of_N ev, after_exp)
              else (false, 0%Z, r2)
          | [] => (false, 0%Z, r2)
          end in
        if orb has_exp (negb (Nat.eqb fcount 0)) then
          Some (JFloat (FDec neg mant (ex - Z.of_nat fcount)), r3)
        else Some (JInt (if neg then (- Z.of_N ip)%Z else Z.of_N ip), r3)
  end.

(** [scan_once]: one JSON value at the head of [l], and the rest.  The
    scanner recurses into arrays and objects; [fuel] bounds the calls, and
    [json_loads_text] gives it more than the input can use: a level of
    nesting takes two units and at least one character, a further element
    or member one unit and at least two characters.  The interpreter's
    recursion limit, which makes Python give up on nesting some thousand
    levels deep, is not modelled. *)
Fixpoint parse_value (fuel : nat) (l : list byte) {struct fuel} : exc (json * list byte) :=
  match fuel with
  | O => Raise (JSONDecodeError "Expecting value")
  | S f =>
      match l with
      | [] => Raise (JSONDecodeError "Expecting value")
      | c :: r =>
          if Byte.eqb c x22 then
            sr <- scanstring r [] ;;
            Ok (JStr (string_of_list_byte (fst sr)), snd sr)
          else if Byte.eqb c "{"%byte then
            match skip_ws r with
            | c' :: r' =>
                if Byte.eqb c' "}"%byte then Ok (JObj [], r')
                else parse_members f (skip_ws r) []
            | [] => Raise (JSONDecodeError "Expecting property name enclosed in double quotes")
            end
          else if Byte.eqb c "["%byte then
            match skip_ws r with
            | c' :: r' =>
                if Byte.eqb c' "]"%byte then Ok (JArr [], r')
                else parse_items f (skip_ws r) []
            | [] => Raise (JSONDecodeError "Expecting value")
            end
          else if starts_with "null" l then Ok (JNull, skipn 4 l)
          else if starts_with "true" l then Ok (JBool true, skipn 4 l)
          else if starts_with "false" l then Ok (JBool false, skipn 5 l)
          else if starts_with "NaN" l then Ok (JFloat FNan, skipn 3 l)
          else if starts_with "Infinity" l then Ok (JFloat (FInf false), skipn 8 l)
          else if starts_with "-Infinity" l then Ok (JFloat (FInf true), skipn 9 l)
          else
            match scan_number l with
            | Some res => Ok res
            | None => Raise (JSONDecodeError "Expecting value")
            end
      end
  end
with parse_items (fuel : nat) (l : list byte) (acc : list json) {struct fuel}
  : exc (json * list byte) :=
  match fuel with
  | O => Raise (JSONDecodeError "Expecting value")
  | S f =>
      vr <- parse_value f l ;;
      match skip_ws (snd vr) with
      | c :: r =>
          if Byte.eqb c "]"%byte then Ok (JArr (rev (fst vr :: acc)), r)
          else if Byte.eqb c ","%byte then parse_items f (skip_ws r) (fst vr :: acc)
          else Raise (JSONDecodeError "Expecting ',' delimiter")
      | [] => Raise (JSONDecodeError "Expecting ',' delimiter")
      end
  end
with parse_members (fuel : nat) (l : list byte) (acc : list (string * json)) {struct fuel}
  : exc (json * list byte) :=
  match fuel with
  | O => Raise (JSONDecodeError "Expecting value")
  | S f =>
      match l with
      | q :: r =>
          if negb (Byte.eqb q x22) then
            Raise (JSONDecodeError "Expecting property name enclosed in double quotes")
          else
            kr <- scanstring r [] ;;
            match skip_ws (snd kr) with
            | colon :: r1 =>
                if negb (Byte.eqb colon ":"%byte) then
                  Raise (JSONDecodeError "Expecting ':' delimiter")
                else
                  vr <- parse_value f (skip_ws r1) ;;
                  let acc' := dict_set acc (string_of_list_byte (fst kr)) (fst vr) in
                  match skip_ws (snd vr) with
                  | c :: r2 =>
                      if Byte.eqb c "}"%byte then Ok (JObj acc', r2)
                      else if Byte.eqb c ","%byte then parse_members f (skip_ws r2) acc'
                      else Raise (JSONDecodeError "Expecting ',' delimiter")
                  | [] => Raise (JSONDecodeError "Expecting ',' delimiter")
                  end
            | [] => Raise (JSONDecodeError "Expecting ':' delimiter")
            end
      | [] => Raise (JSONDecodeError "Expecting property name enclosed in double quotes")
      end
  end.

(** [JSONDecoder.decode] on decoded text (given as its UTF-8 bytes): one
    value between optional whitespace, and nothing after it. *)
Definition json_loads_text (l : list byte) : exc json :=
  vr <- parse_value (2 * List.length l + 2) (skip_ws l) ;;
  match skip_ws (snd vr) with
  | [] => Ok (fst vr)
  | _ => Raise (JSONDecodeError "Extra data")
  end.

(** *** From [bytes] to text: [json.detect_encoding] and [bytes.decode] *)

Inductive encoding : Type :=
| utf_8 | utf_8_sig | utf_16 | utf_16_be | utf_16_le | utf_32 | utf_32_be | utf_32_le.

Definition nth_is_zero (n : nat) (b : list byte) : bool :=
  Byte.eqb (nth n b x01) x00.

Definition detect_encoding (b : list byte) : encoding :=
  let starts (p : list byte) := bytes_eqb (firstn (List.length p) b) p in
  if orb (starts [x00; x00; xfe; xff]) (starts [xff; xfe; x00; x00]) then utf_32
  else if orb (starts [xfe; xff]) (starts [xff; xfe]) then utf_16
  else if starts [xef; xbb; xbf] then utf_8_sig
  else if Nat.leb 4 (List.length b) then
    if nth_is_zero 0 b then (if nth_is_zero 1 b then utf_32_be else utf_16_be)
    else if nth_is_zero 1 b then
      (if andb (nth_is_zero 2 b) (nth_is_zero 3 b) then utf_32_le else utf_16_le)
    else utf_8
  else if Nat.eqb (List.length b) 2 then
    if nth_is_zero 0 b then utf_16_be
    else if nth_is_zero 1 b then utf_16_le
    else utf_8
  else utf_8.

(** Well-formed UTF-8, surrogates included (the [surrogatepass] handler
    lets them through): [need] continuation bytes are still due, the next
    of them within [lo..hi]. *)
Fixpoint utf8_valid (need : nat) (lo hi : N) (l : list byte) : bool :=
  match l with
  | [] => Nat.eqb need 0
  | b :: rest =>
      let n := Byte.to_N b in
      match need with
      | O =>
          if N.ltb n 128 then utf8_valid 0 128 191 rest
          else if andb (N.leb 194 n) (N.leb n 223) then utf8_valid 1 128 191 rest
          else if N.eqb n 224 then utf8_valid 2 160 191 rest
          else if andb (N.leb 225 n) (N.leb n 239) then utf8_valid 2 128 191 rest
          else if N.eqb n 240 then utf8_valid 3 144 191 rest
          else if andb (N.leb 241 n) (N.leb n 243) then utf8_valid 3 128 191 rest
          else if N.eqb n 244 then utf8_valid 3 128 143 rest
          else false
      | S k => if andb (N.leb lo n) (N.leb n hi) then utf8_valid k 128 191 rest else false
      end
  end.

Fixpoint utf16_units (big_endian : bool) (l : list byte) : option (list N) :=
  match l with
  | [] => Some []
  | a :: b :: rest =>
      let u := if big_endian then (256 * Byte.to_N a + Byte.to_N b)%N
               else (256 * Byte.to_N b + Byte.to_N a)%N in
      option_map (cons u) (utf16_units big_endian rest)
  | _ => None
  end.

Fixpoint utf16_join (units : list N) : list N :=
  match units with
  | [] => []
  | h :: t =>
      match t with
      | lo :: t' =>
          if andb (is_high_surrogate h) (is_low_surrogate lo) then
            (65536 + N.shiftl (h - 55296) 10 + (lo - 56320))%N :: utf16_join t'
          else h :: utf16_join t
      | [] => [h]
      end
  end.

Fixpoint utf32_points (big_endian : bool) (l : list byte) : option (list N) :=
  match l with
  | [] => Some []
  | a :: b :: c :: d :: rest =>
      let '(a, b, c, d) := (Byte.to_N a, Byte.to_N b, Byte.to_N c, Byte.to_N d) in
      let cp := if big_endian then (((a * 256 + b) * 256 + c) * 256 + d)%N
                else (((d * 256 + c) * 256 + b) * 256 + a)%N in
      if N.ltb cp 1114112 then option_map (cons cp) (utf32_points big_endian rest)
      else None
  | _ => None
  end.

(** [b.decode(detect_encoding(b), 'surrogatepass')], the text given as its
    UTF-8 bytes. *)
Definition decode_text (b : list byte) : exc (list byte) :=
  let of_points (o : option (list N)) :=
    match o with
    | Some cps => Ok (flat_map utf8_encode cps)
    | None => Raise (UnicodeDecodeError "codec can't decode bytes")
    end in
  let of_utf8 (l : list byte) :=
    if utf8_valid 0 128 191 l then Ok l
    else Raise (UnicodeDecodeError "'utf-8' codec can't decode bytes") in
  match detect_encoding b with
  | utf_8 => of_utf8 b
  | utf_8_sig => of_utf8 (skipn 3 b)
  | utf_16 => of_points (option_map utf16_join
                           (utf16_units (Byte.eqb (nth 0 b x00) xfe) (skipn 2 b)))
  | utf_16_be => of_points (option_map utf16_join (utf16_units true b))
  | utf_16_le => of_points (option_map utf16_join (utf16_units false b))
  | utf_32 => of_points (utf32_points (Byte.eqb (nth 0 b x00) x00) (skipn 4 b))
  | utf_32_be => of_points (utf32_points true b)
  | utf_32_le => of_points (utf32_points false b)
  end.

(** [json.loads] on a [bytes] argument. *)
Definition json_loads (s : list byte) : exc json :=
  text <- decode_text s ;;
  json_loads_text text.

(** ** [class Cipher] *)

Record Cipher : Type := mkCipher {
  _key_bin : list byte;
  _iv_bin : list byte
}.

(** [Cipher.__init__(self, key, iv)] *)
Definition Cipher__init__ (key iv : string) : exc Cipher :=
  key_bin <- a2b_hex key ;;
  iv_bin <- a2b_hex iv ;;
  Ok (mkCipher key_bin iv_bin).

(** [Cipher.encrypt_params(self, params)] *)
Definition encrypt_params (self : Cipher) (params : list (string * string)) : exc string :=
  let params_encoded := urlencode params in
  let params_padded := pad params_encoded 16 in
  cipher <- AES_new_CBC (_key_bin self) (_iv_bin self) ;;
  enc <- CbcMode_encrypt cipher params_padded ;;
  let params_encrypted := snd enc in
  Ok (string_of_list_byte (b2a_base64 params_encrypted)).

(** [a2b_base64] on an argument of any type: only a [str] is text. *)
Definition a2b_base64_arg (v : json) : exc (list byte) :=
  match v with
  | JStr s => a2b_base64 s
  | _ => Raise (TypeError "argument should be bytes, buffer or ASCII string")
  end.

(** [Cipher.decrypt_params(self, params_encrypted)] *)
Definition decrypt_params (self : Cipher) (params_encrypted : json) : exc json :=
  cipher <- AES_new_CBC (_key_bin self) (_iv_bin self) ;;
  raw <- a2b_base64_arg params_encrypted ;;
  dec <- CbcMode_decrypt cipher raw ;;
  let params_decrypted := snd dec in
  params <- unpad params_decrypted block_size ;;
  json_loads params.

(** ** The panel's HTTP interface ([requests]) *)

Record Request : Type := mkRequest {
  url : string;
  headers : list (string * string);
  data : list (string * string);
  verify : bool
}.

(** A response as the code reads it: its status code and what
    [response.json()] gives, a value or an exception. *)
Record Response : Type := mkResponse {
  status_code : Z;
  response_json : exc json
}.

(** ** Effects: the log, the network, the event loop *)

Inductive level : Type := INFO | WARNING | ERROR.

Inductive logarg : Type :=
| LStr (s : string)
| LInt (z : Z)
| LJson (v : json).

(** What a call does besides returning, in order.  A log record keeps its
    format string and its arguments apart. *)
Inductive event : Type :=
| EvPost (r : Request)                                    (* requests.post is called *)
| EvLog (lvl : level) (fmt : string) (args : list logarg) (* _LOGGER.info etc. *)
| EvSleep (seconds : Z)                                   (* await asyncio.sleep *)
| EvScheduleUpdate.                                       (* async_schedule_update_ha_state *)

(** A computation returns or raises, and leaves a trace of events. *)
Definition M (A : Type) : Type := (exc A * list event)%type.

Definition ret {A} (a : A) : M A := (Ok a, []).
Definition lift {A} (x : exc A) : M A := (x, []).
Definition emit (e : event) : M unit := (Ok tt, [e]).

Definition mbind {A B} (m : M A) (k : A -> M B) : M B :=
  match m with
  | (Ok a, t) => let '(r, t') := k a in (r, t ++ t')
  | (Raise e, t) => (Raise e, t)
  end.

Notation "x <~ m ;; k" := (mbind m (fun x => k))
  (at level 61, m at next level, right associativity).
Notation "m ;;; k" := (mbind m (fun _ => k))
  (at level 61, right associativity).

(** ** [class TuxedoTouch] *)

(** The state constants of [homeassistant.const] that the entity reports. *)
Inductive AlarmState : Type :=
| STATE_ALARM_ARMED_AWAY
| STATE_ALARM_ARMED_HOME
| STATE_ALARM_ARMED_NIGHT
| STATE_ALARM_ARMING
| STATE_ALARM_DISARMED
| STATE_UNAVAILABLE.

(** A code as the entity receives it: absent, text from a service call, or
    the integer of the configuration entry. *)
Inductive code_value : Type :=
| CNone
| CStr (s : string)
| CInt (z : Z).

(** [bool(code)] *)
Definition code_truthy (c : code_value) : bool :=
  match c with
  | CNone => false
  | CStr s => negb (String.eqb s "")
  | CInt z => negb (Z.eqb z 0)
  end.

(** [code is None] *)
Definition code_is_None (c : code_value) : bool :=
  match c with
  | CNone => true
  | _ => false
  end.

(** [str(code)] *)
Definition code_str (c : code_value) : string :=
  match c with
  | CNone => "None"
  | CStr s => s
  | CInt z => NilZero.string_of_int (Z.to_int z)
  end.

Definition SUPPORT_ALARM_ARM_HOME : N := 1.
Definition SUPPORT_ALARM_ARM_AWAY : N := 2.
Definition SUPPORT_ALARM_ARM_NIGHT : N := 4.
Definition FORMAT_NUMBER : string := "number".

Record TuxedoTouch : Type := mkTuxedoTouch {
  _attr_name : string;
  _attr_unique_id : string;
  _attr_supported_features : N;
  _attr_code_arm_required : bool;
  _attr_code_format : option string;
  _url : string;
  _key : string;
  _iv : string;
  _code : code_value;
  _cipher : Cipher;
  _attr_state : option AlarmState
}.

(** [TuxedoTouch.__init__(self, ip_address, name, secret_key, initial_value, code)] *)
Definition TuxedoTouch__init__ (ip_address name secret_key initial_value : string)
  (code : code_value) : exc TuxedoTouch :=
  cipher <- Cipher__init__ secret_key initial_value ;;
  Ok {| _attr_name := name;
        _attr_unique_id := secret_key;
        _attr_supported_features :=
          N.lor (N.lor SUPPORT_ALARM_ARM_HOME SUPPORT_ALARM_ARM_AWAY) SUPPORT_ALARM_ARM_NIGHT;
        _attr_code_arm_required := if code_truthy code then false else true;
        _attr_code_format := if code_truthy code then None else Some FORMAT_NUMBER;
        _url := "https://" ++ ip_address ++ "/system_http_api/API_REV01";
        _key := secret_key;
        _iv := initial_value;
        _code := code;
        _cipher := cipher;
        _attr_state := None |}.

Definition set_attr_state (self : TuxedoTouch) (st : AlarmState) : TuxedoTouch :=
  {| _attr_name := _attr_name self;
     _attr_unique_id := _attr_unique_id self;
     _attr_supported_features := _attr_supported_features self;
     _attr_code_arm_required := _attr_code_arm_required self;
     _attr_code_format := _attr_code_format self;
     _url := _url self;
     _key := _key self;
     _iv := _iv self;
     _code := _code self;
     _cipher := _cipher self;
     _attr_state := Some st |}.

(** [status == literal] for a value of any type. *)
Definition json_eq_str (v : json) (literal : string) : bool :=
  match v with
  | JStr s => String.eqb s literal
  | _ => false
  end.

(** [s.endswith(suffix)] *)
Definition endswith (s suffix : string) : bool :=
  let l := list_byte_of_string s in
  let suf := list_byte_of_string suffix in
  andb (Nat.leb (List.length suf) (List.length l))
       (bytes_eqb (skipn (List.length l - List.length suf) l) suf).

(** [status.endswith(suffix)] for a value of any type: only [str] has the
    method. *)
Definition json_endswith (v : json) (suffix : string) : exc bool :=
  match v with
  | JStr s => Ok (endswith s suffix)
  | _ => Raise (AttributeError "object has no attribute 'endswith'")
  end.

Section Controller.

(** The network: what [requests.post] answers to a request, a response or
    a connection-level exception.  The methods are coroutines that hand
    [_post_request] to an executor and await it
    ([hass.async_add_executor_job]); the model calls it in place, and an
    exception of the job is an exception of the [await]. *)
Variable requests_post : Request -> exc Response.

(** [TuxedoTouch._post_request(self, endpoint, params)] *)
Definition _post_request (self : TuxedoTouch) (endpoint : string)
  (params : list (string * string)) : M json :=
  encrypted_params <~ lift (encrypt_params (_cipher self) params) ;;
  let request :=
    {| url := _url self ++ endpoint;
       headers := [("authtoken", _key self); ("identity", _iv self)];
       data := [("param", encrypted_params)];
       verify := false |} in
  emit (EvPost request) ;;;
  response <~ lift (requests_post request) ;;
  if Z.eqb (status_code response) 200 then
    body <~ lift (response_json response) ;;
    result <~ lift (json_getitem body "Result") ;;
    lift (decrypt_params (_cipher self) result)
  else
    emit (EvLog ERROR "endpoint {endpoint} returned a {response.status_code}"
            [LStr endpoint; LInt (status_code response)]) ;;;
    ret JNull.

(** The [if]/[elif] chain of [async_update] over [status]: the state it
    assigns, [None] when no branch is taken. *)
Definition status_branches (status : json) : exc (option AlarmState) :=
  if json_eq_str status "Armed Away" then Ok (Some STATE_ALARM_ARMED_AWAY)
  else if json_eq_str status "Armed Instant" then Ok (Some STATE_ALARM_ARMED_NIGHT)
  else if json_eq_str status "Armed Stay" then Ok (Some STATE_ALARM_ARMED_HOME)
  else if json_eq_str status "Ready To Arm" then Ok (Some STATE_ALARM_DISARMED)
  else
    ends <- json_endswith status " Secs Remaining" ;;
    if ends then Ok (Some STATE_ALARM_ARMING) else Ok None.

(** [TuxedoTouch.async_update(self)]: returns [self] with its new state. *)
Definition async_update (self : TuxedoTouch) : M TuxedoTouch :=
  response <~ _post_request self "/GetSecurityStatus" [("operation", "get")] ;;
  state <~ (if json_truthy response then
              status <~ lift (json_getitem response "Status") ;;
              state <~ lift (status_branches status) ;;
              emit (EvLog INFO "current alarm status: {status}" [LJson status]) ;;;
              ret state
            else
              emit (EvLog ERROR "unable to get alarm status" []) ;;;
              ret None) ;;
  ret (set_attr_state self
         match state with
         | None => STATE_UNAVAILABLE
         | Some st => st
         end).

(** [TuxedoTouch._alarm_arm(self, arm_name, code)] *)
Definition _alarm_arm (self : TuxedoTouch) (arm_name : string) (code : code_value) : M unit :=
  let arm_code := if code_truthy code then code else _code self in
  if code_is_None arm_code then
    emit (EvLog WARNING "arm code is missing" [])
  else
    response <~ _post_request self "/AdvancedSecurity/ArmWithCode"
                  [("arming", arm_name);
                   ("pID", "1");
                   ("ucode", code_str arm_code);
                   ("operation", "set")] ;;
    if json_truthy response then
      emit (EvLog INFO "api_arm_request %s result: %s" [LStr arm_name; LJson response]) ;;;
      emit (EvSleep 2) ;;;
      emit EvScheduleUpdate
    else ret tt.

Definition async_alarm_arm_away (self : TuxedoTouch) (code : code_value) : M unit :=
  _alarm_arm self "AWAY" code.
Definition async_alarm_arm_home (self : TuxedoTouch) (code : code_value) : M unit :=
  _alarm_arm self "STAY" code.
Definition async_alarm_arm_night (self : TuxedoTouch) (code : code_value) : M unit :=
  _alarm_arm self "NIGHT" code.

(** [TuxedoTouch.async_alarm_disarm(self, code)] *)
Definition async_alarm_disarm (self : TuxedoTouch) (code : code_value) : M unit :=
  let disarm_code := if code_truthy code then code else _code self in
  if code_is_None disarm_code then
    emit (EvLog WARNING "disarm code is missing" [])
  else
    response <~ _post_request self "/AdvancedSecurity/DisarmWithCode"
                  [("pID", "1");
                   ("ucode", code_str disarm_code);
                   ("operation", "set")] ;;
    if json_truthy response then
      emit (EvLog INFO "api_disarm_request result: %s" [LJson response]) ;;;
      emit (EvSleep 2) ;;;
      emit EvScheduleUpdate
    else ret tt.

End Controller.

(** ** The status table of the specification *)

(** The table of the specification's Status Interpreter: the rows matched
    exactly, then the suffix row, then the fallback. *)
Definition status_table : list (string * AlarmState) :=
  [("Armed Away", STATE_ALARM_ARMED_AWAY);
   ("Armed Instant", STATE_ALARM_ARMED_NIGHT);
   ("Armed Stay", STATE_ALARM_ARMED_HOME);
   ("Ready To Arm", STATE_ALARM_DISARMED)].

Definition interpret (raw : string) : AlarmState :=
  match find (fun row => String.eqb (fst row) raw) status_table with
  | Some row => snd row
  | None =>
      if endswith raw " Secs Remaining" then STATE_ALARM_ARMING else STATE_UNAVAILABLE
  end.

(** ** Re-parsing a URL-encoded form: [urllib.parse.parse_qsl] *)

(** [s.replace('+', ' ')] followed by [unquote]: a plus sign is a space,
    [%XX] with two hexadecimal digits is the byte XX, anything else stands
    for itself. *)
Fixpoint unquote_plus (l : list byte) : list byte :=
  match l with
  | [] => []
  | c :: rest =>
      if Byte.eqb c "+"%byte then " "%byte :: unquote_plus rest
      else if Byte.eqb c "%"%byte then
        match rest with
        | hi :: lo :: rest' =>
            match hex_digit hi, hex_digit lo with
            | Some h, Some l => byte_of_N (16 * h + l) :: unquote_plus rest'
            | _, _ => c :: unquote_plus rest
            end
        | _ => c :: unquote_plus rest
        end
      else c :: unquote_plus rest
  end.

(** [s.split(sep)] *)
Fixpoint split_on (sep : byte) (l : list byte) : list (list byte) :=
  match l with
  | [] => [[]]
  | c :: rest =>
      if Byte.eqb c sep then [] :: split_on sep rest
      else
        match split_on sep rest with
        | s :: ss => (c :: s) :: ss
        | [] => [[c]]
        end
  end.

(** [s.split(sep, 1)]: the part before the first [sep], and the part after
    it when there is one. *)
Fixpoint split_first (sep : byte) (l : list byte) : list byte * option (list byte) :=
  match l with
  | [] => ([], None)
  | c :: rest =>
      if Byte.eqb c sep then ([], Some rest)
      else let '(before, after) := split_first sep rest in (c :: before, after)
  end.

(** [parse_qsl(qs, keep_blank_values=True)] on ASCII text: the fields
    between ampersands, empty fields skipped, each split at its first
    equals sign and unquoted.  This is the re-parsing that the
    specification's round trip speaks of; the code never calls it. *)
Definition parse_qsl (qs : list byte) : list (string * string) :=
  flat_map
    (fun name_value =>
       match name_value with
       | [] => []
       | _ =>
           let '(name, value) := split_first "="%byte name_value in
           [(string_of_list_byte (unquote_plus name),
             string_of_list_byte
               (unquote_plus match value with Some v => v | None => [] end))]
       end)
    (split_on "&"%byte qs).

(** ** Notions the statements use *)

(** The lengths that [AES.new] accepts: a key of 16, 24 or 32 bytes and an
    iv of one block. *)
Definition valid_material (c : Cipher) : bool :=
  existsb (Nat.eqb (List.length (_key_bin c))) key_size &&
  Nat.eqb (List.length (_iv_bin c)) 16.

(** The iv as the chaining value [AES.new] starts from. *)
Definition iv_state (iv : list byte) : state :=
  match iv with
  | [a0; a1; a2; a3; b0; b1; b2; b3; c0; c1; c2; c3; d0; d1; d2; d3] =>
      state_of_bytes16 a0 a1 a2 a3 b0 b1 b2 b3 c0 c1 c2 c3 d0 d1 d2 d3
  | _ => state_of_bytes16 x00 x00 x00 x00 x00 x00 x00 x00 x00 x00 x00 x00 x00 x00 x00 x00
  end.

(** The stages of [decrypt_params] that come before [json.loads]:
    base64-decode, CBC-decrypt, unpad. *)
Definition decrypt_bytes (self : Cipher) (params_encrypted : json) : exc (list byte) :=
  cipher <- AES_new_CBC (_key_bin self) (_iv_bin self) ;;
  raw <- a2b_base64_arg params_encrypted ;;
  dec <- CbcMode_decrypt cipher raw ;;
  unpad (snd dec) block_size.

(** A [str] that [a2b_hex] accepts: hexadecimal digits, an even number of them. *)
Definition hex_string (s : string) : bool :=
  let l := list_byte_of_string s in
  forallb (fun b => match hex_digit b with Some _ => true | None => false end) l &&
  Nat.even (List.length l).

(** The request that [_post_request] sends for an encrypted blob. *)
Definition api_request (self : TuxedoTouch) (endpoint blob : string) : Request :=
  {| url := _url self ++ endpoint;
     headers := [("authtoken", _key self); ("identity", _iv self)];
     data := [("param", blob)];
     verify := false |}.

(** The code an arm or disarm call goes on with: [code if code else self._code]. *)
Definition resolved_code (self : TuxedoTouch) (code : code_value) : code_value :=
  if code_truthy code then code else _code self.

(** The parameters of an arm request and of a disarm request. *)
Definition arm_params (arm_name : string) (ucode : code_value) : list (string * string) :=
  [("arming", arm_name); ("pID", "1"); ("ucode", code_str ucode); ("operation", "set")].

Definition disarm_params (ucode : code_value) : list (string * string) :=
  [("pID", "1"); ("ucode", code_str ucode); ("operation", "set")].

(** The same entity with another configured code. *)
Definition with_code (self : TuxedoTouch) (code : code_value) : TuxedoTouch :=
  {| _attr_name := _attr_name self;
     _attr_unique_id := _attr_unique_id self;
     _attr_supported_features := _attr_supported_features self;
     _attr_code_arm_required := _attr_code_arm_required self;
     _attr_code_format := _attr_code_format self;
     _url := _url self;
     _key := _key self;
     _iv := _iv self;
     _code := code;
     _cipher := _cipher self;
     _attr_state := _attr_state self |}.

(** Text with neither an ampersand nor an equals sign in it. *)
Definition no_separator (l : list byte) : Prop :=
  Forall (fun c => Byte.eqb c "&"%byte = false /\ Byte.eqb c "="%byte = false) l.

(** ** Definitions for the proofs by computation *)

(** Equality of words, as a boolean. *)
Definition word_eqb (u v : word) : bool :=
  let '(a, b, c, d) := u in
  let '(a', b', c', d') := v in
  Byte.eqb a a' && Byte.eqb b b' && Byte.eqb c c' && Byte.eqb d d'.

(** What the decoder needs of an alphabet character: it is ASCII, it is
    not the pad, and the table maps it back to its index. *)
Definition b64_char_ok (i : N) : bool :=
  let ch := table_b2a_base64 i in
  is_ascii ch && negb (Byte.eqb ch "="%byte) &&
  match table_a2b_base64 ch with
  | Some j => N.eqb j i
  | None => false
  end.

(** The four alphabet indices of a group of three bytes. *)
Definition idx0 (a : byte) : N := N.shiftr (Byte.to_N a) 2.
Definition idx1 (a b : byte) : N :=
  N.lor (N.shiftl (N.land (Byte.to_N a) 3) 4) (N.shiftr (Byte.to_N b) 4).
Definition idx2 (b c : byte) : N :=
  N.lor (N.shiftl (N.land (Byte.to_N b) 15) 2) (N.shiftr (Byte.to_N c) 6).
Definition idx3 (c : byte) : N := N.land (Byte.to_N c) 63.

(** ** Test data *)

(** A string with every apostrophe turned into a double quote, to write
    JSON documents. *)
Definition dq (s : string) : list byte :=
  map (fun b => if Byte.eqb b "'"%byte then x22 else b) (list_byte_of_string s).

(** Bytes and a block written in hexadecimal. *)
Definition unhex (s : string) : list byte :=
  match a2b_hex s with
  | Ok l => l
  | Raise _ => []
  end.
Definition block_of_hex (s : string) : state := iv_state (unhex s).

(** A key of 32 bytes and an iv of 16, in hexadecimal. *)
Definition test_key : string :=
  "000102030405060708090a0b0c0d0e0f101112131415161718191a1b1c1d1e1f".
Definition test_iv : string := "0f0e0d0c0b0a09080706050403020100".

Definition test_cipher : Cipher :=
  match Cipher__init__ test_key test_iv with
  | Ok c => c
  | Raise _ => mkCipher [] []
  end.

(** Whole blocks as the panel would send them: encrypted under the shared
    key and iv, base64 text. *)
Definition panel_encrypt_raw (c : Cipher) (blocks : list byte) : exc string :=
  cipher <- AES_new_CBC (_key_bin c) (_iv_bin c) ;;
  enc <- CbcMode_encrypt cipher blocks ;;
  Ok (string_of_list_byte (b2a_base64 (snd enc))).

(** A document as the panel sends it: padded, then encrypted. *)
Definition panel_encrypt (c : Cipher) (document : list byte) : exc string :=
  panel_encrypt_raw c (pad document 16).

(** A block whose last two bytes, 02 and 03, are no PKCS#7 padding. *)
Definition corrupted_block : list byte := dq "{'Status':'x'}" ++ [x02; x03].

(** The blob of that block under the test key. *)
Definition corrupted_blob : string :=
  match panel_encrypt_raw test_cipher corrupted_block with
  | Ok blob => blob
  | Raise _ => ""
  end.

(** A panel entity with 1234 as its configured code. *)
Definition test_panel : TuxedoTouch :=
  match TuxedoTouch__init__ "192.168.1.10" "Tuxedo" test_key test_iv (CInt 1234) with
  | Ok p => p
  | Raise _ =>
      mkTuxedoTouch "" "" 0 true None "" "" "" CNone (mkCipher [] []) None
  end.

(** A panel that answers every request with the given status code and, in
    the [Result] field of its JSON body, the encrypted document. *)
Definition panel_answers (status : Z) (document : list byte) (r : Request) : exc Response :=
  Ok {| status_code := status;
        response_json :=
          blob <- panel_encrypt test_cipher document ;;
          Ok (JObj [("Result", JStr blob)]) |}.

(** A panel that cannot be reached. *)
Definition panel_unreachable (r : Request) : exc Response :=
  Raise (ConnectionError "Connection refused").
(** ** Counting the requests of a trace *)

Definition is_post (ev : event) : bool :=
  match ev with
  | EvPost _ => true
  | _ => false
  end.

(** How many times [requests.post] was called. *)
Definition count_posts (trace : list event) : nat :=
  List.length (filter is_post trace).

(** A panel that answers every request with the given status code and
    JSON body. *)
Definition panel_answers_json (status : Z) (body : exc json) (r : Request) : exc Response :=
  Ok {| status_code := status; response_json := body |}.

(** What the panel reads in a request: the [param] field decrypted and
    re-parsed as a form. *)
Definition panel_reads (c : Cipher) (request : Request) : exc (list (string * string)) :=
  match data request with
  | [(_, blob)] =>
      form <- decrypt_bytes c (JStr blob) ;;
      Ok (parse_qsl form)
  | _ => Raise (KeyError "param")
  end.
(** ** Text by characters *)

(** A [str] is kept as its UTF-8 encoding; [len] and slices count
    characters.  A byte [10xxxxxx] continues the character before it. *)
Definition is_continuation (b : byte) : bool :=
  N.eqb (N.land (Byte.to_N b) 192) 128.

Fixpoint skip_continuation (l : list byte) : list byte :=
  match l with
  | b :: rest => if is_continuation b then skip_continuation rest else l
  | [] => []
  end.

(** The bytes of [s[n:]]. *)
Fixpoint skip_chars (n : nat) (l : list byte) : list byte :=
  match n with
  | O => l
  | S n' =>
      match l with
      | [] => []
      | _ :: rest => skip_chars n' (skip_continuation rest)
      end
  end.

(** [s[n:]] *)
Definition str_from (n : nat) (s : string) : string :=
  string_of_list_byte (skip_chars n (list_byte_of_string s)).

(** [s[:n]] *)
Definition str_upto (n : nat) (s : string) : string :=
  let l := list_byte_of_string s in
  string_of_list_byte (firstn (List.length l - List.length (skip_chars n l)) l).

(** The number of characters in a sequence of bytes. *)
Definition count_chars (l : list byte) : nat :=
  List.length (filter (fun b => negb (is_continuation b)) l).

(** [len(s)] *)
Definition str_len (s : string) : nat := count_chars (list_byte_of_string s).

(** ** Python dictionaries with [str] keys *)

(** A dictionary in insertion order; a key occurs once. *)
Definition pydict (V : Type) : Type := list (string * V).

(** The value under [k], if any. *)
Fixpoint pydict_lookup {V} (d : pydict V) (k : string) : option V :=
  match d with
  | [] => None
  | (k', v) :: rest => if String.eqb k' k then Some v else pydict_lookup rest k
  end.

(** [d[k]] *)
Definition pydict_getitem {V} (d : pydict V) (k : string) : exc V :=
  match pydict_lookup d k with
  | Some v => Ok v
  | None => Raise (KeyError k)
  end.

(** [d[k] = v] *)
Fixpoint pydict_setitem {V} (d : pydict V) (k : string) (v : V) : pydict V :=
  match d with
  | [] => [(k, v)]
  | (k', v') :: rest =>
      if String.eqb k' k then (k', v) :: rest else (k', v') :: pydict_setitem rest k v
  end.

(** ** The configuration flow ([config_flow.py]) *)

(** The keys of [homeassistant.const]. *)
Definition CONF_CODE : string := "code".
Definition CONF_IP_ADDRESS : string := "ip_address".
Definition CONF_NAME : string := "name".

(** A value of the form or of the entry data: [None], text or an integer. *)
Definition form_value : Type := code_value.

(** [d.get(k)] on a dictionary of such values. *)
Definition pydict_get (d : pydict form_value) (k : string) : form_value :=
  match pydict_lookup d k with
  | Some v => v
  | None => CNone
  end.

(** The schema of the form, as data: each key with its marker and its
    validator. *)
Inductive marker : Type := Required | Optional.
Inductive validator : Type := cv_string | cv_positive_int.

Definition STEP_USER_DATA_SCHEMA : list (marker * string * validator) :=
  [(Required, CONF_IP_ADDRESS, cv_string);
   (Optional, CONF_NAME, cv_string);
   (Optional, CONF_CODE, cv_positive_int)].

(** The exceptions of the flow: its four classes, and the built-in ones. *)
Inductive flow_exn : Type :=
| CannotConnect
| CannotObtainkey
| InvalidAddress
| InvalidCode
| Builtin (e : exn).

Inductive outcome (A : Type) : Type :=
| Returns (a : A)
| Raises (e : flow_exn).
Arguments Returns {A} a.
Arguments Raises {A} e.

(** What the flow does besides returning. *)
Inductive flow_event : Type :=
| FlGet (target : string)                                 (* requests.get is called *)
| FlLog (lvl : level) (fmt : string) (args : list logarg). (* _LOGGER.warning etc. *)

Definition F (A : Type) : Type := (outcome A * list flow_event)%type.

Definition fret {A} (a : A) : F A := (Returns a, []).
Definition fraise {A} (e : flow_exn) : F A := (Raises e, []).
Definition femit (ev : flow_event) : F unit := (Returns tt, [ev]).

(** A call that raises built-in exceptions only. *)
Definition flift {A} (x : exc A) : F A :=
  match x with
  | Ok a => (Returns a, [])
  | Raise e => (Raises (Builtin e), [])
  end.

Definition fbind {A B} (m : F A) (k : A -> F B) : F B :=
  match m with
  | (Returns a, t) => let '(r, t') := k a in (r, t ++ t')
  | (Raises e, t) => (Raises e, t)
  end.

Notation "x <-- m ;; k" := (fbind m (fun x => k))
  (at level 61, m at next level, right associativity).
Notation "m -;; k" := (fbind m (fun _ => k))
  (at level 61, right associativity).

(** [try: m except ...: raise handler(e)]: every exception of the body is
    replaced by what the handlers raise for it. *)
Definition fexcept {A} (m : F A) (handler : flow_exn -> flow_exn) : F A :=
  match m with
  | (Returns a, t) => (Returns a, t)
  | (Raises e, t) => (Raises (handler e), t)
  end.

(** [try: m except ...: on_exn(e) else: on_ok(a)] *)
Definition ftry {A B} (m : F A) (on_ok : A -> F B) (on_exn : flow_exn -> F B) : F B :=
  match m with
  | (Returns a, t) => let '(r, t') := on_ok a in (r, t ++ t')
  | (Raises e, t) => let '(r, t') := on_exn e in (r, t ++ t')
  end.

(** The answer to a GET as the code reads it. *)
Record HttpPage : Type := mkHttpPage {
  page_status_code : Z;
  page_text : string
}.

(** A tag of the parsed page: its attributes. *)
Definition Tag : Type := pydict string.

(** [found[key]] for what [soup.find] returned: a tag, or [None]. *)
Definition tag_getitem (found : option Tag) (key : string) : exc string :=
  match found with
  | Some attrs => pydict_getitem attrs key
  | None => Raise (TypeError "'NoneType' object is not subscriptable")
  end.

(** What the step returns to Home Assistant: [self.async_show_form(...)]
    or [self.async_create_entry(...)]. *)
Inductive FlowResult : Type :=
| async_show_form (step_id : string) (data_schema : list (marker * string * validator))
    (errors : option (pydict string))
| async_create_entry (title : form_value) (data : pydict form_value).

Section ConfigFlow.

(** The libraries are parameters.  [requests_get] is [requests.get]: a
    page or an exception, [ConnectionError] standing for that of
    [requests.exceptions].  [soup_find markup name] is
    [BeautifulSoup(markup, "lxml").find(name)].  [ip_address_valid] tells
    whether [ipaddress.ip_address] returns (it raises [ValueError]
    otherwise), [int_valid] whether [int] returns on a text. *)
Variable requests_get : string -> exc HttpPage.
Variable soup_find : string -> string -> exc (option Tag).
Variable ip_address_valid : form_value -> bool.
Variable int_valid : string -> bool.

(** [_obtain_key(ip_address)] *)
Definition _obtain_key (ip_address : form_value) : F (string * string) :=
  fexcept
    (let target := ("http://" ++ code_str ip_address ++ "/TuxedoAPI")%string in
     femit (FlGet target) -;;
     readit <-- flift (requests_get target) ;;
     if negb (Z.eqb (page_status_code readit) 200) then
       femit (FlLog WARNING "request to obtain key returned code {readit.status_code}"
                [LInt (page_status_code readit)]) -;;
       fraise CannotConnect
     else
       found <-- flift (soup_find (page_text readit) "input") ;;
       value <-- flift (tag_getitem found "value") ;;
       fret (str_upto 64 value, str_from 64 value))
    (fun e =>
       match e with
       | Builtin (ConnectionError _) => CannotConnect
       | Builtin (TypeError _) => CannotObtainkey
       | Builtin (KeyError _) => CannotObtainkey
       | _ => e
       end).

(** [int(code)] for a code that is not [None]: does it return? *)
Definition int_returns (code : form_value) : bool :=
  match code with
  | CStr s => int_valid s
  | _ => true
  end.

(** [validate_input(hass, data)] *)
Definition validate_input (data : pydict form_value) : F (pydict form_value) :=
  ip_address <-- flift (pydict_getitem data CONF_IP_ADDRESS) ;;
  (if ip_address_valid ip_address then fret tt else fraise InvalidAddress) -;;
  let code := pydict_get data CONF_CODE in
  (if code_is_None code then fret tt
   else
     (if int_returns code then fret tt else fraise InvalidCode) -;;
     if negb (Nat.eqb (str_len (code_str code)) 4) then fraise InvalidCode
     else fret tt) -;;
  title <-- (if code_truthy (pydict_get data CONF_NAME)
             then flift (pydict_getitem data CONF_NAME)
             else fret (CStr "Tuxedo Touch Controller")) ;;
  key_iv <-- _obtain_key ip_address ;;
  let '(secret_key, initial_value) := key_iv in
  fret [("ip_address", ip_address);
        ("title", title);
        ("secret_key", CStr secret_key);
        ("initial_value", CStr initial_value);
        ("code", code)].

(** [ConfigFlow.async_step_user(self, user_input)] *)
Definition async_step_user (user_input : option (pydict form_value)) : F FlowResult :=
  match user_input with
  | None => fret (async_show_form "user" STEP_USER_DATA_SCHEMA None)
  | Some user_input =>
      ftry (validate_input user_input)
        (fun info =>
           ip_address <-- flift (pydict_getitem info "ip_address") ;;
           let user_input := pydict_setitem user_input "ip_address" ip_address in
           secret_key <-- flift (pydict_getitem info "secret_key") ;;
           let user_input := pydict_setitem user_input "secret_key" secret_key in
           initial_value <-- flift (pydict_getitem info "initial_value") ;;
           let user_input := pydict_setitem user_input "initial_value" initial_value in
           title <-- flift (pydict_getitem info "title") ;;
           fret (async_create_entry title user_input))
        (fun e =>
           errors <-- match e with
                      | CannotConnect => fret [("base", "cannot_connect")]
                      | CannotObtainkey => fret [("base", "cannot_obtain_key")]
                      | InvalidAddress => fret [("base", "invalid_address")]
                      | InvalidCode => fret [("base", "invalid_code")]
                      | Builtin _ =>
                          femit (FlLog ERROR "Unexpected exception" []) -;;
                          fret [("base", "unknown")]
                      end ;;
           fret (async_show_form "user" STEP_USER_DATA_SCHEMA (Some errors)))
  end.

End ConfigFlow.

(** ** Setting up the entity ([async_setup_entry]) *)

(** A configuration entry: its title and its data. *)
Record ConfigEntry : Type := mkConfigEntry {
  entry_title : string;
  entry_data : pydict form_value
}.

(** [a2b_hex] on a value of any type: only a [str] is text. *)
Definition a2b_hex_arg (v : form_value) : exc (list byte) :=
  match v with
  | CStr s => a2b_hex s
  | _ => Raise (TypeError "argument should be bytes, buffer or ASCII string")
  end.

(** [TuxedoTouch(ip_address, name, secret_key, initial_value, code)] on
    values as the entry data holds them: the address is formatted into the
    url, key and iv go to [a2b_hex], which raises on what is not text. *)
Definition TuxedoTouch_call (ip_address : form_value) (name : string)
  (secret_key initial_value code : form_value) : exc TuxedoTouch :=
  match secret_key, initial_value with
  | CStr key, CStr iv => TuxedoTouch__init__ (code_str ip_address) name key iv code
  | _, _ =>
      _ <- a2b_hex_arg secret_key ;;
      _ <- a2b_hex_arg initial_value ;;
      Raise (TypeError "argument should be bytes, buffer or ASCII string")
  end.

(** [async_setup_entry(hass, entry, async_add_entities)]: the entities
    handed to [async_add_entities] and its [update_before_add]. *)
Definition async_setup_entry (entry : ConfigEntry) : exc (list TuxedoTouch * bool) :=
  ip_address <- pydict_getitem (entry_data entry) "ip_address" ;;
  secret_key <- pydict_getitem (entry_data entry) "secret_key" ;;
  initial_value <- pydict_getitem (entry_data entry) "initial_value" ;;
  let code := pydict_get (entry_data entry) "code" in
  entity <- TuxedoTouch_call ip_address (entry_title entry) secret_key initial_value code ;;
  Ok ([entity], true).

(** ** Notions the statements about the flow use *)

(** The address that [_obtain_key] asks. *)
Definition obtain_key_target (ip_address : form_value) : string :=
  "http://" ++ code_str ip_address ++ "/TuxedoAPI".

(** What the [except] clauses of [_obtain_key] raise for an exception. *)
Definition obtain_key_handler (e : flow_exn) : flow_exn :=
  match e with
  | Builtin (ConnectionError _) => CannotConnect
  | Builtin (TypeError _) => CannotObtainkey
  | Builtin (KeyError _) => CannotObtainkey
  | _ => e
  end.

(** The checks of [validate_input] on the code: no code, or one that
    [int] takes and whose [str] has four characters. *)
Definition code_accepted (int_valid : string -> bool) (code : form_value) : bool :=
  code_is_None code ||
  (match code with CStr s => int_valid s | _ => true end &&
   Nat.eqb (str_len (code_str code)) 4).

(** The title that [validate_input] chooses. *)
Definition title_for (data : pydict form_value) : form_value :=
  if code_truthy (pydict_get data CONF_NAME) then pydict_get data CONF_NAME
  else CStr "Tuxedo Touch Controller".

(** The key of [errors["base"]] that [async_step_user] shows for an
    exception of [validate_input]. *)
Definition error_key (e : flow_exn) : string :=
  match e with
  | CannotConnect => "cannot_connect"
  | CannotObtainkey => "cannot_obtain_key"
  | InvalidAddress => "invalid_address"
  | InvalidCode => "invalid_code"
  | Builtin _ => "unknown"
  end.

(** The user input after the three assignments of [async_step_user]. *)
Definition entry_data_for (user_input : pydict form_value) (ip_address : form_value)
  (secret_key initial_value : string) : pydict form_value :=
  pydict_setitem
    (pydict_setitem (pydict_setitem user_input "ip_address" ip_address)
       "secret_key" (CStr secret_key))
    "initial_value" (CStr initial_value).

Definition is_get (ev : flow_event) : bool :=
  match ev with
  | FlGet _ => true
  | _ => false
  end.

(** How many times [requests.get] was called. *)
Definition count_gets (trace : list flow_event) : nat :=
  List.length (filter is_get trace).

(** ** Test data for the flow *)

(** A panel whose key page is answered with the given status and text. *)
Definition page_answers (status : Z) (text : string) (target : string) : exc HttpPage :=
  Ok (mkHttpPage status text).

(** A parser that finds the given tag, or none, whatever the page. *)
Definition soup_finds (found : option Tag) (markup name : string) : exc (option Tag) :=
  Ok found.

(** Stand-ins for [ipaddress.ip_address] and [int]: the first takes texts
    of ASCII digits and dots, the second non-empty texts of ASCII digits. *)
Definition digits_and_dots (v : form_value) : bool :=
  match v with
  | CStr s =>
      forallb (fun b => is_digit b || Byte.eqb b "."%byte) (list_byte_of_string s)
  | _ => false
  end.

Definition ascii_digits (s : string) : bool :=
  negb (String.eqb s "") && forallb is_digit (list_byte_of_string s).

(** The input tag of a key page: the key and the iv of the test data. *)
Definition test_tag : Tag := [("type", "hidden"); ("value", (test_key ++ test_iv)%string)].

(** What the user enters: an address, a name and a code. *)
Definition test_input : pydict form_value :=
  [("ip_address", CStr "192.168.1.10"); ("name", CStr "Tuxedo"); ("code", CInt 1234)].

(* ================================================================== *)
(** * Part II: properties of the library models                        *)
(* ================================================================== *)

(** ** Facts about bytes *)

Lemma to_N_byte_of_N (n : N) : (n < 256)%N -> Byte.to_N (byte_of_N n) = n.
Proof.
  intros Hn. unfold byte_of_N. rewrite N.mod_small by exact Hn.
  destruct (Byte.of_N n) as [b|] eqn:E.
  - now apply Byte.to_of_N.
  - apply Byte.of_N_None_iff in E. lia.
Qed.

Lemma byte_of_N_to_N (b : byte) : byte_of_N (Byte.to_N b) = b.
Proof.
  unfold byte_of_N. pose proof (Byte.to_N_bounded b) as Hb.
  rewrite N.mod_small by lia. now rewrite Byte.of_to_N.
Qed.

Lemma to_N_inj (a b : byte) : Byte.to_N a = Byte.to_N b -> a = b.
Proof.
  intros H. rewrite <- (byte_of_N_to_N a), <- (byte_of_N_to_N b). now rewrite H.
Qed.

Lemma In_all_bytes (b : byte) : In b all_bytes.
Proof.
  unfold all_bytes. apply in_map_iff. exists (Byte.to_nat b). split.
  - rewrite <- Byte.to_N_via_nat. apply byte_of_N_to_N.
  - apply in_seq. pose proof (Byte.to_nat_bounded b). lia.
Qed.

(** A property checked on the 256 bytes holds of every byte. *)
Lemma byte_forall (P : byte -> bool) :
  forallb P all_bytes = true -> forall b, P b = true.
Proof.
  intros H b. rewrite forallb_forall in H. apply H, In_all_bytes.
Qed.

Lemma byte_forall2 (P : byte -> byte -> bool) :
  forallb (fun a => forallb (P a) all_bytes) all_bytes = true ->
  forall a b, P a b = true.
Proof.
  intros H a. apply byte_forall. revert a. apply (byte_forall _ H).
Qed.

Ltac by_bytes :=
  intros;
  match goal with
  | |- @eq byte ?x ?y => apply Byte.byte_dec_bl
  | |- _ => idtac
  end;
  match goal with
  | a : byte, b : byte |- _ = true =>
      revert a b; apply byte_forall2; vm_compute; reflexivity
  | a : byte |- _ = true =>
      revert a; apply byte_forall; vm_compute; reflexivity
  end.

Lemma lxor_byte_bound (a b : byte) :
  N.ltb (N.lxor (Byte.to_N a) (Byte.to_N b)) 256 = true.
Proof. by_bytes. Qed.

Lemma to_N_bxor (a b : byte) :
  Byte.to_N (bxor a b) = N.lxor (Byte.to_N a) (Byte.to_N b).
Proof.
  unfold bxor. apply to_N_byte_of_N. apply N.ltb_lt, lxor_byte_bound.
Qed.

(** Equations between xor-expressions over bytes, bit by bit. *)
Ltac bxor_ring :=
  apply to_N_inj; rewrite ?to_N_bxor; cbn [Byte.to_N];
  apply N.bits_inj; intro; rewrite ?N.lxor_spec, ?N.bits_0; btauto.

Lemma bxor_cancel (a k : byte) : bxor (bxor a k) k = a.
Proof. bxor_ring. Qed.

(** ** AES: every step of the cipher is undone by its inverse *)

Lemma inv_sbox_sbox (b : byte) : inv_sbox (sbox b) = b.
Proof. by_bytes. Qed.

Lemma inv_sub_bytes_sub_bytes (s : state) : inv_sub_bytes (sub_bytes s) = s.
Proof.
  destruct s as [[[[[[a0 a1] a2] a3] [[[b0 b1] b2] b3]] [[[c0 c1] c2] c3]] [[[d0 d1] d2] d3]].
  unfold inv_sub_bytes, sub_bytes, map_state, inv_sub_word, sub_word.
  now rewrite !inv_sbox_sbox.
Qed.

Lemma inv_shift_rows_shift_rows (s : state) : inv_shift_rows (shift_rows s) = s.
Proof.
  destruct s as [[[[[[a0 a1] a2] a3] [[[b0 b1] b2] b3]] [[[c0 c1] c2] c3]] [[[d0 d1] d2] d3]].
  reflexivity.
Qed.

Lemma word_ext (a b c d a' b' c' d' : byte) :
  a = a' -> b = b' -> c = c' -> d = d' -> (a, b, c, d) = (a', b', c', d').
Proof. now intros -> -> -> ->. Qed.

Lemma xor_word_cancel (w k : word) : xor_word (xor_word w k) k = w.
Proof.
  destruct w as [[[a b] c] d], k as [[[a' b'] c'] d'].
  unfold xor_word. now rewrite !bxor_cancel.
Qed.

Lemma add_round_key_cancel (k s : state) : add_round_key k (add_round_key k s) = s.
Proof.
  destruct s as [[[s0 s1] s2] s3], k as [[[k0 k1] k2] k3].
  unfold add_round_key. now rewrite !xor_word_cancel.
Qed.

Lemma xtime_xor (a b : byte) : xtime (bxor a b) = bxor (xtime a) (xtime b).
Proof. by_bytes. Qed.

Lemma gf_mul_bits_xor (fuel : nat) (k : N) (a b : byte) :
  gf_mul_bits fuel (bxor a b) k = bxor (gf_mul_bits fuel a k) (gf_mul_bits fuel b k).
Proof.
  revert k a b. induction fuel as [|fuel IH]; intros k a b; cbn [gf_mul_bits].
  - bxor_ring.
  - rewrite xtime_xor, IH. destruct (N.odd k); bxor_ring.
Qed.

(** Multiplication by a constant of the field is linear over xor. *)
Lemma gf_mul_xor (k : N) (a b : byte) :
  gf_mul k (bxor a b) = bxor (gf_mul k a) (gf_mul k b).
Proof. apply gf_mul_bits_xor. Qed.

Lemma mix_column_xor (u v : word) :
  mix_column (xor_word u v) = xor_word (mix_column u) (mix_column v).
Proof.
  destruct u as [[[a b] c] d], v as [[[a' b'] c'] d'].
  unfold mix_column, xor_word, bxor4.
  rewrite !gf_mul_xor.
  apply word_ext; bxor_ring.
Qed.

Lemma inv_mix_column_xor (u v : word) :
  inv_mix_column (xor_word u v) = xor_word (inv_mix_column u) (inv_mix_column v).
Proof.
  destruct u as [[[a b] c] d], v as [[[a' b'] c'] d'].
  unfold inv_mix_column, xor_word, bxor4.
  rewrite !gf_mul_xor.
  apply word_ext; bxor_ring.
Qed.

Lemma word_eqb_eq (u v : word) : word_eqb u v = true -> u = v.
Proof.
  destruct u as [[[a b] c] d], v as [[[a' b'] c'] d']. unfold word_eqb.
  rewrite !andb_true_iff. intros [[[Ha Hb] Hc] Hd].
  apply Byte.byte_dec_bl in Ha, Hb, Hc, Hd. now subst.
Qed.

Lemma inv_mix_unit (a : byte) :
  inv_mix_column (mix_column (a, x00, x00, x00)) = (a, x00, x00, x00) /\
  inv_mix_column (mix_column (x00, a, x00, x00)) = (x00, a, x00, x00) /\
  inv_mix_column (mix_column (x00, x00, a, x00)) = (x00, x00, a, x00) /\
  inv_mix_column (mix_column (x00, x00, x00, a)) = (x00, x00, x00, a).
Proof.
  repeat split; apply word_eqb_eq; revert a; apply byte_forall; vm_compute; reflexivity.
Qed.

Lemma inv_mix_column_mix_column (w : word) : inv_mix_column (mix_column w) = w.
Proof.
  destruct w as [[[a b] c] d].
  assert (E : (a, b, c, d) =
              xor_word (a, x00, x00, x00)
                (xor_word (x00, b, x00, x00)
                   (xor_word (x00, x00, c, x00) (x00, x00, x00, d)))).
  { unfold xor_word. apply word_ext; bxor_ring. }
  rewrite E at 1. rewrite !mix_column_xor, !inv_mix_column_xor.
  destruct (inv_mix_unit a) as (-> & _), (inv_mix_unit b) as (_ & -> & _),
           (inv_mix_unit c) as (_ & _ & -> & _), (inv_mix_unit d) as (_ & _ & _ & ->).
  now rewrite <- E.
Qed.

Lemma inv_mix_columns_mix_columns (s : state) : inv_mix_columns (mix_columns s) = s.
Proof.
  destruct s as [[[c0 c1] c2] c3]. unfold inv_mix_columns, mix_columns, map_state.
  now rewrite !inv_mix_column_mix_column.
Qed.

Lemma dec_rounds_enc_rounds (ks : list state) (s : state) :
  dec_rounds ks (enc_rounds ks s) = s.
Proof.
  revert s. induction ks as [|k ks IH]; intros s; [reflexivity|].
  destruct ks as [|k' ks].
  - cbn [enc_rounds dec_rounds].
    now rewrite add_round_key_cancel, inv_shift_rows_shift_rows, inv_sub_bytes_sub_bytes.
  - change (enc_rounds (k :: k' :: ks) s)
      with (enc_rounds (k' :: ks) (add_round_key k (mix_columns (shift_rows (sub_bytes s))))).
    change (dec_rounds (k :: k' :: ks) ?c)
      with (inv_sub_bytes (inv_shift_rows (inv_mix_columns
              (add_round_key k (dec_rounds (k' :: ks) c))))).
    rewrite IH, add_round_key_cancel, inv_mix_columns_mix_columns.
    now rewrite inv_shift_rows_shift_rows, inv_sub_bytes_sub_bytes.
Qed.

(** InvCipher undoes Cipher, under any list of round keys. *)
Lemma aes_decrypt_encrypt_block (ks : list state) (s : state) :
  aes_decrypt_block ks (aes_encrypt_block ks s) = s.
Proof.
  destruct ks as [|k0 ks]; [reflexivity|].
  unfold aes_decrypt_block, aes_encrypt_block.
  now rewrite dec_rounds_enc_rounds, add_round_key_cancel.
Qed.

(** The example vectors of FIPS-197, appendix C, for the three key sizes. *)
Example fips197_aes128 :
  bytes_of_state
    (aes_encrypt_block (key_schedule (unhex "000102030405060708090a0b0c0d0e0f"))
       (block_of_hex "00112233445566778899aabbccddeeff"))
  = unhex "69c4e0d86a7b0430d8cdb78070b4c55a".
Proof. vm_compute. reflexivity. Qed.

Example fips197_aes192 :
  bytes_of_state
    (aes_encrypt_block
       (key_schedule (unhex "000102030405060708090a0b0c0d0e0f1011121314151617"))
       (block_of_hex "00112233445566778899aabbccddeeff"))
  = unhex "dda97ca4864cdfe06eaf70a0ec0d7191".
Proof. vm_compute. reflexivity. Qed.

Example fips197_aes256 :
  bytes_of_state
    (aes_encrypt_block
       (key_schedule
          (unhex "000102030405060708090a0b0c0d0e0f101112131415161718191a1b1c1d1e1f"))
       (block_of_hex "00112233445566778899aabbccddeeff"))
  = unhex "8ea2b7ca516745bfeafc49904b496089" /\
  bytes_of_state
    (aes_decrypt_block
       (key_schedule
          (unhex "000102030405060708090a0b0c0d0e0f101112131415161718191a1b1c1d1e1f"))
       (block_of_hex "8ea2b7ca516745bfeafc49904b496089"))
  = unhex "00112233445566778899aabbccddeeff".
Proof. split; vm_compute; reflexivity. Qed.

(** ** CBC mode: decryption undoes encryption *)

Lemma length_bytes_of_state (s : state) : List.length (bytes_of_state s) = 16%nat.
Proof.
  destruct s as [[[[[[a0 a1] a2] a3] [[[b0 b1] b2] b3]] [[[c0 c1] c2] c3]] [[[d0 d1] d2] d3]].
  reflexivity.
Qed.

(** Lists of bytes, block by block: empty, shorter than a block, or a
    block followed by a list. *)
Lemma blocks_ind (P : list byte -> Prop) :
  P [] ->
  (forall l, (0 < List.length l < 16)%nat -> P l) ->
  (forall (s : state) (rest : list byte), P rest -> P (bytes_of_state s ++ rest)) ->
  forall l, P l.
Proof.
  intros Hnil Hshort Hblock l.
  remember (List.length l) as n eqn:Hn. revert l Hn.
  induction n as [n IH] using lt_wf_ind. intros l Hn.
  destruct (Nat.eq_dec n 0) as [->|Hn0].
  { destruct l; [exact Hnil | discriminate]. }
  destruct (Nat.lt_ge_cases n 16) as [Hlt|Hge].
  { apply Hshort. lia. }
  subst n.
  do 16 (destruct l as [|? l]; [cbn in Hge; lia|]).
  match goal with
  | |- P (?a0 :: ?a1 :: ?a2 :: ?a3 :: ?b0 :: ?b1 :: ?b2 :: ?b3
          :: ?c0 :: ?c1 :: ?c2 :: ?c3 :: ?d0 :: ?d1 :: ?d2 :: ?d3 :: l) =>
      change (P (bytes_of_state
                   (state_of_bytes16 a0 a1 a2 a3 b0 b1 b2 b3 c0 c1 c2 c3 d0 d1 d2 d3) ++ l))
  end.
  apply Hblock. apply (IH (List.length l)); [cbn; lia | reflexivity].
Qed.

Lemma cbc_encrypt_blocks_short ks prev l :
  (0 < List.length l < 16)%nat -> cbc_encrypt_blocks ks prev l = None.
Proof.
  intros H. do 16 (destruct l as [|? l]; [cbn in H; try lia; reflexivity|]).
  cbn in H. lia.
Qed.

Lemma cbc_decrypt_blocks_short ks prev l :
  (0 < List.length l < 16)%nat -> cbc_decrypt_blocks ks prev l = None.
Proof.
  intros H. do 16 (destruct l as [|? l]; [cbn in H; try lia; reflexivity|]).
  cbn in H. lia.
Qed.

Lemma cbc_encrypt_blocks_block ks prev (p : state) rest :
  cbc_encrypt_blocks ks prev (bytes_of_state p ++ rest) =
  let c := aes_encrypt_block ks (xor_state p prev) in
  match cbc_encrypt_blocks ks c rest with
  | Some (final, out) => Some (final, bytes_of_state c ++ out)
  | None => None
  end.
Proof.
  destruct p as [[[[[[a0 a1] a2] a3] [[[b0 b1] b2] b3]] [[[c0 c1] c2] c3]] [[[d0 d1] d2] d3]].
  reflexivity.
Qed.

Lemma cbc_decrypt_blocks_block ks prev (c : state) rest :
  cbc_decrypt_blocks ks prev (bytes_of_state c ++ rest) =
  match cbc_decrypt_blocks ks c rest with
  | Some (final, out) =>
      Some (final, bytes_of_state (xor_state (aes_decrypt_block ks c) prev) ++ out)
  | None => None
  end.
Proof.
  destruct c as [[[[[[a0 a1] a2] a3] [[[b0 b1] b2] b3]] [[[c0 c1] c2] c3]] [[[d0 d1] d2] d3]].
  reflexivity.
Qed.

Lemma xor_state_cancel (p prev : state) : xor_state (xor_state p prev) prev = p.
Proof. unfold xor_state. apply add_round_key_cancel. Qed.

(** Data of whole blocks encrypts. *)
Lemma cbc_encrypt_blocks_aligned ks data :
  (List.length data mod 16 = 0)%nat ->
  forall prev, exists final out, cbc_encrypt_blocks ks prev data = Some (final, out).
Proof.
  induction data as [|l Hl|p rest IH] using blocks_ind; intros Hlen prev.
  - now exists prev, [].
  - rewrite Nat.mod_small in Hlen by lia. lia.
  - rewrite cbc_encrypt_blocks_block. cbv zeta.
    rewrite length_app, length_bytes_of_state in Hlen.
    replace (16 + List.length rest)%nat with (List.length rest + 1 * 16)%nat in Hlen by lia.
    rewrite Nat.Div0.mod_add in Hlen.
    destruct (IH Hlen (aes_encrypt_block ks (xor_state p prev))) as (final & out & ->).
    eauto.
Qed.

(** Decrypting from the same chaining value gives the data back. *)
Lemma cbc_decrypt_encrypt_blocks ks data :
  forall prev final out,
    cbc_encrypt_blocks ks prev data = Some (final, out) ->
    cbc_decrypt_blocks ks prev out = Some (final, data).
Proof.
  induction data as [|l Hl|p rest IH] using blocks_ind; intros prev final out H.
  - cbn in H. now inversion H.
  - now rewrite cbc_encrypt_blocks_short in H.
  - rewrite cbc_encrypt_blocks_block in H. cbv zeta in H.
    destruct (cbc_encrypt_blocks ks _ rest) as [[final' out']|] eqn:E; [|discriminate].
    inversion H; subst. rewrite cbc_decrypt_blocks_block.
    rewrite (IH _ _ _ E). now rewrite aes_decrypt_encrypt_block, xor_state_cancel.
Qed.

(** Ciphertext is as long as the data. *)
Lemma cbc_encrypt_blocks_length ks data :
  forall prev final out,
    cbc_encrypt_blocks ks prev data = Some (final, out) ->
    List.length out = List.length data.
Proof.
  induction data as [|l Hl|p rest IH] using blocks_ind; intros prev final out H.
  - cbn in H. now inversion H.
  - now rewrite cbc_encrypt_blocks_short in H.
  - rewrite cbc_encrypt_blocks_block in H. cbv zeta in H.
    destruct (cbc_encrypt_blocks ks _ rest) as [[final' out']|] eqn:E; [|discriminate].
    inversion H; subst. rewrite !length_app, !length_bytes_of_state.
    now rewrite (IH _ _ _ E).
Qed.

(** ** PKCS#7: [unpad] undoes [pad] *)

Lemma to_nat_bchr (n : nat) : (n < 256)%nat -> Byte.to_nat (bchr n) = n.
Proof.
  intros H. unfold bchr. rewrite Byte.to_nat_via_N, to_N_byte_of_N by lia. lia.
Qed.

Lemma bytes_eqb_refl (l : list byte) : bytes_eqb l l = true.
Proof. unfold bytes_eqb. now destruct (list_eq_dec Byte.byte_eq_dec l l). Qed.

Lemma bytes_eqb_eq (l l' : list byte) : bytes_eqb l l' = true <-> l = l'.
Proof.
  unfold bytes_eqb. destruct (list_eq_dec Byte.byte_eq_dec l l'); split; congruence.
Qed.

Lemma last_app_repeat (l : list byte) (b : byte) (n : nat) :
  (0 < n)%nat -> last (l ++ repeat b n) x00 = b.
Proof.
  intros Hn. destruct n as [|n]; [lia|].
  replace (repeat b (S n)) with (repeat b n ++ [b]).
  - now rewrite app_assoc, last_last.
  - now rewrite <- repeat_cons.
Qed.

Lemma pad_length (data : list byte) (bs : nat) :
  (0 < bs)%nat -> (List.length (pad data bs) mod bs = 0)%nat.
Proof.
  intros Hbs. unfold pad. rewrite length_app, repeat_length.
  pose proof (Nat.mod_upper_bound (List.length data) bs ltac:(lia)) as Hlt.
  pose proof (Nat.div_mod_eq (List.length data) bs) as Hdm.
  replace (List.length data + (bs - List.length data mod bs))%nat
    with (0 + (S (List.length data / bs)) * bs)%nat by nia.
  now rewrite Nat.Div0.mod_add, Nat.Div0.mod_0_l.
Qed.

Lemma unpad_pad (data : list byte) (bs : nat) :
  (0 < bs < 256)%nat -> unpad (pad data bs) bs = Ok data.
Proof.
  intros Hbs. pose proof (pad_length data bs ltac:(lia)) as Hmod.
  pose proof (Nat.mod_upper_bound (List.length data) bs ltac:(lia)) as Hlt.
  unfold unpad. rewrite Hmod. unfold pad in *.
  set (p := (bs - List.length data mod bs)%nat) in *.
  assert (Hp : (0 < p <= bs)%nat) by (unfold p; lia).
  rewrite length_app, repeat_length in *.
  rewrite last_app_repeat by lia. rewrite to_nat_bchr by lia.
  replace (Nat.eqb (List.length data + p) 0) with false
    by (symmetry; apply Nat.eqb_neq; lia).
  cbn [Nat.eqb negb].
  replace (Nat.ltb p 1) with false by (symmetry; apply Nat.ltb_ge; lia).
  replace (Nat.ltb (Nat.min bs (List.length data + p)) p) with false
    by (symmetry; apply Nat.ltb_ge; lia).
  cbn [orb].
  replace (List.length data + p - p)%nat with (List.length data) by lia.
  rewrite skipn_app, skipn_all, Nat.sub_diag, firstn_app, firstn_all, Nat.sub_diag.
  cbn [skipn firstn app]. rewrite bytes_eqb_refl. cbn [negb].
  now rewrite app_nil_r.
Qed.

(** ** base64: [a2b_base64] undoes [b2a_base64] *)

Lemma b64_char_ok_spec (i : N) :
  b64_char_ok i = true ->
  is_ascii (table_b2a_base64 i) = true /\
  Byte.eqb (table_b2a_base64 i) "="%byte = false /\
  table_a2b_base64 (table_b2a_base64 i) = Some i.
Proof.
  unfold b64_char_ok. rewrite !andb_true_iff, negb_true_iff.
  intros [[H1 H2] H3]. repeat split; auto.
  destruct (table_a2b_base64 _); [|discriminate]. apply N.eqb_eq in H3. now subst.
Qed.

Lemma idx0_ok a : b64_char_ok (idx0 a) = true.
Proof. by_bytes. Qed.
Lemma idx1_ok a b : b64_char_ok (idx1 a b) = true.
Proof. by_bytes. Qed.
Lemma idx2_ok b c : b64_char_ok (idx2 b c) = true.
Proof. by_bytes. Qed.
Lemma idx3_ok c : b64_char_ok (idx3 c) = true.
Proof. by_bytes. Qed.

Lemma out1 a b :
  byte_of_N (N.lor (N.shiftl (idx0 a) 2) (N.shiftr (idx1 a b) 4)) = a.
Proof. by_bytes. Qed.
Lemma left1 a b : N.land (idx1 a b) 15 = N.shiftr (Byte.to_N b) 4.
Proof. apply N.eqb_eq. by_bytes. Qed.
Lemma out2 b c :
  byte_of_N (N.lor (N.shiftl (N.shiftr (Byte.to_N b) 4) 4) (N.shiftr (idx2 b c) 2)) = b.
Proof. by_bytes. Qed.
Lemma left2 b c : N.land (idx2 b c) 3 = N.shiftr (Byte.to_N c) 6.
Proof. apply N.eqb_eq. by_bytes. Qed.
Lemma out3 c :
  byte_of_N (N.lor (N.shiftl (N.shiftr (Byte.to_N c) 6) 6) (idx3 c)) = c.
Proof. by_bytes. Qed.

Lemma triples_ind (P : list byte -> Prop) :
  P [] -> (forall a, P [a]) -> (forall a b, P [a; b]) ->
  (forall a b c rest, P rest -> P (a :: b :: c :: rest)) ->
  forall l, P l.
Proof.
  intros H0 H1 H2 H3.
  assert (H : forall l, P l /\ (forall a, P (a :: l)) /\ (forall a b, P (a :: b :: l))).
  { induction l as [|x l (IH0 & IH1 & IH2)]; repeat split; auto. }
  intros l. apply H.
Qed.

Ltac b64_char H :=
  destruct (b64_char_ok_spec _ H) as (_ & -> & ->).

(** One decoding step per data character of a quad. *)
Lemma a2b_loop_quad a b c rest acc :
  a2b_base64_loop
    (table_b2a_base64 (idx0 a) :: table_b2a_base64 (idx1 a b)
     :: table_b2a_base64 (idx2 b c) :: table_b2a_base64 (idx3 c) :: rest) 0 0 0 acc =
  a2b_base64_loop rest 0 0 0 (c :: b :: a :: acc).
Proof.
  cbn [a2b_base64_loop].
  b64_char (idx0_ok a). b64_char (idx1_ok a b). b64_char (idx2_ok b c). b64_char (idx3_ok c).
  now rewrite out1, left1, out2, left2, out3.
Qed.

Lemma a2b_loop_tail1 a rest acc :
  a2b_base64_loop
    (table_b2a_base64 (idx0 a) :: table_b2a_base64 (idx1 a x00)
     :: "="%byte :: "="%byte :: rest) 0 0 0 acc =
  Ok (rev (a :: acc)).
Proof.
  cbn [a2b_base64_loop].
  b64_char (idx0_ok a). b64_char (idx1_ok a x00).
  now rewrite out1.
Qed.

Lemma a2b_loop_tail2 a b rest acc :
  a2b_base64_loop
    (table_b2a_base64 (idx0 a) :: table_b2a_base64 (idx1 a b)
     :: table_b2a_base64 (idx2 b x00) :: "="%byte :: rest) 0 0 0 acc =
  Ok (rev (b :: a :: acc)).
Proof.
  cbn [a2b_base64_loop].
  b64_char (idx0_ok a). b64_char (idx1_ok a b). b64_char (idx2_ok b x00).
  now rewrite out1, left1, out2.
Qed.

Lemma idx1_pad a : N.shiftl (N.land (Byte.to_N a) 3) 4 = idx1 a x00.
Proof. unfold idx1. cbn [Byte.to_N]. now rewrite N.shiftr_0_l, N.lor_0_r. Qed.
Lemma idx2_pad b : N.shiftl (N.land (Byte.to_N b) 15) 2 = idx2 b x00.
Proof. unfold idx2. cbn [Byte.to_N]. now rewrite N.shiftr_0_l, N.lor_0_r. Qed.

Lemma a2b_loop_b2a (data : list byte) :
  forall acc, a2b_base64_loop (b2a_base64 data) 0 0 0 acc = Ok (rev acc ++ data).
Proof.
  unfold b2a_base64.
  induction data as [|a|a b|a b c rest IH] using triples_ind; intros acc.
  - cbn. now rewrite app_nil_r.
  - cbn [b2a_groups app]. rewrite idx1_pad. fold (idx0 a).
    rewrite a2b_loop_tail1. cbn [rev]. now rewrite <- ?app_assoc.
  - cbn [b2a_groups app]. rewrite idx2_pad. fold (idx0 a) (idx1 a b).
    rewrite a2b_loop_tail2. cbn [rev]. now rewrite <- ?app_assoc.
  - change (b2a_groups (a :: b :: c :: rest))
      with (table_b2a_base64 (idx0 a) :: table_b2a_base64 (idx1 a b)
            :: table_b2a_base64 (idx2 b c) :: table_b2a_base64 (idx3 c)
            :: b2a_groups rest).
    cbn [app]. rewrite a2b_loop_quad, IH. cbn [rev]. now rewrite <- ?app_assoc.
Qed.

Lemma b2a_base64_ascii (data : list byte) : forallb is_ascii (b2a_base64 data) = true.
Proof.
  unfold b2a_base64.
  induction data as [|a|a b|a b c rest IH] using triples_ind.
  - reflexivity.
  - cbn [b2a_groups app forallb]. rewrite idx1_pad. fold (idx0 a).
    destruct (b64_char_ok_spec _ (idx0_ok a)) as (-> & _).
    destruct (b64_char_ok_spec _ (idx1_ok a x00)) as (-> & _). reflexivity.
  - cbn [b2a_groups app forallb]. rewrite idx2_pad. fold (idx0 a) (idx1 a b).
    destruct (b64_char_ok_spec _ (idx0_ok a)) as (-> & _).
    destruct (b64_char_ok_spec _ (idx1_ok a b)) as (-> & _).
    destruct (b64_char_ok_spec _ (idx2_ok b x00)) as (-> & _). reflexivity.
  - change (b2a_groups (a :: b :: c :: rest))
      with (table_b2a_base64 (idx0 a) :: table_b2a_base64 (idx1 a b)
            :: table_b2a_base64 (idx2 b c) :: table_b2a_base64 (idx3 c)
            :: b2a_groups rest).
    cbn [app forallb]. rewrite IH.
    destruct (b64_char_ok_spec _ (idx0_ok a)) as (-> & _).
    destruct (b64_char_ok_spec _ (idx1_ok a b)) as (-> & _).
    destruct (b64_char_ok_spec _ (idx2_ok b c)) as (-> & _).
    destruct (b64_char_ok_spec _ (idx3_ok c)) as (-> & _). reflexivity.
Qed.

(** The text that [b2a_base64] writes decodes to the bytes it was given. *)
Lemma a2b_base64_b2a_base64 (data : list byte) :
  a2b_base64 (string_of_list_byte (b2a_base64 data)) = Ok data.
Proof.
  unfold a2b_base64. rewrite list_byte_of_string_of_list_byte.
  rewrite b2a_base64_ascii. cbn [negb]. now rewrite a2b_loop_b2a.
Qed.

(** ** The codec on reference values *)

(** The blob of the status request under the test key, as OpenSSL's
    AES-256-CBC and Python's [b2a_base64] give it. *)
Example encrypt_params_reference :
  encrypt_params test_cipher [("operation", "get")]
  = Ok (string_of_list_byte (list_byte_of_string "de9gC2wHEopBoO1sJYtjmA==" ++ [x0a])).
Proof. vm_compute. reflexivity. Qed.

Example urlencode_reference :
  urlencode [("a b", "c&d=~_.-"); ("", ""); ("x", "100%")]
  = list_byte_of_string "a+b=c%26d%3D~_.-&=&x=100%25".
Proof. vm_compute. reflexivity. Qed.

Example a2b_base64_reference :
  map a2b_base64 ["YWJj"; "YQ=="; "YW=Jj"; "YQ=="; "YQ="; "Y"]
  = [Ok (list_byte_of_string "abc"); Ok (list_byte_of_string "a");
     Ok (list_byte_of_string "abc"); Ok (list_byte_of_string "a");
     Raise (BinasciiError "Incorrect padding");
     Raise (BinasciiError
       "Invalid base64-encoded string: number of data characters cannot be 1 more than a multiple of 4")].
Proof. vm_compute. reflexivity. Qed.

Example json_loads_reference :
  map (fun s => json_loads (dq s))
    ["{'Status': 'Armed Away'}"; "{'a': 1, 'b': [true, null], 'a': -2}"; "'\u00e9'";
     "[1,]"; "01"; "operation=get"; ""]
  = [Ok (JObj [("Status", JStr "Armed Away")]);
     Ok (JObj [("a", JInt (-2)); ("b", JArr [JBool true; JNull])]);
     Ok (JStr (string_of_list_byte [xc3; xa9]));
     Raise (JSONDecodeError "Expecting value");
     Raise (JSONDecodeError "Extra data");
     Raise (JSONDecodeError "Expecting value");
     Raise (JSONDecodeError "Expecting value")].
Proof. vm_compute. reflexivity. Qed.

(** ** [json.loads] raises nothing but [ValueError]s *)

Ltac raise_cases :=
  repeat match goal with
  | H : Raise _ = Raise _ |- _ => inversion H; subst; clear H
  | H : Ok _ = Raise _ |- _ => discriminate H
  | H : bind ?m _ = Raise _ |- _ => unfold bind in H
  | H : match ?x with _ => _ end = Raise _ |- _ => destruct x eqn:?
  | H : (if ?b then _ else _) = Raise _ |- _ => destruct b eqn:?
  | H : (let '(_, _) := ?x in _) = Raise _ |- _ => destruct x eqn:?
  end.

Lemma scanstring_raises (n : nat) :
  forall l acc e, (List.length l <= n)%nat ->
    scanstring l acc = Raise e -> is_ValueError e = true.
Proof.
  induction n as [|n IH]; intros l acc e Hlen H.
  - destruct l; [|cbn in Hlen; lia]. cbn in H. now inversion H.
  - destruct l as [|b l]; cbn [scanstring] in H; [now inversion H|].
    cbn [List.length] in Hlen.
    raise_cases; try reflexivity;
      match goal with
      | H : scanstring ?l' _ = Raise _ |- _ =>
          apply (IH l' _ _) in H; [exact H | subst; cbn [List.length] in *; lia]
      end.
Qed.

Lemma parse_raises (fuel : nat) :
  (forall l e, parse_value fuel l = Raise e -> is_ValueError e = true) /\
  (forall l acc e, parse_items fuel l acc = Raise e -> is_ValueError e = true) /\
  (forall l acc e, parse_members fuel l acc = Raise e -> is_ValueError e = true).
Proof.
  induction fuel as [|fuel (IHv & IHi & IHm)].
  - repeat split; intros; cbn in *; raise_cases; reflexivity.
  - repeat split.
    + intros l e H. cbn [parse_value] in H.
      raise_cases; try reflexivity; eauto using scanstring_raises.
    + intros l acc e H. cbn [parse_items] in H.
      raise_cases; try reflexivity; eauto.
    + intros l acc e H. cbn [parse_members] in H.
      raise_cases; try reflexivity; eauto using scanstring_raises.
Qed.

Lemma json_loads_raises (s : list byte) (e : exn) :
  json_loads s = Raise e -> is_ValueError e = true.
Proof.
  unfold json_loads, json_loads_text, decode_text. intros H.
  raise_cases; try reflexivity;
    match goal with
    | H : parse_value _ _ = Raise _ |- _ => now apply (parse_raises _) in H
    end.
Qed.

Lemma a2b_base64_loop_raises l : forall q lc p acc e,
  a2b_base64_loop l q lc p acc = Raise e -> is_ValueError e = true.
Proof.
  induction l as [|c l IH]; intros q lc p acc e H; cbn [a2b_base64_loop] in H.
  - raise_cases; reflexivity.
  - raise_cases; eauto.
Qed.

Lemma a2b_base64_raises (s : string) (e : exn) :
  a2b_base64 s = Raise e -> is_ValueError e = true.
Proof.
  unfold a2b_base64. intros H. raise_cases; [reflexivity|].
  eauto using a2b_base64_loop_raises.
Qed.

Lemma unpad_raises (l : list byte) (bs : nat) (e : exn) :
  unpad l bs = Raise e -> is_ValueError e = true.
Proof. unfold unpad. intros H. raise_cases; reflexivity. Qed.

(** ** [parse_qsl] undoes [urlencode] *)

Lemma quote_byte_safe_chars (b : byte) :
  forallb (fun c => negb (Byte.eqb c "&"%byte) && negb (Byte.eqb c "="%byte))
    (quote_byte b) = true.
Proof. by_bytes. Qed.

Lemma quote_byte_unquote_check (b : byte) :
  (if always_safe b then negb (Byte.eqb b "+"%byte) && negb (Byte.eqb b "%"%byte)
   else if Byte.eqb b " "%byte then true
   else
     match hex_digit (hex_upper (N.shiftr (Byte.to_N b) 4)),
           hex_digit (hex_upper (N.land (Byte.to_N b) 15)) with
     | Some h, Some l => Byte.eqb (byte_of_N (16 * h + l)) b
     | _, _ => false
     end) = true.
Proof. by_bytes. Qed.

Lemma unquote_plus_quote_byte (b : byte) (l : list byte) :
  unquote_plus (quote_byte b ++ l) = b :: unquote_plus l.
Proof.
  pose proof (quote_byte_unquote_check b) as H. unfold quote_byte.
  destruct (always_safe b).
  - apply andb_true_iff in H. destruct H as [H1 H2]. apply negb_true_iff in H1, H2.
    cbn [app unquote_plus]. now rewrite H1, H2.
  - destruct (Byte.eqb b " "%byte) eqn:Hsp.
    + apply Byte.byte_dec_bl in Hsp. subst. reflexivity.
    + cbn [app unquote_plus].
      change (Byte.eqb "%"%byte "+"%byte) with false.
      change (Byte.eqb "%"%byte "%"%byte) with true. cbv iota.
      destruct (hex_digit (hex_upper (N.shiftr (Byte.to_N b) 4))); [|discriminate].
      destruct (hex_digit (hex_upper (N.land (Byte.to_N b) 15))); [|discriminate].
      apply Byte.byte_dec_bl in H. now rewrite H.
Qed.

Lemma unquote_plus_quote_plus (s : string) :
  unquote_plus (quote_plus s) = list_byte_of_string s.
Proof.
  unfold quote_plus. induction (list_byte_of_string s) as [|b l IH]; [reflexivity|].
  cbn [flat_map]. now rewrite unquote_plus_quote_byte, IH.
Qed.

Lemma quote_plus_no_separator (s : string) : no_separator (quote_plus s).
Proof.
  unfold quote_plus, no_separator.
  induction (list_byte_of_string s) as [|b l IH]; [constructor|].
  cbn [flat_map]. apply Forall_app. split; [|exact IH].
  pose proof (quote_byte_safe_chars b) as H. rewrite forallb_forall in H.
  apply Forall_forall. intros c Hc. specialize (H c Hc).
  apply andb_true_iff in H. now rewrite !negb_true_iff in H.
Qed.

Lemma split_first_eq (k v : list byte) :
  no_separator k ->
  split_first "="%byte (k ++ "="%byte :: v) = (k, Some v).
Proof.
  induction 1 as [|c k [_ Hc] _ IH]; [reflexivity|].
  cbn [app split_first]. now rewrite Hc, IH.
Qed.

Lemma split_on_amp_field (k v : list byte) (rest : list byte) :
  no_separator k -> no_separator v ->
  split_on "&"%byte (k ++ "="%byte :: v ++ rest) =
  match split_on "&"%byte (v ++ rest) with
  | s :: ss => (k ++ "="%byte :: s) :: ss
  | [] => [k ++ ["="%byte]]
  end.
Proof.
  intros Hk Hv. induction Hk as [|c k [Hc _] _ IH].
  - cbn [app split_on]. change (Byte.eqb "="%byte "&"%byte) with false. reflexivity.
  - cbn [app split_on]. rewrite Hc, IH. now destruct (split_on "&"%byte (v ++ rest)).
Qed.

Lemma split_on_amp_value (v rest : list byte) :
  no_separator v ->
  split_on "&"%byte (v ++ "&"%byte :: rest) = v :: split_on "&"%byte rest.
Proof.
  induction 1 as [|c v [Hc _] _ IH].
  - reflexivity.
  - cbn [app split_on]. now rewrite Hc, IH.
Qed.

Lemma split_on_amp_last (v : list byte) :
  no_separator v -> split_on "&"%byte v = [v].
Proof.
  induction 1 as [|c v [Hc _] _ IH]; [reflexivity|].
  cbn [split_on]. now rewrite Hc, IH.
Qed.

Lemma split_on_urlencode (p : string * string) (params : list (string * string)) :
  split_on "&"%byte (urlencode (p :: params)) =
  map (fun kv => quote_plus (fst kv) ++ "="%byte :: quote_plus (snd kv)) (p :: params).
Proof.
  unfold urlencode. revert p. induction params as [|q params IH]; intros p.
  - cbn [map join_amp].
    rewrite <- (app_nil_r (quote_plus (snd p))) at 1.
    rewrite split_on_amp_field by apply quote_plus_no_separator.
    rewrite app_nil_r, split_on_amp_last by apply quote_plus_no_separator. reflexivity.
  - change (join_amp (map ?f (p :: q :: params)))
      with (f p ++ "&"%byte :: join_amp (map f (q :: params))).
    cbv beta. rewrite <- app_assoc. cbn [app].
    rewrite split_on_amp_field by apply quote_plus_no_separator.
    rewrite split_on_amp_value by apply quote_plus_no_separator.
    rewrite IH. reflexivity.
Qed.

(** Re-parsing the URL-encoded form gives the parameter set back. *)
Lemma parse_qsl_urlencode (params : list (string * string)) :
  parse_qsl (urlencode params) = params.
Proof.
  unfold parse_qsl. destruct params as [|p params]; [reflexivity|].
  rewrite split_on_urlencode.
  induction (p :: params) as [|[k v] l IH]; [reflexivity|].
  cbn [map flat_map fst snd]. rewrite IH.
  rewrite split_first_eq by apply quote_plus_no_separator.
  rewrite !unquote_plus_quote_plus, !string_of_list_byte_of_string.
  destruct (quote_plus k); reflexivity.
Qed.

(** ** [a2b_hex]: the strings it accepts *)

Lemma length_list_byte_of_string (s : string) :
  List.length (list_byte_of_string s) = String.length s.
Proof.
  unfold list_byte_of_string. rewrite length_map.
  induction s as [|a s IH]; cbn; [reflexivity | now rewrite IH].
Qed.

Lemma hex_digit_ascii (b : byte) :
  (match hex_digit b with Some _ => is_ascii b | None => true end) = true.
Proof. by_bytes. Qed.

Lemma pairs_ind (P : list byte -> Prop) :
  P [] -> (forall a, P [a]) -> (forall a b rest, P rest -> P (a :: b :: rest)) ->
  forall l, P l.
Proof.
  intros H0 H1 H2.
  assert (H : forall l, P l /\ forall a, P (a :: l)).
  { induction l as [|x l (IHl & IHx)]; split; auto. }
  intros l. apply H.
Qed.

Lemma unhexlify_spec (l : list byte) :
  Nat.even (List.length l) = true ->
  match unhexlify l with
  | Some out =>
      forallb (fun b => match hex_digit b with Some _ => true | None => false end) l = true /\
      forallb is_ascii l = true /\
      List.length out = (List.length l / 2)%nat
  | None =>
      forallb (fun b => match hex_digit b with Some _ => true | None => false end) l = false
  end.
Proof.
  induction l as [|a|a b rest IH] using pairs_ind; intros Hev.
  - now cbn.
  - discriminate.
  - change (Nat.even (List.length (a :: b :: rest))) with (Nat.even (List.length rest)) in Hev.
    specialize (IH Hev). cbn [unhexlify forallb].
    pose proof (hex_digit_ascii a) as Ha. pose proof (hex_digit_ascii b) as Hb.
    destruct (hex_digit a); [|reflexivity].
    destruct (hex_digit b); [|reflexivity].
    destruct (unhexlify rest) as [out|]; [|exact IH].
    destruct IH as (H1 & H2 & H3). rewrite H1, H2, Ha, Hb. repeat split.
    cbn [List.length]. rewrite H3.
    change (S (S (List.length rest))) with (1 * 2 + List.length rest)%nat.
    now rewrite Nat.div_add_l by lia.
Qed.

Lemma a2b_hex_ok (s : string) (out : list byte) :
  a2b_hex s = Ok out ->
  hex_string s = true /\ List.length out = (String.length s / 2)%nat.
Proof.
  unfold a2b_hex, hex_string. rewrite <- length_list_byte_of_string.
  set (l := list_byte_of_string s).
  destruct (forallb is_ascii l); cbn [negb]; [|discriminate].
  rewrite <- Nat.negb_even.
  destruct (Nat.even (List.length l)) eqn:Hev; cbn [negb]; [|discriminate].
  pose proof (unhexlify_spec l Hev) as H.
  destruct (unhexlify l) as [out'|]; [|discriminate].
  intros E. inversion E; subst. destruct H as (-> & _ & ->). auto.
Qed.

Lemma a2b_hex_hex_string (s : string) :
  hex_string s = true -> exists out, a2b_hex s = Ok out.
Proof.
  unfold a2b_hex, hex_string. set (l := list_byte_of_string s).
  rewrite andb_true_iff. intros [Hhex Hev].
  pose proof (unhexlify_spec l Hev) as H.
  destruct (unhexlify l) as [out|]; [|congruence].
  destruct H as (_ & -> & _). cbn [negb].
  rewrite <- Nat.negb_even, Hev. cbn [negb]. eauto.
Qed.

(* ================================================================== *)
(** * Part III: the claims                                             *)
(* ================================================================== *)

(** ** The cipher codec *)

Lemma decrypt_params_stages (self : Cipher) (v : json) :
  decrypt_params self v = (params <- decrypt_bytes self v ;; json_loads params).
Proof.
  unfold decrypt_params, decrypt_bytes, bind.
  destruct (AES_new_CBC _ _); [|reflexivity].
  destruct (a2b_base64_arg v); [|reflexivity].
  destruct (CbcMode_decrypt _ _); reflexivity.
Qed.

Lemma AES_new_CBC_valid (c : Cipher) :
  valid_material c = true ->
  AES_new_CBC (_key_bin c) (_iv_bin c) =
  Ok (mkCbcMode (key_schedule (_key_bin c)) (iv_state (_iv_bin c)) EncryptOrDecrypt).
Proof.
  unfold valid_material, AES_new_CBC. rewrite andb_true_iff. intros [-> Hiv].
  apply Nat.eqb_eq in Hiv. cbn [negb].
  destruct (_iv_bin c) as [|? l]; [discriminate|].
  do 15 (destruct l as [|? l]; [discriminate|]).
  destruct l; [reflexivity | discriminate].
Qed.

Lemma AES_new_CBC_invalid (c : Cipher) :
  valid_material c = false ->
  exists msg, AES_new_CBC (_key_bin c) (_iv_bin c) = Raise (ValueError msg).
Proof.
  unfold valid_material, AES_new_CBC. intros H.
  destruct (existsb _ key_size); cbn [negb andb] in *; [|eauto].
  apply Nat.eqb_neq in H.
  destruct (_iv_bin c) as [|? l]; [eauto|].
  do 15 (destruct l as [|? l]; [eauto|]).
  destruct l; [cbn in H; lia | eauto].
Qed.

(** C1 (as amended): for every parameter set and every cipher whose key is
    16, 24 or 32 bytes and whose iv is 16 bytes, [encrypt_params] returns a
    blob, and the stages of [decrypt_params] before [json.loads]
    (base64-decode, CBC-decrypt, unpad) give back exactly the URL-encoded
    form of the parameter set, which re-parsed as a query string is the
    parameter set.  [decrypt_params] itself goes on to parse
    these bytes as JSON: its result on the blob is [json.loads] of the
    URL-encoded form, not the parameter set. *)
Theorem decode_recovers_urlencoded_form (self : Cipher) (params : list (string * string)) :
  valid_material self = true ->
  exists blob,
    encrypt_params self params = Ok blob /\
    decrypt_bytes self (JStr blob) = Ok (urlencode params) /\
    parse_qsl (urlencode params) = params /\
    decrypt_params self (JStr blob) = json_loads (urlencode params).
Proof.
  intros Hvalid.
  set (ks := key_schedule (_key_bin self)). set (iv := iv_state (_iv_bin self)).
  destruct (cbc_encrypt_blocks_aligned ks (pad (urlencode params) 16)
              (pad_length _ 16 ltac:(lia)) iv) as (final & out & Henc).
  pose proof (cbc_decrypt_encrypt_blocks _ _ _ _ _ Henc) as Hdec.
  exists (string_of_list_byte (b2a_base64 out)).
  assert (Hbytes : decrypt_bytes self (JStr (string_of_list_byte (b2a_base64 out)))
                   = Ok (urlencode params)).
  { unfold decrypt_bytes. rewrite (AES_new_CBC_valid _ Hvalid). cbn [bind a2b_base64_arg].
    rewrite a2b_base64_b2a_base64. cbn [bind].
    unfold CbcMode_decrypt. cbn [cbc_allowed cbc_round_keys cbc_chain].
    fold ks iv. rewrite Hdec. cbn [bind snd].
    apply unpad_pad. unfold block_size. lia. }
  split; [|split; [|split]].
  - unfold encrypt_params. rewrite (AES_new_CBC_valid _ Hvalid). cbn [bind].
    unfold CbcMode_encrypt. cbn [cbc_allowed cbc_round_keys cbc_chain].
    fold ks iv. now rewrite Henc.
  - exact Hbytes.
  - apply parse_qsl_urlencode.
  - now rewrite decrypt_params_stages, Hbytes.
Qed.

(** C1, counterexample: for the parameter set [{"operation": "get"}] the
    blob of [encrypt_params] makes [decrypt_params] raise a
    [JSONDecodeError]; it does not return the parameter set. *)
Lemma roundtrip_raises_on_operation_get :
  exists blob,
    encrypt_params test_cipher [("operation", "get")] = Ok blob /\
    decrypt_params test_cipher (JStr blob) = Raise (JSONDecodeError "Expecting value").
Proof. eexists. split; [vm_compute; reflexivity | vm_compute; reflexivity]. Qed.

(** C1, on the test data. *)
Lemma decode_recovers_urlencoded_form_witness :
  valid_material test_cipher = true /\
  exists blob,
    encrypt_params test_cipher [("operation", "get")] = Ok blob /\
    decrypt_bytes test_cipher (JStr blob) = Ok (urlencode [("operation", "get")]) /\
    parse_qsl (urlencode [("operation", "get")]) = [("operation", "get")] /\
    decrypt_params test_cipher (JStr blob) = json_loads (urlencode [("operation", "get")]).
Proof.
  split; [vm_compute; reflexivity|]. apply decode_recovers_urlencoded_form.
  vm_compute; reflexivity.
Defined.

Lemma cbc_decrypt_blocks_unaligned ks data :
  (List.length data mod 16 <> 0)%nat ->
  forall prev, cbc_decrypt_blocks ks prev data = None.
Proof.
  induction data as [|l Hl|p rest IH] using blocks_ind; intros Hlen prev.
  - now cbn in Hlen.
  - now apply cbc_decrypt_blocks_short.
  - rewrite cbc_decrypt_blocks_block.
    rewrite length_app, length_bytes_of_state in Hlen.
    replace (16 + List.length rest)%nat with (List.length rest + 1 * 16)%nat in Hlen by lia.
    rewrite Nat.Div0.mod_add in Hlen. now rewrite IH.
Qed.


(** Corrupted padding, concretely: the exception of [unpad] comes out of
    [decrypt_params]. *)
Example corrupted_padding_raises :
  exists blob,
    panel_encrypt_raw test_cipher corrupted_block = Ok blob /\
    decrypt_params test_cipher (JStr blob) = Raise (ValueError "PKCS#7 padding is incorrect.").
Proof. eexists. split; [vm_compute; reflexivity | vm_compute; reflexivity]. Qed.


(** Every call chains from the configured iv: the blob is the base64 text
    of the CBC encryption, started at that iv, of the padded form. *)
Lemma encrypt_params_fixed_iv (self : Cipher) (params : list (string * string)) :
  valid_material self = true ->
  exists final out,
    cbc_encrypt_blocks (key_schedule (_key_bin self)) (iv_state (_iv_bin self))
      (pad (urlencode params) 16) = Some (final, out) /\
    encrypt_params self params = Ok (string_of_list_byte (b2a_base64 out)).
Proof.
  intros Hvalid.
  destruct (cbc_encrypt_blocks_aligned (key_schedule (_key_bin self))
              (pad (urlencode params) 16) (pad_length _ 16 ltac:(lia))
              (iv_state (_iv_bin self))) as (final & out & Henc).
  exists final, out. split; [exact Henc|].
  unfold encrypt_params. rewrite (AES_new_CBC_valid _ Hvalid). cbn [bind].
  unfold CbcMode_encrypt. cbn [cbc_allowed cbc_round_keys cbc_chain]. now rewrite Henc.
Qed.

(** C7: encoding is deterministic.  Two cipher configurations with the
    same key and iv bytes give, for the same parameter set, the same
    result of [encrypt_params].  No nonce enters: with valid material the
    blob is the base64 text of the CBC encryption of the padded
    URL-encoded form, chained from the configured iv on every call. *)
Theorem encrypt_params_deterministic (c c' : Cipher) (params : list (string * string)) :
  _key_bin c = _key_bin c' -> _iv_bin c = _iv_bin c' ->
  encrypt_params c params = encrypt_params c' params /\
  (valid_material c = true ->
   exists final out,
     cbc_encrypt_blocks (key_schedule (_key_bin c)) (iv_state (_iv_bin c))
       (pad (urlencode params) 16) = Some (final, out) /\
     encrypt_params c' params = Ok (string_of_list_byte (b2a_base64 out))).
Proof.
  intros Hkey Hiv. split.
  - unfold encrypt_params. now rewrite Hkey, Hiv.
  - intros Hvalid. destruct (encrypt_params_fixed_iv c params Hvalid) as (final & out & H1 & H2).
    exists final, out. split; [exact H1|].
    rewrite <- H2. unfold encrypt_params. now rewrite Hkey, Hiv.
Qed.

(** C7, on the test data. *)
Lemma encrypt_params_deterministic_witness :
  encrypt_params test_cipher [("operation", "get")] =
  encrypt_params (mkCipher (_key_bin test_cipher) (_iv_bin test_cipher)) [("operation", "get")].
Proof.
  apply (encrypt_params_deterministic test_cipher
           (mkCipher (_key_bin test_cipher) (_iv_bin test_cipher))); reflexivity.
Defined.

(** The cipher object itself is stateful: encrypting the same block twice
    with one object gives two different ciphertexts.  [encrypt_params]
    makes a new object on every call. *)
Example cbc_object_moves_on :
  exists obj obj1 obj2 ct1 ct2,
    AES_new_CBC (_key_bin test_cipher) (_iv_bin test_cipher) = Ok obj /\
    CbcMode_encrypt obj (pad (urlencode [("operation", "get")]) 16) = Ok (obj1, ct1) /\
    CbcMode_encrypt obj1 (pad (urlencode [("operation", "get")]) 16) = Ok (obj2, ct2) /\
    bytes_eqb ct1 ct2 = false.
Proof.
  do 5 eexists.
  split; [vm_compute; reflexivity|].
  split; [vm_compute; reflexivity|].
  split; [vm_compute; reflexivity|].
  vm_compute; reflexivity.
Qed.

(** C8, counterexample: a key and an iv of one byte each construct a
    [Cipher]; construction does not look at the lengths. *)
Lemma cipher_constructed_from_one_byte :
  Cipher__init__ "00" "00" = Ok (mkCipher [x00] [x00]).
Proof. reflexivity. Qed.

(** C8 (as amended): constructing a [Cipher] only converts key and iv
    from hexadecimal: it succeeds exactly when both are strings of an even
    number of hexadecimal digits, whatever their lengths.  The lengths are
    checked when the cipher is used: [encrypt_params] returns a blob
    exactly when the key is 16, 24 or 32 bytes and the iv 16 bytes, and
    raises a [ValueError] otherwise. *)
Theorem cipher_material_checked_at_use (key iv : string) :
  ((exists c, Cipher__init__ key iv = Ok c) <->
   hex_string key = true /\ hex_string iv = true) /\
  (forall c, Cipher__init__ key iv = Ok c ->
     List.length (_key_bin c) = (String.length key / 2)%nat /\
     List.length (_iv_bin c) = (String.length iv / 2)%nat /\
     forall params,
       ((exists blob, encrypt_params c params = Ok blob) <->
        In (String.length key / 2)%nat [16; 24; 32]%nat /\ (String.length iv / 2 = 16)%nat) /\
       ((exists blob, encrypt_params c params = Ok blob) \/
        (exists msg, encrypt_params c params = Raise (ValueError msg)))).
Proof.
  split.
  - unfold Cipher__init__. split.
    + intros [c H]. destruct (a2b_hex key) as [k|] eqn:Hk; [|discriminate].
      destruct (a2b_hex iv) as [v|] eqn:Hv; [|discriminate].
      split; [eapply a2b_hex_ok; eauto | eapply a2b_hex_ok; eauto].
    + intros [Hk Hv].
      destruct (a2b_hex_hex_string _ Hk) as [k ->], (a2b_hex_hex_string _ Hv) as [v ->].
      cbn [bind]. eauto.
  - intros c H. unfold Cipher__init__ in H.
    destruct (a2b_hex key) as [k|] eqn:Hk; [|discriminate].
    destruct (a2b_hex iv) as [v|] eqn:Hv; [|discriminate].
    cbn [bind] in H. inversion H; subst. cbn [_key_bin _iv_bin].
    destruct (a2b_hex_ok _ _ Hk) as (_ & Lk), (a2b_hex_ok _ _ Hv) as (_ & Lv).
    split; [exact Lk|]. split; [exact Lv|]. intros params. split; [split|].
    + intros [blob Hb].
      destruct (valid_material (mkCipher k v)) eqn:Hval.
      * unfold valid_material in Hval. cbn [_key_bin _iv_bin key_size existsb] in Hval.
        rewrite andb_true_iff, !orb_true_iff, !Nat.eqb_eq in Hval.
        rewrite <- Lk, <- Lv. cbn [In]. intuition congruence.
      * destruct (AES_new_CBC_invalid _ Hval) as [msg Hm].
        unfold encrypt_params in Hb. now rewrite Hm in Hb.
    + intros [Hin Hiv].
      assert (Hval : valid_material (mkCipher k v) = true).
      { unfold valid_material. cbn [_key_bin _iv_bin key_size existsb].
        rewrite andb_true_iff, !orb_true_iff, !Nat.eqb_eq.
        rewrite <- Lk, <- Lv in *. cbn [In] in Hin. intuition congruence. }
      destruct (encrypt_params_fixed_iv _ params Hval) as (final & out & _ & Hb). eauto.
    + destruct (valid_material (mkCipher k v)) eqn:Hval.
      * left. destruct (encrypt_params_fixed_iv _ params Hval) as (final & out & _ & Hb). eauto.
      * right. destruct (AES_new_CBC_invalid _ Hval) as [msg Hm].
        exists msg. unfold encrypt_params. now rewrite Hm.
Qed.

(** C8, on the test data: the test key and iv construct a cipher, and
    being 32 and 16 bytes they encrypt. *)
Lemma cipher_material_checked_at_use_witness :
  (exists c, Cipher__init__ test_key test_iv = Ok c) /\
  (exists blob, encrypt_params test_cipher [("operation", "get")] = Ok blob).
Proof.
  split.
  - apply (proj1 (cipher_material_checked_at_use test_key test_iv)).
    split; vm_compute; reflexivity.
  - destruct (proj2 (cipher_material_checked_at_use test_key test_iv) test_cipher)
      as (_ & _ & Huse); [vm_compute; reflexivity|].
    apply (proj1 (Huse [("operation", "get")])).
    split; [vm_compute; tauto | vm_compute; reflexivity].
Defined.

(** ** The panel controller: its methods case by case *)

Section ControllerFacts.

Variable requests_post : Request -> exc Response.

Lemma post_request_cases (self : TuxedoTouch) (endpoint : string)
  (params : list (string * string)) :
  _post_request requests_post self endpoint params =
  match encrypt_params (_cipher self) params with
  | Raise e => (Raise e, [])
  | Ok blob =>
      match requests_post (api_request self endpoint blob) with
      | Raise e => (Raise e, [EvPost (api_request self endpoint blob)])
      | Ok response =>
          if Z.eqb (status_code response) 200 then
            (body <- response_json response ;;
             result <- json_getitem body "Result" ;;
             decrypt_params (_cipher self) result,
             [EvPost (api_request self endpoint blob)])
          else
            (Ok JNull,
             [EvPost (api_request self endpoint blob);
              EvLog ERROR "endpoint {endpoint} returned a {response.status_code}"
                [LStr endpoint; LInt (status_code response)]])
      end
  end.
Proof.
  unfold _post_request, mbind, lift, emit, ret, api_request.
  destruct (encrypt_params (_cipher self) params) as [blob|e]; [|reflexivity].
  destruct (requests_post _) as [response|e]; [|reflexivity].
  destruct (Z.eqb (status_code response) 200); [|reflexivity].
  unfold bind.
  destruct (response_json response) as [body|e]; [|reflexivity].
  destruct (json_getitem body "Result") as [result|e]; [|reflexivity].
  destruct (decrypt_params (_cipher self) result); reflexivity.
Qed.

(** Every call of [_post_request] sends at most one request, and the
    request carries the encrypted parameters in its [param] field. *)
Lemma post_request_trace (self : TuxedoTouch) (endpoint : string)
  (params : list (string * string)) :
  forall ev, In ev (snd (_post_request requests_post self endpoint params)) ->
    (exists blob,
       encrypt_params (_cipher self) params = Ok blob /\
       ev = EvPost (api_request self endpoint blob)) \/
    (exists lvl fmt args, ev = EvLog lvl fmt args).
Proof.
  intros ev. rewrite post_request_cases.
  destruct (encrypt_params (_cipher self) params) as [blob|e]; [|intros []].
  destruct (requests_post _) as [response|e].
  - destruct (Z.eqb (status_code response) 200); cbn [snd In].
    + intros [<-|[]]. left. eauto.
    + intros [<-|[<-|[]]]; [left|right]; eauto.
  - cbn [snd In]. intros [<-|[]]. left. eauto.
Qed.

Lemma alarm_arm_cases (self : TuxedoTouch) (arm_name : string) (code : code_value) :
  _alarm_arm requests_post self arm_name code =
  if code_is_None (resolved_code self code) then
    (Ok tt, [EvLog WARNING "arm code is missing" []])
  else
    match _post_request requests_post self "/AdvancedSecurity/ArmWithCode"
            (arm_params arm_name (resolved_code self code)) with
    | (Ok response, trace) =>
        if json_truthy response then
          (Ok tt,
           trace ++ [EvLog INFO "api_arm_request %s result: %s" [LStr arm_name; LJson response];
                     EvSleep 2; EvScheduleUpdate])
        else (Ok tt, trace)
    | (Raise e, trace) => (Raise e, trace)
    end.
Proof.
  unfold _alarm_arm, resolved_code, arm_params.
  destruct (code_is_None _); [reflexivity|].
  unfold mbind at 1.
  destruct (_post_request _ _ _ _) as [[response|e] trace]; [|reflexivity].
  destruct (json_truthy response); cbn; [reflexivity | now rewrite app_nil_r].
Qed.

Lemma alarm_disarm_cases (self : TuxedoTouch) (code : code_value) :
  async_alarm_disarm requests_post self code =
  if code_is_None (resolved_code self code) then
    (Ok tt, [EvLog WARNING "disarm code is missing" []])
  else
    match _post_request requests_post self "/AdvancedSecurity/DisarmWithCode"
            (disarm_params (resolved_code self code)) with
    | (Ok response, trace) =>
        if json_truthy response then
          (Ok tt,
           trace ++ [EvLog INFO "api_disarm_request result: %s" [LJson response];
                     EvSleep 2; EvScheduleUpdate])
        else (Ok tt, trace)
    | (Raise e, trace) => (Raise e, trace)
    end.
Proof.
  unfold async_alarm_disarm, resolved_code, disarm_params.
  destruct (code_is_None _); [reflexivity|].
  unfold mbind at 1.
  destruct (_post_request _ _ _ _) as [[response|e] trace]; [|reflexivity].
  destruct (json_truthy response); cbn; [reflexivity | now rewrite app_nil_r].
Qed.

(** A truthy code is not [None]. *)
Lemma code_truthy_not_None (code : code_value) :
  code_truthy code = true -> code_is_None code = false.
Proof. destruct code; [discriminate | reflexivity | reflexivity]. Qed.

(** With parameters that encrypt, [_post_request] calls [requests.post]
    exactly once, whatever the answer, and the request has the blob in its
    [param] field. *)
Lemma post_request_posts (self : TuxedoTouch) (endpoint : string)
  (params : list (string * string)) (blob : string) :
  encrypt_params (_cipher self) params = Ok blob ->
  filter is_post (snd (_post_request requests_post self endpoint params))
    = [EvPost (api_request self endpoint blob)].
Proof.
  intros Henc. rewrite post_request_cases, Henc.
  destruct (requests_post _) as [response|e]; [|reflexivity].
  destruct (Z.eqb (status_code response) 200); reflexivity.
Qed.

(** An arm or disarm call that has a code and parameters that encrypt
    sends its one request: the blob of the parameters with [str] of the
    resolved code, to the endpoint of the call. *)
Lemma alarm_arm_posts (self : TuxedoTouch) (arm_name : string) (code : code_value)
  (blob : string) :
  code_is_None (resolved_code self code) = false ->
  encrypt_params (_cipher self) (arm_params arm_name (resolved_code self code)) = Ok blob ->
  filter is_post (snd (_alarm_arm requests_post self arm_name code))
    = [EvPost (api_request self "/AdvancedSecurity/ArmWithCode" blob)].
Proof.
  intros Hcode Henc. rewrite alarm_arm_cases, Hcode.
  pose proof (post_request_posts self "/AdvancedSecurity/ArmWithCode" _ _ Henc) as Hposts.
  destruct (_post_request _ _ _ _) as [[response|e] trace]; cbn [snd] in *; [|exact Hposts].
  destruct (json_truthy response); cbn [snd]; [|exact Hposts].
  rewrite filter_app, Hposts. reflexivity.
Qed.

Lemma alarm_disarm_posts (self : TuxedoTouch) (code : code_value) (blob : string) :
  code_is_None (resolved_code self code) = false ->
  encrypt_params (_cipher self) (disarm_params (resolved_code self code)) = Ok blob ->
  filter is_post (snd (async_alarm_disarm requests_post self code))
    = [EvPost (api_request self "/AdvancedSecurity/DisarmWithCode" blob)].
Proof.
  intros Hcode Henc. rewrite alarm_disarm_cases, Hcode.
  pose proof (post_request_posts self "/AdvancedSecurity/DisarmWithCode" _ _ Henc) as Hposts.
  destruct (_post_request _ _ _ _) as [[response|e] trace]; cbn [snd] in *; [|exact Hposts].
  destruct (json_truthy response); cbn [snd]; [|exact Hposts].
  rewrite filter_app, Hposts. reflexivity.
Qed.

Lemma async_update_cases (self : TuxedoTouch) :
  async_update requests_post self =
  match _post_request requests_post self "/GetSecurityStatus" [("operation", "get")] with
  | (Ok response, trace) =>
      if json_truthy response then
        match json_getitem response "Status" with
        | Ok status =>
            match status_branches status with
            | Ok state =>
                (Ok (set_attr_state self
                       match state with None => STATE_UNAVAILABLE | Some st => st end),
                 trace ++ [EvLog INFO "current alarm status: {status}" [LJson status]])
            | Raise e => (Raise e, trace)
            end
        | Raise e => (Raise e, trace)
        end
      else
        (Ok (set_attr_state self STATE_UNAVAILABLE),
         trace ++ [EvLog ERROR "unable to get alarm status" []])
  | (Raise e, trace) => (Raise e, trace)
  end.
Proof.
  unfold async_update. unfold mbind at 1.
  destruct (_post_request _ _ _ _) as [[response|e] trace]; [|reflexivity].
  destruct (json_truthy response).
  - unfold mbind, lift, emit, ret.
    destruct (json_getitem response "Status") as [status|e];
      [|cbn; now rewrite ?app_nil_r].
    destruct (status_branches status) as [state|e]; cbn; now rewrite ?app_nil_r.
  - cbn. now rewrite ?app_nil_r.
Qed.

End ControllerFacts.

(** ** The status table *)

Lemma status_branches_str (raw : string) :
  status_branches (JStr raw) =
  Ok (if String.eqb raw "Armed Away" then Some STATE_ALARM_ARMED_AWAY
      else if String.eqb raw "Armed Instant" then Some STATE_ALARM_ARMED_NIGHT
      else if String.eqb raw "Armed Stay" then Some STATE_ALARM_ARMED_HOME
      else if String.eqb raw "Ready To Arm" then Some STATE_ALARM_DISARMED
      else if endswith raw " Secs Remaining" then Some STATE_ALARM_ARMING
      else None).
Proof.
  unfold status_branches, json_eq_str, json_endswith, bind.
  repeat match goal with |- context [String.eqb raw ?s] => destruct (String.eqb raw s) end;
    try reflexivity.
  now destruct (endswith raw " Secs Remaining").
Qed.

(** The state that [async_update] reports for a status string is the one
    of the specification's table. *)
Lemma status_branches_interpret (raw : string) :
  exists state,
    status_branches (JStr raw) = Ok state /\
    match state with None => STATE_UNAVAILABLE | Some st => st end = interpret raw.
Proof.
  eexists. split; [apply status_branches_str|].
  unfold interpret, status_table. cbn [find fst snd].
  rewrite !(String.eqb_sym _ raw).
  repeat match goal with |- context [String.eqb raw ?s] => destruct (String.eqb raw s) end;
    try reflexivity.
  now destruct (endswith raw " Secs Remaining").
Qed.

Lemma interpret_table (raw : string) :
  (raw = "Armed Away" -> interpret raw = STATE_ALARM_ARMED_AWAY) /\
  (raw = "Armed Instant" -> interpret raw = STATE_ALARM_ARMED_NIGHT) /\
  (raw = "Armed Stay" -> interpret raw = STATE_ALARM_ARMED_HOME) /\
  (raw = "Ready To Arm" -> interpret raw = STATE_ALARM_DISARMED) /\
  (endswith raw " Secs Remaining" = true -> interpret raw = STATE_ALARM_ARMING) /\
  (raw <> "Armed Away" -> raw <> "Armed Instant" -> raw <> "Armed Stay" ->
   raw <> "Ready To Arm" -> endswith raw " Secs Remaining" = false ->
   interpret raw = STATE_UNAVAILABLE).
Proof.
  repeat split; try (intros ->; reflexivity).
  - intros Hend. unfold interpret, status_table. cbn [find fst snd].
    repeat match goal with
    | |- context [String.eqb ?s raw] =>
        destruct (String.eqb_spec s raw) as [<-|_]; [discriminate Hend|]
    end.
    now rewrite Hend.
  - intros H1 H2 H3 H4 Hend. unfold interpret, status_table. cbn [find fst snd].
    repeat match goal with
    | |- context [String.eqb ?s raw] =>
        destruct (String.eqb_spec s raw) as [E|_]; [symmetry in E; contradiction|]
    end.
    now rewrite Hend.
Qed.

Section ControllerClaims.

Variable requests_post : Request -> exc Response.

(** C2: status interpretation is total.  Whenever the status request
    returns a payload whose [Status] is a string [raw], [async_update]
    does not raise and sets the state to the one state the specification's
    table gives [raw]: "Armed Away" gives armed-away, "Armed Instant"
    armed-night, "Armed Stay" armed-home, "Ready To Arm" disarmed, a string
    ending with " Secs Remaining" arming, and any other string
    unavailable. *)
Theorem status_interpretation_total (self : TuxedoTouch) (response : json)
  (trace : list event) (raw : string) :
  _post_request requests_post self "/GetSecurityStatus" [("operation", "get")]
    = (Ok response, trace) ->
  json_truthy response = true ->
  json_getitem response "Status" = Ok (JStr raw) ->
  async_update requests_post self =
    (Ok (set_attr_state self (interpret raw)),
     trace ++ [EvLog INFO "current alarm status: {status}" [LJson (JStr raw)]]) /\
  (raw = "Armed Away" -> interpret raw = STATE_ALARM_ARMED_AWAY) /\
  (raw = "Armed Instant" -> interpret raw = STATE_ALARM_ARMED_NIGHT) /\
  (raw = "Armed Stay" -> interpret raw = STATE_ALARM_ARMED_HOME) /\
  (raw = "Ready To Arm" -> interpret raw = STATE_ALARM_DISARMED) /\
  (endswith raw " Secs Remaining" = true -> interpret raw = STATE_ALARM_ARMING) /\
  (raw <> "Armed Away" -> raw <> "Armed Instant" -> raw <> "Armed Stay" ->
   raw <> "Ready To Arm" -> endswith raw " Secs Remaining" = false ->
   interpret raw = STATE_UNAVAILABLE).
Proof.
  intros Hpost Htruthy Hstatus. split; [|apply interpret_table].
  rewrite async_update_cases, Hpost, Htruthy, Hstatus.
  destruct (status_branches_interpret raw) as (state & -> & <-). reflexivity.
Qed.

(** C3 (as amended): when the call-supplied code is falsy and no default
    code is configured, an arm or disarm call ends locally, and not with
    an error: it returns normally, its whole trace is the warning that the
    code is missing, and so no request is sent.  When the call-supplied
    code is truthy it is the code the call goes on with, and the call is
    the same whatever default is configured: with valid key material it
    sends exactly one request, to the endpoint of the call, whose [param]
    field is the encryption of the parameters with [str] of the
    call-supplied code as [ucode]. *)
Theorem missing_code_fails_locally (self : TuxedoTouch) (arm_name : string)
  (code : code_value) :
  (code_truthy code = false -> _code self = CNone ->
   _alarm_arm requests_post self arm_name code
     = (Ok tt, [EvLog WARNING "arm code is missing" []]) /\
   async_alarm_disarm requests_post self code
     = (Ok tt, [EvLog WARNING "disarm code is missing" []])) /\
  (code_truthy code = true ->
   resolved_code self code = code /\
   (forall default,
      _alarm_arm requests_post (with_code self default) arm_name code
        = _alarm_arm requests_post self arm_name code /\
      async_alarm_disarm requests_post (with_code self default) code
        = async_alarm_disarm requests_post self code) /\
   (valid_material (_cipher self) = true ->
    exists blob_arm blob_disarm,
      encrypt_params (_cipher self)
        [("arming", arm_name); ("pID", "1"); ("ucode", code_str code);
         ("operation", "set")] = Ok blob_arm /\
      encrypt_params (_cipher self)
        [("pID", "1"); ("ucode", code_str code); ("operation", "set")] = Ok blob_disarm /\
      forall default,
        filter is_post
          (snd (_alarm_arm requests_post (with_code self default) arm_name code))
          = [EvPost (api_request self "/AdvancedSecurity/ArmWithCode" blob_arm)] /\
        filter is_post
          (snd (async_alarm_disarm requests_post (with_code self default) code))
          = [EvPost (api_request self "/AdvancedSecurity/DisarmWithCode" blob_disarm)])).
Proof.
  split.
  - intros Hfalsy Hnone. rewrite alarm_arm_cases, alarm_disarm_cases.
    unfold resolved_code. rewrite Hfalsy, Hnone. split; reflexivity.
  - intros Htruthy.
    assert (Hresolved : forall default, resolved_code (with_code self default) code = code).
    { intros default. unfold resolved_code. now rewrite Htruthy. }
    split; [unfold resolved_code; now rewrite Htruthy|]. split.
    + intros default. unfold _alarm_arm, async_alarm_disarm. rewrite Htruthy.
      split; reflexivity.
    + intros Hvalid.
      destruct (encrypt_params_fixed_iv (_cipher self) (arm_params arm_name code) Hvalid)
        as (final & out & _ & Harm).
      destruct (encrypt_params_fixed_iv (_cipher self) (disarm_params code) Hvalid)
        as (final' & out' & _ & Hdisarm).
      do 2 eexists. split; [exact Harm|]. split; [exact Hdisarm|].
      intros default. split.
      * apply (alarm_arm_posts requests_post (with_code self default)).
        -- rewrite Hresolved. now apply code_truthy_not_None.
        -- rewrite Hresolved. exact Harm.
      * apply (alarm_disarm_posts requests_post (with_code self default)).
        -- rewrite Hresolved. now apply code_truthy_not_None.
        -- rewrite Hresolved. exact Hdisarm.
Qed.

(** C4 (as amended): when the panel answers the status request with a
    status code other than 200, [async_update] does not raise: it logs
    the status code and that the status could not be read, and sets the
    state to unavailable.  When [requests.post] raises (connection
    refused, timeout, DNS failure), the exception leaves [async_update]
    after the one request, and the state is not set. *)
Theorem status_poll_degrades_on_http_error (self : TuxedoTouch) (blob : string) :
  encrypt_params (_cipher self) [("operation", "get")] = Ok blob ->
  (forall response,
     requests_post (api_request self "/GetSecurityStatus" blob) = Ok response ->
     status_code response <> 200%Z ->
     async_update requests_post self =
       (Ok (set_attr_state self STATE_UNAVAILABLE),
        [EvPost (api_request self "/GetSecurityStatus" blob);
         EvLog ERROR "endpoint {endpoint} returned a {response.status_code}"
           [LStr "/GetSecurityStatus"; LInt (status_code response)];
         EvLog ERROR "unable to get alarm status" []])) /\
  (forall e,
     requests_post (api_request self "/GetSecurityStatus" blob) = Raise e ->
     async_update requests_post self =
       (Raise e, [EvPost (api_request self "/GetSecurityStatus" blob)])).
Proof.
  intros Henc. split.
  - intros response Hresp Hcode. apply Z.eqb_neq in Hcode.
    rewrite async_update_cases, post_request_cases, Henc, Hresp, Hcode. reflexivity.
  - intros e Hfail.
    rewrite async_update_cases, post_request_cases, Henc, Hfail. reflexivity.
Qed.

(** C5 (as amended): when the panel answers an arm request with a
    status code other than 200, [_post_request] sends that one request,
    logs the status code and returns [None]; [_alarm_arm] then returns
    normally, without sleeping and without scheduling an update.  The
    failure reaches the log only. *)
Theorem arm_http_error_is_only_logged (self : TuxedoTouch) (arm_name : string)
  (code : code_value) (blob : string) (response : Response) :
  code_is_None (resolved_code self code) = false ->
  encrypt_params (_cipher self) (arm_params arm_name (resolved_code self code)) = Ok blob ->
  requests_post (api_request self "/AdvancedSecurity/ArmWithCode" blob) = Ok response ->
  status_code response <> 200%Z ->
  _post_request requests_post self "/AdvancedSecurity/ArmWithCode"
      (arm_params arm_name (resolved_code self code)) =
    (Ok JNull,
     [EvPost (api_request self "/AdvancedSecurity/ArmWithCode" blob);
      EvLog ERROR "endpoint {endpoint} returned a {response.status_code}"
        [LStr "/AdvancedSecurity/ArmWithCode"; LInt (status_code response)]]) /\
  _alarm_arm requests_post self arm_name code =
    (Ok tt,
     [EvPost (api_request self "/AdvancedSecurity/ArmWithCode" blob);
      EvLog ERROR "endpoint {endpoint} returned a {response.status_code}"
        [LStr "/AdvancedSecurity/ArmWithCode"; LInt (status_code response)]]).
Proof.
  intros Hcode Henc Hresp Hstatus. apply Z.eqb_neq in Hstatus.
  assert (E : _post_request requests_post self "/AdvancedSecurity/ArmWithCode"
                (arm_params arm_name (resolved_code self code)) =
              (Ok JNull,
               [EvPost (api_request self "/AdvancedSecurity/ArmWithCode" blob);
                EvLog ERROR "endpoint {endpoint} returned a {response.status_code}"
                  [LStr "/AdvancedSecurity/ArmWithCode"; LInt (status_code response)]])).
  { now rewrite post_request_cases, Henc, Hresp, Hstatus. }
  split; [exact E|]. now rewrite alarm_arm_cases, Hcode, E.
Qed.

(** C9: after an arm or disarm request whose decoded acknowledgment is
    truthy, the call logs the result, sleeps for exactly 2 seconds, and
    only then schedules the state update; these are the last three events
    of the call, and the request itself neither sleeps nor schedules.
    With a falsy acknowledgment there is no sleep and no update. *)
Theorem settle_delay_after_acknowledgment (self : TuxedoTouch) (code : code_value) :
  code_is_None (resolved_code self code) = false ->
  (forall arm_name response trace,
     _post_request requests_post self "/AdvancedSecurity/ArmWithCode"
       (arm_params arm_name (resolved_code self code)) = (Ok response, trace) ->
     _alarm_arm requests_post self arm_name code =
       if json_truthy response then
         (Ok tt,
          trace ++ [EvLog INFO "api_arm_request %s result: %s" [LStr arm_name; LJson response];
                    EvSleep 2; EvScheduleUpdate])
       else (Ok tt, trace)) /\
  (forall response trace,
     _post_request requests_post self "/AdvancedSecurity/DisarmWithCode"
       (disarm_params (resolved_code self code)) = (Ok response, trace) ->
     async_alarm_disarm requests_post self code =
       if json_truthy response then
         (Ok tt,
          trace ++ [EvLog INFO "api_disarm_request result: %s" [LJson response];
                    EvSleep 2; EvScheduleUpdate])
       else (Ok tt, trace)) /\
  (forall arm_name ev,
     In ev (snd (_post_request requests_post self "/AdvancedSecurity/ArmWithCode"
                   (arm_params arm_name (resolved_code self code))))
     \/ In ev (snd (_post_request requests_post self "/AdvancedSecurity/DisarmWithCode"
                      (disarm_params (resolved_code self code)))) ->
     ev <> EvScheduleUpdate /\ forall seconds, ev <> EvSleep seconds).
Proof.
  intros Hcode. split; [|split].
  - intros arm_name response trace Hpost. now rewrite alarm_arm_cases, Hcode, Hpost.
  - intros response trace Hpost. now rewrite alarm_disarm_cases, Hcode, Hpost.
  - intros arm_name ev H.
    assert (Hev : (exists request, ev = EvPost request) \/
                  (exists lvl fmt args, ev = EvLog lvl fmt args)).
    { destruct H as [H|H]; apply post_request_trace in H;
        destruct H as [(b & _ & ->)|(l & f & a & ->)]; eauto 6. }
    destruct Hev as [(r & ->)|(l & f & a & ->)]; split; try intros seconds; discriminate.
Qed.

(** Whatever the call-supplied code, the request of an arm or disarm call
    carries the parameters with [str] of the resolved code as [ucode]. *)
Lemma requests_carry_resolved_code (self : TuxedoTouch) (arm_name : string)
  (code : code_value) (request : Request) :
  (In (EvPost request) (snd (_alarm_arm requests_post self arm_name code)) ->
   exists blob,
     request = api_request self "/AdvancedSecurity/ArmWithCode" blob /\
     encrypt_params (_cipher self)
       [("arming", arm_name); ("pID", "1");
        ("ucode", code_str (resolved_code self code)); ("operation", "set")] = Ok blob) /\
  (In (EvPost request) (snd (async_alarm_disarm requests_post self code)) ->
   exists blob,
     request = api_request self "/AdvancedSecurity/DisarmWithCode" blob /\
     encrypt_params (_cipher self)
       [("pID", "1"); ("ucode", code_str (resolved_code self code));
        ("operation", "set")] = Ok blob).
Proof.
  split.
  - rewrite alarm_arm_cases.
    destruct (code_is_None _); [cbn; intros [E|[]]; discriminate|].
    pose proof (post_request_trace requests_post self "/AdvancedSecurity/ArmWithCode"
                  (arm_params arm_name (resolved_code self code)) (EvPost request)) as Htr.
    assert (Hpost : In (EvPost request)
                      (snd (_post_request requests_post self "/AdvancedSecurity/ArmWithCode"
                              (arm_params arm_name (resolved_code self code)))) ->
                    exists blob,
                      request = api_request self "/AdvancedSecurity/ArmWithCode" blob /\
                      encrypt_params (_cipher self)
                        (arm_params arm_name (resolved_code self code)) = Ok blob).
    { intros Hin. destruct (Htr Hin) as [(blob & Hb & E)|(l & f & a & E)]; [|discriminate].
      inversion E; subst. eauto. }
    clear Htr. destruct (_post_request _ _ _ _) as [[response|e] trace]; cbn [snd] in *;
      [|exact Hpost].
    destruct (json_truthy response); cbn [snd]; [|exact Hpost].
    intros Hin. apply in_app_or in Hin. destruct Hin as [Hin|Hin]; [now apply Hpost|].
    cbn in Hin. destruct Hin as [E|[E|[E|[]]]]; discriminate.
  - rewrite alarm_disarm_cases.
    destruct (code_is_None _); [cbn; intros [E|[]]; discriminate|].
    pose proof (post_request_trace requests_post self "/AdvancedSecurity/DisarmWithCode"
                  (disarm_params (resolved_code self code)) (EvPost request)) as Htr.
    assert (Hpost : In (EvPost request)
                      (snd (_post_request requests_post self "/AdvancedSecurity/DisarmWithCode"
                              (disarm_params (resolved_code self code)))) ->
                    exists blob,
                      request = api_request self "/AdvancedSecurity/DisarmWithCode" blob /\
                      encrypt_params (_cipher self)
                        (disarm_params (resolved_code self code)) = Ok blob).
    { intros Hin. destruct (Htr Hin) as [(blob & Hb & E)|(l & f & a & E)]; [|discriminate].
      inversion E; subst. eauto. }
    clear Htr. destruct (_post_request _ _ _ _) as [[response|e] trace]; cbn [snd] in *;
      [|exact Hpost].
    destruct (json_truthy response); cbn [snd]; [|exact Hpost].
    intros Hin. apply in_app_or in Hin. destruct Hin as [Hin|Hin]; [now apply Hpost|].
    cbn in Hin. destruct Hin as [E|[E|[E|[]]]]; discriminate.
Qed.

(** C10: the call-supplied code is tested for truthiness.  With a falsy
    code (the empty string, zero) the code resolves to the configured
    default, and the arm or disarm call is the very call made with no code
    at all.  Any request the call sends carries, encrypted, the parameters
    with [str] of the resolved code as [ucode].  And the request is sent:
    with a falsy code, a configured default and valid key material, the
    call sends exactly one request, to the endpoint of the call, whose
    [param] field is the encryption of the parameters with [str] of the
    default as [ucode]. *)
Theorem falsy_code_falls_back_to_default (self : TuxedoTouch) (arm_name : string)
  (code : code_value) :
  (code_truthy code = false ->
   resolved_code self code = _code self /\
   _alarm_arm requests_post self arm_name code
     = _alarm_arm requests_post self arm_name CNone /\
   async_alarm_disarm requests_post self code
     = async_alarm_disarm requests_post self CNone) /\
  (forall request,
     In (EvPost request) (snd (_alarm_arm requests_post self arm_name code)) ->
     exists blob,
       request = api_request self "/AdvancedSecurity/ArmWithCode" blob /\
       encrypt_params (_cipher self)
         [("arming", arm_name); ("pID", "1");
          ("ucode", code_str (resolved_code self code)); ("operation", "set")] = Ok blob) /\
  (forall request,
     In (EvPost request) (snd (async_alarm_disarm requests_post self code)) ->
     exists blob,
       request = api_request self "/AdvancedSecurity/DisarmWithCode" blob /\
       encrypt_params (_cipher self)
         [("pID", "1"); ("ucode", code_str (resolved_code self code));
          ("operation", "set")] = Ok blob) /\
  (code_truthy code = false -> code_is_None (_code self) = false ->
   valid_material (_cipher self) = true ->
   exists blob_arm blob_disarm,
     encrypt_params (_cipher self)
       [("arming", arm_name); ("pID", "1"); ("ucode", code_str (_code self));
        ("operation", "set")] = Ok blob_arm /\
     encrypt_params (_cipher self)
       [("pID", "1"); ("ucode", code_str (_code self)); ("operation", "set")]
       = Ok blob_disarm /\
     filter is_post (snd (_alarm_arm requests_post self arm_name code))
       = [EvPost (api_request self "/AdvancedSecurity/ArmWithCode" blob_arm)] /\
     filter is_post (snd (async_alarm_disarm requests_post self code))
       = [EvPost (api_request self "/AdvancedSecurity/DisarmWithCode" blob_disarm)]).
Proof.
  split; [|split; [|split]].
  - intros Hfalsy. split; [|split].
    + unfold resolved_code. now rewrite Hfalsy.
    + unfold _alarm_arm. now rewrite Hfalsy.
    + unfold async_alarm_disarm. now rewrite Hfalsy.
  - intros request. apply requests_carry_resolved_code.
  - intros request. apply (requests_carry_resolved_code self arm_name).
  - intros Hfalsy Hdefault Hvalid.
    assert (Hresolved : resolved_code self code = _code self).
    { unfold resolved_code. now rewrite Hfalsy. }
    destruct (encrypt_params_fixed_iv (_cipher self) (arm_params arm_name (_code self))
                Hvalid) as (final & out & _ & Harm).
    destruct (encrypt_params_fixed_iv (_cipher self) (disarm_params (_code self)) Hvalid)
      as (final' & out' & _ & Hdisarm).
    do 2 eexists. split; [exact Harm|]. split; [exact Hdisarm|]. split.
    + apply alarm_arm_posts; rewrite Hresolved; [exact Hdefault | exact Harm].
    + apply alarm_disarm_posts; rewrite Hresolved; [exact Hdefault | exact Hdisarm].
Qed.

End ControllerClaims.

(** ** The claims on a concrete panel *)

(** C2, on the test data. *)
Lemma status_interpretation_total_witness :
  async_update (panel_answers 200 (dq "{'Status': '45 Secs Remaining'}")) test_panel =
    (Ok (set_attr_state test_panel (interpret "45 Secs Remaining")),
     snd (_post_request (panel_answers 200 (dq "{'Status': '45 Secs Remaining'}"))
            test_panel "/GetSecurityStatus" [("operation", "get")])
     ++ [EvLog INFO "current alarm status: {status}" [LJson (JStr "45 Secs Remaining")]]) /\
  interpret "45 Secs Remaining" = STATE_ALARM_ARMING /\
  interpret "Entry Delay Active" = STATE_UNAVAILABLE.
Proof.
  destruct (status_interpretation_total
              (panel_answers 200 (dq "{'Status': '45 Secs Remaining'}")) test_panel
              (JObj [("Status", JStr "45 Secs Remaining")])
              (snd (_post_request (panel_answers 200 (dq "{'Status': '45 Secs Remaining'}"))
                      test_panel "/GetSecurityStatus" [("operation", "get")]))
              "45 Secs Remaining")
    as (Hupdate & _ & _ & _ & _ & Harming & _);
    [vm_compute; reflexivity | reflexivity | reflexivity |].
  split; [exact Hupdate|]. split; [apply Harming; reflexivity | reflexivity].
Defined.

(** C3, counterexample: with no code at all, an arm or disarm call does
    not fail.  It returns normally, with the same value as a call that the
    panel acknowledged; no error is handed to the caller. *)
Lemma missing_code_returns_normally :
  fst (_alarm_arm panel_unreachable (with_code test_panel CNone) "AWAY" CNone) = Ok tt /\
  fst (async_alarm_disarm panel_unreachable (with_code test_panel CNone) CNone) = Ok tt /\
  fst (_alarm_arm (panel_answers 200 (dq "{'Ack': 1}")) test_panel "AWAY" (CStr "1234")) = Ok tt.
Proof. repeat split; vm_compute; reflexivity. Qed.

(** C3, on the test data: a panel without a default called with an empty
    code, and a panel whose default is 4321 called with 9999. *)
Lemma missing_code_fails_locally_witness :
  (_alarm_arm panel_unreachable (with_code test_panel CNone) "AWAY" (CStr "")
     = (Ok tt, [EvLog WARNING "arm code is missing" []]) /\
   async_alarm_disarm panel_unreachable (with_code test_panel CNone) (CStr "")
     = (Ok tt, [EvLog WARNING "disarm code is missing" []])) /\
  exists blob_arm blob_disarm,
    encrypt_params (_cipher test_panel)
      [("arming", "AWAY"); ("pID", "1"); ("ucode", "9999"); ("operation", "set")]
      = Ok blob_arm /\
    encrypt_params (_cipher test_panel)
      [("pID", "1"); ("ucode", "9999"); ("operation", "set")] = Ok blob_disarm /\
    filter is_post
      (snd (_alarm_arm panel_unreachable (with_code test_panel (CInt 4321)) "AWAY"
              (CStr "9999")))
      = [EvPost (api_request test_panel "/AdvancedSecurity/ArmWithCode" blob_arm)] /\
    filter is_post
      (snd (async_alarm_disarm panel_unreachable (with_code test_panel (CInt 4321))
              (CStr "9999")))
      = [EvPost (api_request test_panel "/AdvancedSecurity/DisarmWithCode" blob_disarm)].
Proof.
  split.
  - refine (proj1 (missing_code_fails_locally panel_unreachable (with_code test_panel CNone)
                     "AWAY" (CStr "")) _ _); reflexivity.
  - destruct (proj2 (missing_code_fails_locally panel_unreachable test_panel "AWAY"
                       (CStr "9999")) ltac:(reflexivity)) as (_ & _ & Hsent).
    destruct (Hsent ltac:(vm_compute; reflexivity))
      as (blob_arm & blob_disarm & Harm & Hdisarm & Hposts).
    exists blob_arm, blob_disarm.
    split; [exact Harm|]. split; [exact Hdisarm|]. exact (Hposts (CInt 4321)).
Defined.

(** C4, counterexample: with a panel that refuses the connection,
    [async_update] raises [ConnectionError]; no state is reported. *)
Lemma status_poll_raises_when_unreachable :
  fst (async_update panel_unreachable test_panel)
    = Raise (ConnectionError "Connection refused") /\
  _attr_state test_panel = None.
Proof. split; vm_compute; reflexivity. Qed.

(** C4, on the test data. *)
Lemma status_poll_degrades_on_http_error_witness :
  exists blob,
    encrypt_params (_cipher test_panel) [("operation", "get")] = Ok blob /\
    async_update (panel_answers 500 []) test_panel =
      (Ok (set_attr_state test_panel STATE_UNAVAILABLE),
       [EvPost (api_request test_panel "/GetSecurityStatus" blob);
        EvLog ERROR "endpoint {endpoint} returned a {response.status_code}"
          [LStr "/GetSecurityStatus"; LInt 500];
        EvLog ERROR "unable to get alarm status" []]).
Proof.
  eexists. split; [vm_compute; reflexivity|].
  refine (proj1 (status_poll_degrades_on_http_error (panel_answers 500 []) test_panel _ _)
            {| status_code := 500;
               response_json := blob <- panel_encrypt test_cipher [] ;;
                                Ok (JObj [("Result", JStr blob)]) |} _ _);
    [vm_compute; reflexivity | reflexivity | discriminate].
Defined.

(** C5, counterexample: on HTTP 500 the arm call returns normally, with
    the same value as a call that the panel acknowledged; no error is
    handed to the caller. *)
Lemma arm_returns_normally_on_http_500 :
  fst (_alarm_arm (panel_answers 500 []) test_panel "AWAY" (CStr "1234")) = Ok tt /\
  fst (_alarm_arm (panel_answers 200 (dq "{'Ack': 1}")) test_panel "AWAY" (CStr "1234")) = Ok tt.
Proof. split; vm_compute; reflexivity. Qed.

(** C5, on the test data. *)
Lemma arm_http_error_is_only_logged_witness :
  exists blob,
    encrypt_params (_cipher test_panel) (arm_params "AWAY" (CStr "1234")) = Ok blob /\
    _alarm_arm (panel_answers 500 []) test_panel "AWAY" (CStr "1234") =
      (Ok tt,
       [EvPost (api_request test_panel "/AdvancedSecurity/ArmWithCode" blob);
        EvLog ERROR "endpoint {endpoint} returned a {response.status_code}"
          [LStr "/AdvancedSecurity/ArmWithCode"; LInt 500]]).
Proof.
  eexists. split; [vm_compute; reflexivity|].
  refine (proj2 (arm_http_error_is_only_logged (panel_answers 500 []) test_panel "AWAY"
                   (CStr "1234") _
                   {| status_code := 500;
                      response_json := blob <- panel_encrypt test_cipher [] ;;
                                       Ok (JObj [("Result", JStr blob)]) |} _ _ _ _));
    [reflexivity | vm_compute; reflexivity | reflexivity | discriminate].
Defined.

(** C9, on the test data. *)
Lemma settle_delay_after_acknowledgment_witness :
  _alarm_arm (panel_answers 200 (dq "{'Ack': 1}")) test_panel "STAY" (CStr "1234") =
    (Ok tt,
     snd (_post_request (panel_answers 200 (dq "{'Ack': 1}")) test_panel
            "/AdvancedSecurity/ArmWithCode" (arm_params "STAY" (CStr "1234")))
     ++ [EvLog INFO "api_arm_request %s result: %s"
           [LStr "STAY"; LJson (JObj [("Ack", JInt 1)])];
         EvSleep 2; EvScheduleUpdate]).
Proof.
  refine (proj1 (settle_delay_after_acknowledgment (panel_answers 200 (dq "{'Ack': 1}"))
                   test_panel (CStr "1234") _)
            "STAY" (JObj [("Ack", JInt 1)]) _ _);
    [reflexivity | vm_compute; reflexivity].
Defined.

(** C10, on the test data: the panel whose default is 1234, called with
    the empty string. *)
Lemma falsy_code_falls_back_to_default_witness :
  (resolved_code test_panel (CStr "") = CInt 1234 /\
   _alarm_arm panel_unreachable test_panel "AWAY" (CStr "")
     = _alarm_arm panel_unreachable test_panel "AWAY" CNone /\
   async_alarm_disarm panel_unreachable test_panel (CStr "")
     = async_alarm_disarm panel_unreachable test_panel CNone) /\
  exists blob_arm blob_disarm,
    encrypt_params (_cipher test_panel)
      [("arming", "AWAY"); ("pID", "1"); ("ucode", "1234"); ("operation", "set")]
      = Ok blob_arm /\
    encrypt_params (_cipher test_panel)
      [("pID", "1"); ("ucode", "1234"); ("operation", "set")] = Ok blob_disarm /\
    filter is_post (snd (_alarm_arm panel_unreachable test_panel "AWAY" (CStr "")))
      = [EvPost (api_request test_panel "/AdvancedSecurity/ArmWithCode" blob_arm)] /\
    filter is_post (snd (async_alarm_disarm panel_unreachable test_panel (CStr "")))
      = [EvPost (api_request test_panel "/AdvancedSecurity/DisarmWithCode" blob_disarm)].
Proof.
  destruct (falsy_code_falls_back_to_default panel_unreachable test_panel "AWAY" (CStr ""))
    as (Hfalsy & _ & _ & Hsent).
  split; [apply Hfalsy; reflexivity|].
  exact (Hsent ltac:(reflexivity) ltac:(reflexivity) ltac:(vm_compute; reflexivity)).
Defined.

(** The specification's scenarios, on the model. *)
Example scenario_armed_away :
  option_map _attr_state
    (match fst (async_update (panel_answers 200 (dq "{'Status': 'Armed Away'}")) test_panel) with
     | Ok p => Some p
     | Raise _ => None
     end) = Some (Some STATE_ALARM_ARMED_AWAY).
Proof. vm_compute. reflexivity. Qed.

Example scenario_default_code_is_sent :
  map (fun ev => match ev with EvPost r => decrypt_bytes test_cipher
                                             (JStr (snd (hd ("", "") (data r))))
                          | _ => Ok [] end)
      (snd (_alarm_arm panel_unreachable test_panel "AWAY" (CStr "")))
  = [Ok (urlencode [("arming", "AWAY"); ("pID", "1"); ("ucode", "1234");
                    ("operation", "set")])].
Proof. vm_compute. reflexivity. Qed.

(* ================================================================== *)
(** * Part IV: further properties of the code                          *)
(* ================================================================== *)

(** ** The codec, from the panel's side *)

(** A cipher that encrypts has valid key material: [AES.new] is the only
    step of [encrypt_params] that can fail. *)
Lemma encrypt_params_valid (self : Cipher) (params : list (string * string)) (blob : string) :
  encrypt_params self params = Ok blob -> valid_material self = true.
Proof.
  intros Henc. destruct (valid_material self) eqn:Hvalid; [reflexivity|].
  destruct (AES_new_CBC_invalid _ Hvalid) as (msg & Hnew).
  unfold encrypt_params in Henc. rewrite Hnew in Henc. discriminate.
Qed.

(** The stages of [decrypt_params] before [json.loads] undo the padding,
    the CBC encryption and the base64 encoding of any data. *)
Lemma decrypt_bytes_panel_encrypt (self : Cipher) (data : list byte) :
  valid_material self = true ->
  exists blob,
    panel_encrypt self data = Ok blob /\ decrypt_bytes self (JStr blob) = Ok data.
Proof.
  intros Hvalid.
  set (ks := key_schedule (_key_bin self)). set (iv := iv_state (_iv_bin self)).
  destruct (cbc_encrypt_blocks_aligned ks (pad data 16)
              (pad_length _ 16 ltac:(lia)) iv) as (final & out & Henc).
  pose proof (cbc_decrypt_encrypt_blocks _ _ _ _ _ Henc) as Hdec.
  exists (string_of_list_byte (b2a_base64 out)). split.
  - unfold panel_encrypt, panel_encrypt_raw.
    rewrite (AES_new_CBC_valid _ Hvalid). cbn [bind].
    unfold CbcMode_encrypt. cbn [cbc_allowed cbc_round_keys cbc_chain].
    fold ks iv. now rewrite Henc.
  - unfold decrypt_bytes. rewrite (AES_new_CBC_valid _ Hvalid). cbn [bind a2b_base64_arg].
    rewrite a2b_base64_b2a_base64. cbn [bind].
    unfold CbcMode_decrypt. cbn [cbc_allowed cbc_round_keys cbc_chain].
    fold ks iv. rewrite Hdec. cbn [bind snd].
    apply unpad_pad. unfold block_size. lia.
Qed.

(** [encrypt_params] is the panel's encryption of the URL-encoded form. *)
Lemma encrypt_params_panel_encrypt (self : Cipher) (params : list (string * string)) :
  encrypt_params self params = panel_encrypt self (urlencode params).
Proof.
  unfold encrypt_params, panel_encrypt, panel_encrypt_raw, bind.
  destruct (AES_new_CBC _ _); [|reflexivity].
  destruct (CbcMode_encrypt _ _); reflexivity.
Qed.

Lemma decrypt_bytes_encrypt_params (self : Cipher) (params : list (string * string))
  (blob : string) :
  encrypt_params self params = Ok blob ->
  decrypt_bytes self (JStr blob) = Ok (urlencode params).
Proof.
  intros Henc.
  destruct (decrypt_bytes_panel_encrypt self (urlencode params)
              (encrypt_params_valid _ _ _ Henc)) as (blob' & Hblob & Hdec).
  rewrite encrypt_params_panel_encrypt in Henc. congruence.
Qed.

(** X1: [decrypt_params] reads what the panel writes.  For a cipher with
    valid key material and any document, the blob obtained by padding the
    document to whole blocks, encrypting it in CBC mode under the shared
    key and iv and writing it in base64 is decoded by [decrypt_params] to
    [json.loads] of that very document: the stages before the parser give
    the document back byte for byte. *)
Theorem decrypt_params_reads_panel_document (self : Cipher) (document : list byte) :
  valid_material self = true ->
  exists blob,
    panel_encrypt self document = Ok blob /\
    decrypt_bytes self (JStr blob) = Ok document /\
    decrypt_params self (JStr blob) = json_loads document.
Proof.
  intros Hvalid.
  destruct (decrypt_bytes_panel_encrypt self document Hvalid) as (blob & Henc & Hdec).
  exists blob. split; [exact Henc|]. split; [exact Hdec|].
  now rewrite decrypt_params_stages, Hdec.
Qed.

Lemma decrypt_params_reads_panel_document_witness :
  valid_material test_cipher = true /\
  exists blob,
    panel_encrypt test_cipher (dq "{'Status':'Armed Stay'}") = Ok blob /\
    decrypt_bytes test_cipher (JStr blob) = Ok (dq "{'Status':'Armed Stay'}") /\
    decrypt_params test_cipher (JStr blob) = json_loads (dq "{'Status':'Armed Stay'}").
Proof.
  split; [vm_compute; reflexivity|].
  apply (decrypt_params_reads_panel_document test_cipher (dq "{'Status':'Armed Stay'}")).
  vm_compute; reflexivity.
Defined.

(** ** The size of a blob *)

Lemma b2a_groups_length (data : list byte) :
  List.length (b2a_groups data) = (4 * ((List.length data + 2) / 3))%nat.
Proof.
  induction data as [|a|a b|a b c rest IH] using triples_ind; try reflexivity.
  cbn [b2a_groups]. cbv zeta. cbn [List.length]. rewrite IH.
  replace (S (S (S (List.length rest))) + 2)%nat
    with ((List.length rest + 2) + 1 * 3)%nat by lia.
  rewrite Nat.div_add by lia. lia.
Qed.

Lemma length_string_of_list_byte (l : list byte) :
  String.length (string_of_list_byte l) = List.length l.
Proof.
  rewrite <- length_list_byte_of_string. now rewrite list_byte_of_string_of_list_byte.
Qed.

(** X2: the size of a blob depends on the size of the form only.  With
    valid key material [encrypt_params] returns one line of base64 that
    decodes to whole 16-byte blocks: one block more than the number of
    whole blocks of the URL-encoded form (PKCS#7 always adds padding, a
    whole block when the form is already aligned), and the blob has four
    characters for every three bytes of it, rounded up, and a newline. *)
Theorem encrypt_params_blob_length (self : Cipher) (params : list (string * string)) :
  valid_material self = true ->
  exists blob raw,
    encrypt_params self params = Ok blob /\
    a2b_base64 blob = Ok raw /\
    List.length raw = (16 * (List.length (urlencode params) / 16 + 1))%nat /\
    String.length blob = (4 * ((List.length raw + 2) / 3) + 1)%nat.
Proof.
  intros Hvalid.
  destruct (encrypt_params_fixed_iv self params Hvalid) as (final & out & Hcbc & Henc).
  exists (string_of_list_byte (b2a_base64 out)), out.
  split; [exact Henc|]. split; [apply a2b_base64_b2a_base64|]. split.
  - rewrite (cbc_encrypt_blocks_length _ _ _ _ _ Hcbc).
    unfold pad. rewrite length_app, repeat_length.
    pose proof (Nat.div_mod_eq (List.length (urlencode params)) 16).
    pose proof (Nat.mod_upper_bound (List.length (urlencode params)) 16 ltac:(lia)).
    lia.
  - rewrite length_string_of_list_byte. unfold b2a_base64.
    rewrite length_app, b2a_groups_length. cbn [List.length]. lia.
Qed.

Lemma encrypt_params_blob_length_witness :
  valid_material test_cipher = true /\
  exists blob raw,
    encrypt_params test_cipher [("operation", "get")] = Ok blob /\
    a2b_base64 blob = Ok raw /\
    List.length raw = (16 * (List.length (urlencode [("operation", "get")]) / 16 + 1))%nat /\
    String.length blob = (4 * ((List.length raw + 2) / 3) + 1)%nat.
Proof.
  split; [vm_compute; reflexivity|].
  apply (encrypt_params_blob_length test_cipher [("operation", "get")]).
  vm_compute; reflexivity.
Defined.

Lemma string_append_assoc (s t u : string) :
  ((s ++ t) ++ u = s ++ (t ++ u))%string.
Proof. induction s as [|a s IH]; cbn; [reflexivity | now rewrite IH]. Qed.

(** ** The controller: answers that are not as expected *)

Section ControllerExtras.

Variable requests_post : Request -> exc Response.

(** X3: a 200 answer that is not a JSON object with a text [Result] makes
    [_post_request] raise after its one request, with no log record: the
    exception of [response.json()] as it is, a [TypeError] when the body
    is not an object, [KeyError('Result')] when the object has no
    [Result], and a [TypeError] when [Result] is not a string (the
    argument of [a2b_base64]). *)
Theorem post_request_body_errors (self : TuxedoTouch) (endpoint : string)
  (params : list (string * string)) (blob : string) (response : Response) :
  encrypt_params (_cipher self) params = Ok blob ->
  requests_post (api_request self endpoint blob) = Ok response ->
  status_code response = 200%Z ->
  (forall e, response_json response = Raise e ->
     _post_request requests_post self endpoint params =
       (Raise e, [EvPost (api_request self endpoint blob)])) /\
  (forall body, response_json response = Ok body ->
     (forall members, body <> JObj members) ->
     exists msg,
       _post_request requests_post self endpoint params =
         (Raise (TypeError msg), [EvPost (api_request self endpoint blob)])) /\
  (forall members, response_json response = Ok (JObj members) ->
     dict_get members "Result" = None ->
     _post_request requests_post self endpoint params =
       (Raise (KeyError "Result"), [EvPost (api_request self endpoint blob)])) /\
  (forall members result, response_json response = Ok (JObj members) ->
     dict_get members "Result" = Some result ->
     (forall text, result <> JStr text) ->
     exists msg,
       _post_request requests_post self endpoint params =
         (Raise (TypeError msg), [EvPost (api_request self endpoint blob)])).
Proof.
  intros Henc Hresp Hstatus.
  assert (Hcases : _post_request requests_post self endpoint params =
                   (body <- response_json response ;;
                    result <- json_getitem body "Result" ;;
                    decrypt_params (_cipher self) result,
                    [EvPost (api_request self endpoint blob)])).
  { now rewrite post_request_cases, Henc, Hresp, Hstatus. }
  rewrite Hcases. clear Hcases.
  split; [|split; [|split]].
  - intros e ->. reflexivity.
  - intros body -> Hbody. cbn [bind].
    destruct body; cbn [json_getitem bind]; eauto.
    now contradiction (Hbody members).
  - intros members -> Hget. cbn [bind json_getitem]. now rewrite Hget.
  - intros members result -> Hget Hresult. cbn [bind json_getitem]. rewrite Hget.
    cbn [bind]. unfold decrypt_params.
    rewrite (AES_new_CBC_valid _ (encrypt_params_valid _ _ _ Henc)). cbn [bind].
    destruct result; cbn [a2b_base64_arg bind]; eauto. now contradiction (Hresult s).
Qed.

(** X4: no method of the entity catches an exception of the request:
    whatever [_post_request] raises leaves [async_update], [_alarm_arm] and
    [async_alarm_disarm] as it is, the trace of the call is that of the
    request, so that nothing is logged after it, no state is set, and
    there is neither a sleep nor a scheduled update. *)
Theorem request_errors_are_not_caught (self : TuxedoTouch) (arm_name : string)
  (code : code_value) (e : exn) (trace : list event) :
  (_post_request requests_post self "/GetSecurityStatus" [("operation", "get")]
     = (Raise e, trace) ->
   async_update requests_post self = (Raise e, trace)) /\
  (code_is_None (resolved_code self code) = false ->
   _post_request requests_post self "/AdvancedSecurity/ArmWithCode"
     (arm_params arm_name (resolved_code self code)) = (Raise e, trace) ->
   _alarm_arm requests_post self arm_name code = (Raise e, trace)) /\
  (code_is_None (resolved_code self code) = false ->
   _post_request requests_post self "/AdvancedSecurity/DisarmWithCode"
     (disarm_params (resolved_code self code)) = (Raise e, trace) ->
   async_alarm_disarm requests_post self code = (Raise e, trace)).
Proof.
  split; [|split].
  - intros H. now rewrite async_update_cases, H.
  - intros Hcode H. now rewrite alarm_arm_cases, Hcode, H.
  - intros Hcode H. now rewrite alarm_disarm_cases, Hcode, H.
Qed.

Lemma count_posts_app (t t' : list event) :
  count_posts (t ++ t') = (count_posts t + count_posts t')%nat.
Proof. unfold count_posts. now rewrite filter_app, length_app. Qed.

(** A call of [_post_request] sends one request when the parameters could
    be encrypted and none otherwise. *)
Lemma post_request_count (self : TuxedoTouch) (endpoint : string)
  (params : list (string * string)) :
  count_posts (snd (_post_request requests_post self endpoint params)) =
  if valid_material (_cipher self) then 1%nat else 0%nat.
Proof.
  rewrite post_request_cases.
  destruct (encrypt_params (_cipher self) params) as [blob|e] eqn:Henc.
  - rewrite (encrypt_params_valid _ _ _ Henc).
    destruct (requests_post _) as [response|e]; [|reflexivity].
    destruct (Z.eqb (status_code response) 200); reflexivity.
  - destruct (valid_material (_cipher self)) eqn:Hvalid; [|reflexivity].
    destruct (encrypt_params_fixed_iv _ params Hvalid) as (? & ? & _ & Hok). congruence.
Qed.

(** X5: no method retries.  Whatever the network answers, a status poll
    sends exactly one request when the key material is valid and none
    when it is not, and an arm or disarm call sends at most one: none
    when no code is available or the key material is invalid. *)
Theorem at_most_one_request (self : TuxedoTouch) (arm_name : string) (code : code_value) :
  count_posts (snd (async_update requests_post self)) =
    (if valid_material (_cipher self) then 1%nat else 0%nat) /\
  count_posts (snd (_alarm_arm requests_post self arm_name code)) =
    (if code_is_None (resolved_code self code) then 0%nat
     else if valid_material (_cipher self) then 1%nat else 0%nat) /\
  count_posts (snd (async_alarm_disarm requests_post self code)) =
    (if code_is_None (resolved_code self code) then 0%nat
     else if valid_material (_cipher self) then 1%nat else 0%nat).
Proof.
  split; [|split].
  - rewrite async_update_cases.
    pose proof (post_request_count self "/GetSecurityStatus" [("operation", "get")]) as Hc.
    destruct (_post_request _ _ _ _) as [[response|e] trace]; cbn [snd] in *; [|exact Hc].
    destruct (json_truthy response).
    + destruct (json_getitem response "Status") as [status|e]; [|exact Hc].
      destruct (status_branches status); cbn [snd]; [|exact Hc].
      rewrite count_posts_app, Hc. cbn. lia.
    + cbn [snd]. rewrite count_posts_app, Hc. cbn. lia.
  - rewrite alarm_arm_cases. destruct (code_is_None _); [reflexivity|].
    pose proof (post_request_count self "/AdvancedSecurity/ArmWithCode"
                  (arm_params arm_name (resolved_code self code))) as Hc.
    destruct (_post_request _ _ _ _) as [[response|e] trace]; cbn [snd] in *; [|exact Hc].
    destruct (json_truthy response); cbn [snd]; [|exact Hc].
    rewrite count_posts_app, Hc. cbn. lia.
  - rewrite alarm_disarm_cases. destruct (code_is_None _); [reflexivity|].
    pose proof (post_request_count self "/AdvancedSecurity/DisarmWithCode"
                  (disarm_params (resolved_code self code))) as Hc.
    destruct (_post_request _ _ _ _) as [[response|e] trace]; cbn [snd] in *; [|exact Hc].
    destruct (json_truthy response); cbn [snd]; [|exact Hc].
    rewrite count_posts_app, Hc. cbn. lia.
Qed.

(** X6: a status poll end to end.  When the panel answers the status
    request with 200 and a body whose [Result] is the encryption of a
    JSON document, [_post_request] returns the parsed document after its
    one request.  An empty or falsy document makes [async_update] report
    unavailable with an error record; a document with a text [Status]
    makes it report the state of the table and log the status; in both
    cases it returns normally. *)
Theorem status_poll_decodes_answer (self : TuxedoTouch) (blob answer : string)
  (response : Response) (body : json) (document : list byte) (payload : json) :
  encrypt_params (_cipher self) [("operation", "get")] = Ok blob ->
  requests_post (api_request self "/GetSecurityStatus" blob) = Ok response ->
  status_code response = 200%Z ->
  response_json response = Ok body ->
  json_getitem body "Result" = Ok (JStr answer) ->
  panel_encrypt (_cipher self) document = Ok answer ->
  json_loads document = Ok payload ->
  _post_request requests_post self "/GetSecurityStatus" [("operation", "get")] =
    (Ok payload, [EvPost (api_request self "/GetSecurityStatus" blob)]) /\
  (json_truthy payload = false ->
   async_update requests_post self =
     (Ok (set_attr_state self STATE_UNAVAILABLE),
      [EvPost (api_request self "/GetSecurityStatus" blob);
       EvLog ERROR "unable to get alarm status" []])) /\
  (forall raw, json_getitem payload "Status" = Ok (JStr raw) ->
   async_update requests_post self =
     (Ok (set_attr_state self (interpret raw)),
      [EvPost (api_request self "/GetSecurityStatus" blob);
       EvLog INFO "current alarm status: {status}" [LJson (JStr raw)]])).
Proof.
  intros Henc Hresp Hstatus Hbody Hresult Hanswer Hloads.
  assert (Hpost : _post_request requests_post self "/GetSecurityStatus"
                    [("operation", "get")] =
                  (Ok payload, [EvPost (api_request self "/GetSecurityStatus" blob)])).
  { rewrite post_request_cases, Henc, Hresp, Hstatus, Hbody. cbn [bind].
    rewrite Hresult. cbn [bind].
    destruct (decrypt_bytes_panel_encrypt (_cipher self) document
                (encrypt_params_valid _ _ _ Henc)) as (answer' & Hanswer' & Hdec).
    assert (answer' = answer) as -> by congruence.
    now rewrite decrypt_params_stages, Hdec, <- Hloads. }
  split; [exact Hpost|]. split.
  - intros Hfalsy. now rewrite async_update_cases, Hpost, Hfalsy.
  - intros raw Hraw. rewrite async_update_cases, Hpost.
    assert (json_truthy payload = true) as ->.
    { destruct payload; try discriminate. destruct members; [discriminate | reflexivity]. }
    rewrite Hraw. destruct (status_branches_interpret raw) as (state & -> & <-).
    reflexivity.
Qed.

(** X7: a decoded payload that is truthy but has no text [Status] makes
    [async_update] raise, once the request is done: [KeyError('Status')]
    when the object has no such member, a [TypeError] when the payload is
    not an object, and an [AttributeError] when [Status] is not a string
    (no value of another type equals one of the four literals, and none
    has [endswith]).  No state is set and the status is not logged. *)
Theorem status_poll_payload_errors (self : TuxedoTouch) (payload : json)
  (trace : list event) :
  _post_request requests_post self "/GetSecurityStatus" [("operation", "get")]
    = (Ok payload, trace) ->
  json_truthy payload = true ->
  (forall members, payload = JObj members -> dict_get members "Status" = None ->
     async_update requests_post self = (Raise (KeyError "Status"), trace)) /\
  ((forall members, payload <> JObj members) ->
     exists msg, async_update requests_post self = (Raise (TypeError msg), trace)) /\
  (forall status, json_getitem payload "Status" = Ok status ->
     (forall raw, status <> JStr raw) ->
     exists msg, async_update requests_post self = (Raise (AttributeError msg), trace)).
Proof.
  intros Hpost Htruthy. rewrite async_update_cases, Hpost, Htruthy.
  split; [|split].
  - intros members -> Hget. cbn [json_getitem]. now rewrite Hget.
  - intros Hshape. destruct payload; cbn [json_getitem]; eauto.
    now contradiction (Hshape members).
  - intros status -> Hstatus.
    destruct status; try (now contradiction (Hstatus s)); cbn; eauto.
Qed.

(** Every request of a method is the request of [_post_request] for some
    endpoint and blob. *)
Lemma update_requests (self : TuxedoTouch) (request : Request) :
  In (EvPost request) (snd (async_update requests_post self)) ->
  exists blob,
    request = api_request self "/GetSecurityStatus" blob /\
    encrypt_params (_cipher self) [("operation", "get")] = Ok blob.
Proof.
  rewrite async_update_cases.
  pose proof (post_request_trace requests_post self "/GetSecurityStatus"
                [("operation", "get")] (EvPost request)) as Htr.
  assert (Hpost : In (EvPost request)
                    (snd (_post_request requests_post self "/GetSecurityStatus"
                            [("operation", "get")])) ->
                  exists blob,
                    request = api_request self "/GetSecurityStatus" blob /\
                    encrypt_params (_cipher self) [("operation", "get")] = Ok blob).
  { intros Hin. destruct (Htr Hin) as [(blob & Hb & E)|(l & f & a & E)]; [|discriminate].
    inversion E; subst. eauto. }
  clear Htr. destruct (_post_request _ _ _ _) as [[response|e] trace]; cbn [snd] in *;
    [|exact Hpost].
  assert (Hlog : forall ev, (exists lvl fmt args, ev = EvLog lvl fmt args) ->
                   In (EvPost request) (trace ++ [ev]) ->
                   exists blob,
                     request = api_request self "/GetSecurityStatus" blob /\
                     encrypt_params (_cipher self) [("operation", "get")] = Ok blob).
  { intros ev (lvl & fmt & args & ->) Hin. apply in_app_or in Hin.
    destruct Hin as [Hin|[E|[]]]; [now apply Hpost | discriminate]. }
  destruct (json_truthy response).
  - destruct (json_getitem response "Status") as [status|e]; [|exact Hpost].
    destruct (status_branches status); cbn [snd]; [|exact Hpost].
    apply Hlog. eauto.
  - cbn [snd]. apply Hlog. eauto.
Qed.

(** X8: the three arm commands go to the same endpoint and differ in one
    field.  Whatever the network answers, a request sent by
    [async_alarm_arm_away], [async_alarm_arm_home] or
    [async_alarm_arm_night] is addressed to [ArmWithCode], and what the
    panel reads in it (the [param] field decrypted and re-parsed) is the
    partition 1, the operation [set], [str] of the resolved code as
    [ucode], and [AWAY], [STAY] or [NIGHT] as [arming]. *)
Theorem arm_commands_differ_in_arming_only (self : TuxedoTouch) (code : code_value)
  (request : Request) (command : TuxedoTouch -> code_value -> M unit) (arming : string) :
  In (command, arming)
     [(async_alarm_arm_away requests_post, "AWAY");
      (async_alarm_arm_home requests_post, "STAY");
      (async_alarm_arm_night requests_post, "NIGHT")] ->
  In (EvPost request) (snd (command self code)) ->
  url request = (_url self ++ "/AdvancedSecurity/ArmWithCode")%string /\
  panel_reads (_cipher self) request =
    Ok [("arming", arming); ("pID", "1");
        ("ucode", code_str (resolved_code self code)); ("operation", "set")].
Proof.
  intros Hcommand Hin.
  assert (Harm : command = (fun self code => _alarm_arm requests_post self arming code)).
  { destruct Hcommand as [E|[E|[E|[]]]]; inversion E; subst; reflexivity. }
  subst command.
  destruct (proj1 (requests_carry_resolved_code requests_post self arming code request)
              Hin) as (blob & -> & Henc).
  split; [reflexivity|].
  unfold panel_reads, api_request. cbn [data].
  rewrite (decrypt_bytes_encrypt_params _ _ _ Henc). cbn [bind].
  now rewrite parse_qsl_urlencode.
Qed.

(** X9: what a request gives away.  For an entity made by the constructor,
    every request of every method, whatever the network answers, goes to
    the API root of the configured address over https with certificate
    verification switched off, carries the key and the iv themselves in
    its [authtoken] and [identity] headers, and has the encrypted
    parameters as its only form field: the field is the blob that
    [encrypt_params] makes, under the cipher of that key and iv, of the
    parameters of the method that sent the request, and decrypting it
    gives their URL-encoded form. *)
Theorem requests_carry_key_and_iv (ip_address name secret_key initial_value : string)
  (code : code_value) (self : TuxedoTouch) (arm_name : string) (code' : code_value)
  (request : Request) :
  TuxedoTouch__init__ ip_address name secret_key initial_value code = Ok self ->
  In (EvPost request) (snd (async_update requests_post self)) \/
  In (EvPost request) (snd (_alarm_arm requests_post self arm_name code')) \/
  In (EvPost request) (snd (async_alarm_disarm requests_post self code')) ->
  verify request = false /\
  headers request = [("authtoken", secret_key); ("identity", initial_value)] /\
  (exists endpoint,
     url request =
       ("https://" ++ ip_address ++ "/system_http_api/API_REV01" ++ endpoint)%string) /\
  (exists params blob,
     data request = [("param", blob)] /\
     Cipher__init__ secret_key initial_value = Ok (_cipher self) /\
     encrypt_params (_cipher self) params = Ok blob /\
     decrypt_bytes (_cipher self) (JStr blob) = Ok (urlencode params) /\
     (In (EvPost request) (snd (async_update requests_post self)) /\
      params = [("operation", "get")] \/
      In (EvPost request) (snd (_alarm_arm requests_post self arm_name code')) /\
      params = [("arming", arm_name); ("pID", "1");
                ("ucode", code_str (resolved_code self code')); ("operation", "set")] \/
      In (EvPost request) (snd (async_alarm_disarm requests_post self code')) /\
      params = [("pID", "1"); ("ucode", code_str (resolved_code self code'));
                ("operation", "set")])).
Proof.
  intros Hinit Hin.
  assert (Hreq : exists endpoint params blob,
            request = api_request self endpoint blob /\
            encrypt_params (_cipher self) params = Ok blob /\
            (In (EvPost request) (snd (async_update requests_post self)) /\
             params = [("operation", "get")] \/
             In (EvPost request) (snd (_alarm_arm requests_post self arm_name code')) /\
             params = [("arming", arm_name); ("pID", "1");
                       ("ucode", code_str (resolved_code self code'));
                       ("operation", "set")] \/
             In (EvPost request) (snd (async_alarm_disarm requests_post self code')) /\
             params = [("pID", "1"); ("ucode", code_str (resolved_code self code'));
                       ("operation", "set")])).
  { destruct Hin as [Hin|[Hin|Hin]].
    - destruct (update_requests _ _ Hin) as (blob & E & Henc).
      exists "/GetSecurityStatus", [("operation", "get")], blob. auto.
    - destruct (proj1 (requests_carry_resolved_code requests_post self arm_name code'
                         request) Hin) as (blob & E & Henc).
      exists "/AdvancedSecurity/ArmWithCode". eexists. exists blob.
      split; [exact E|]. split; [exact Henc|]. right. left. auto.
    - destruct (proj2 (requests_carry_resolved_code requests_post self arm_name code'
                         request) Hin) as (blob & E & Henc).
      exists "/AdvancedSecurity/DisarmWithCode". eexists. exists blob.
      split; [exact E|]. split; [exact Henc|]. right. right. auto. }
  destruct Hreq as (endpoint & params & blob & Hrequest & Henc & Hmethod).
  pose proof (decrypt_bytes_encrypt_params _ _ _ Henc) as Hdec.
  assert (Hself : _url self = ("https://" ++ ip_address ++ "/system_http_api/API_REV01")%string
                  /\ _key self = secret_key /\ _iv self = initial_value
                  /\ Cipher__init__ secret_key initial_value = Ok (_cipher self)).
  { unfold TuxedoTouch__init__ in Hinit.
    destruct (Cipher__init__ secret_key initial_value) as [cipher|e]; [|discriminate].
    cbn [bind] in Hinit. inversion Hinit; subst. cbn. auto. }
  destruct Hself as (Hurl & Hkey & Hiv & Hcipher).
  split; [now rewrite Hrequest|]. split; [|split].
  - rewrite Hrequest. cbn [api_request headers]. now rewrite Hkey, Hiv.
  - exists endpoint. rewrite Hrequest. cbn [api_request url].
    now rewrite Hurl, !string_append_assoc.
  - exists params, blob. split; [now rewrite Hrequest|]. auto.
Qed.

End ControllerExtras.

(** The log records of [_post_request] are error records. *)
Lemma post_request_logs_errors (requests_post : Request -> exc Response)
  (self : TuxedoTouch) (endpoint : string) (params : list (string * string))
  (lvl : level) (fmt : string) (args : list logarg) :
  In (EvLog lvl fmt args) (snd (_post_request requests_post self endpoint params)) ->
  lvl = ERROR.
Proof.
  rewrite post_request_cases.
  destruct (encrypt_params (_cipher self) params) as [blob|e]; [|intros []].
  destruct (requests_post _) as [response|e].
  - destruct (Z.eqb (status_code response) 200); cbn [snd In].
    + intros [E|[]]. discriminate.
    + intros [E|[E|[]]]; [discriminate | now inversion E].
  - cbn [snd In]. intros [E|[]]. discriminate.
Qed.

(** X10: the flag that tells Home Assistant whether the user must enter a
    code agrees with what the calls do.  The constructor sets
    [code_arm_required] to the negation of the truth value of the
    configured code, and the code format to [number] exactly when a code
    is required.  When the flag is off, no arm or disarm call, whatever
    code it is given and whatever the network answers, stops at the
    missing-code warning: there is always a code to go on with. *)
Theorem code_required_flag_matches_calls (ip_address name secret_key initial_value : string)
  (code : code_value) (self : TuxedoTouch) :
  TuxedoTouch__init__ ip_address name secret_key initial_value code = Ok self ->
  _attr_code_arm_required self = negb (code_truthy code) /\
  _attr_code_format self = (if code_truthy code then None else Some "number") /\
  (_attr_code_arm_required self = false ->
   forall (requests_post : Request -> exc Response) arm_name code',
     code_is_None (resolved_code self code') = false /\
     ~ In (EvLog WARNING "arm code is missing" [])
          (snd (_alarm_arm requests_post self arm_name code')) /\
     ~ In (EvLog WARNING "disarm code is missing" [])
          (snd (async_alarm_disarm requests_post self code'))).
Proof.
  intros Hinit. unfold TuxedoTouch__init__ in Hinit.
  destruct (Cipher__init__ secret_key initial_value) as [cipher|e]; [|discriminate].
  cbn [bind] in Hinit. inversion Hinit; subst; clear Hinit.
  cbn [_attr_code_arm_required _attr_code_format].
  split; [now destruct (code_truthy code)|]. split; [reflexivity|].
  intros Hflag requests_post arm_name code'.
  assert (Htruthy : code_truthy code = true) by (destruct (code_truthy code); congruence).
  match goal with |- code_is_None (resolved_code ?s _) = false /\ _ => set (self := s) end.
  assert (Hcode : code_is_None (resolved_code self code') = false).
  { unfold resolved_code. destruct (code_truthy code') eqn:Hcall.
    - destruct code'; [discriminate | reflexivity | reflexivity].
    - cbn [_code self]. destruct code; [discriminate | reflexivity | reflexivity]. }
  split; [exact Hcode|]. split.
  - rewrite alarm_arm_cases, Hcode. intros Hin.
    assert (Hpost : ~ In (EvLog WARNING "arm code is missing" [])
                      (snd (_post_request requests_post self "/AdvancedSecurity/ArmWithCode"
                              (arm_params arm_name (resolved_code self code'))))).
    { intros H. apply post_request_logs_errors in H. discriminate. }
    destruct (_post_request _ _ _ _) as [[response|e] trace]; cbn [snd] in *;
      [|contradiction].
    destruct (json_truthy response); cbn [snd] in Hin; [|contradiction].
    apply in_app_or in Hin. destruct Hin as [Hin|[E|[E|[E|[]]]]];
      [contradiction | discriminate..].
  - rewrite alarm_disarm_cases, Hcode. intros Hin.
    assert (Hpost : ~ In (EvLog WARNING "disarm code is missing" [])
                      (snd (_post_request requests_post self
                              "/AdvancedSecurity/DisarmWithCode"
                              (disarm_params (resolved_code self code'))))).
    { intros H. apply post_request_logs_errors in H. discriminate. }
    destruct (_post_request _ _ _ _) as [[response|e] trace]; cbn [snd] in *;
      [|contradiction].
    destruct (json_truthy response); cbn [snd] in Hin; [|contradiction].
    apply in_app_or in Hin. destruct Hin as [Hin|[E|[E|[E|[]]]]];
      [contradiction | discriminate..].
Qed.

(** ** The further properties on a concrete panel *)

(** X3, on the test data: the panel answers 200 with an error object. *)
Lemma post_request_body_errors_witness :
  exists blob,
    encrypt_params (_cipher test_panel) [("operation", "get")] = Ok blob /\
    _post_request (panel_answers_json 200 (Ok (JObj [("Error", JStr "busy")])))
      test_panel "/GetSecurityStatus" [("operation", "get")] =
    (Raise (KeyError "Result"), [EvPost (api_request test_panel "/GetSecurityStatus" blob)]).
Proof.
  eexists. split; [vm_compute; reflexivity|].
  refine (proj1 (proj2 (proj2
            (post_request_body_errors
               (panel_answers_json 200 (Ok (JObj [("Error", JStr "busy")])))
               test_panel "/GetSecurityStatus" [("operation", "get")] _
               {| status_code := 200;
                  response_json := Ok (JObj [("Error", JStr "busy")]) |} _ _ _)))
            [("Error", JStr "busy")] _ _);
    [vm_compute; reflexivity | reflexivity | reflexivity | reflexivity | reflexivity].
Defined.

(** X4, on the test data: the panel cannot be reached. *)
Lemma request_errors_are_not_caught_witness :
  _alarm_arm panel_unreachable test_panel "AWAY" CNone =
    (Raise (ConnectionError "Connection refused"),
     snd (_post_request panel_unreachable test_panel "/AdvancedSecurity/ArmWithCode"
            (arm_params "AWAY" (CInt 1234)))).
Proof.
  refine (proj1 (proj2 (request_errors_are_not_caught panel_unreachable test_panel "AWAY"
                          CNone (ConnectionError "Connection refused") _)) _ _);
    [reflexivity | vm_compute; reflexivity].
Defined.

(** X6, on the test data. *)
Lemma status_poll_decodes_answer_witness :
  exists blob,
    encrypt_params (_cipher test_panel) [("operation", "get")] = Ok blob /\
    async_update (panel_answers 200 (dq "{'Status': 'Armed Stay'}")) test_panel =
      (Ok (set_attr_state test_panel (interpret "Armed Stay")),
       [EvPost (api_request test_panel "/GetSecurityStatus" blob);
        EvLog INFO "current alarm status: {status}" [LJson (JStr "Armed Stay")]]) /\
    async_update (panel_answers 200 (dq "{}")) test_panel =
      (Ok (set_attr_state test_panel STATE_UNAVAILABLE),
       [EvPost (api_request test_panel "/GetSecurityStatus" blob);
        EvLog ERROR "unable to get alarm status" []]).
Proof.
  eexists. split; [vm_compute; reflexivity|]. split.
  - refine (proj2 (proj2
              (status_poll_decodes_answer
                 (panel_answers 200 (dq "{'Status': 'Armed Stay'}")) test_panel _
                 match panel_encrypt test_cipher (dq "{'Status': 'Armed Stay'}") with
                 | Ok answer => answer
                 | Raise _ => ""
                 end
                 {| status_code := 200;
                    response_json :=
                      blob <- panel_encrypt test_cipher (dq "{'Status': 'Armed Stay'}") ;;
                      Ok (JObj [("Result", JStr blob)]) |}
                 (JObj [("Result",
                         JStr match panel_encrypt test_cipher
                                      (dq "{'Status': 'Armed Stay'}") with
                              | Ok answer => answer
                              | Raise _ => ""
                              end)])
                 (dq "{'Status': 'Armed Stay'}")
                 (JObj [("Status", JStr "Armed Stay")]) _ _ _ _ _ _ _))
              "Armed Stay" _);
      [vm_compute; reflexivity | reflexivity | reflexivity | vm_compute; reflexivity
      | reflexivity | vm_compute; reflexivity | vm_compute; reflexivity | reflexivity].
  - refine (proj1 (proj2
              (status_poll_decodes_answer
                 (panel_answers 200 (dq "{}")) test_panel _
                 match panel_encrypt test_cipher (dq "{}") with
                 | Ok answer => answer
                 | Raise _ => ""
                 end
                 {| status_code := 200;
                    response_json :=
                      blob <- panel_encrypt test_cipher (dq "{}") ;;
                      Ok (JObj [("Result", JStr blob)]) |}
                 (JObj [("Result",
                         JStr match panel_encrypt test_cipher (dq "{}") with
                              | Ok answer => answer
                              | Raise _ => ""
                              end)])
                 (dq "{}") (JObj []) _ _ _ _ _ _ _)) _);
      [vm_compute; reflexivity | reflexivity | reflexivity | vm_compute; reflexivity
      | reflexivity | vm_compute; reflexivity | vm_compute; reflexivity | reflexivity].
Defined.

(** X7, on the test data: the panel reports its status as a number. *)
Lemma status_poll_payload_errors_witness :
  exists msg,
    async_update (panel_answers 200 (dq "{'Status': 3}")) test_panel =
      (Raise (AttributeError msg),
       snd (_post_request (panel_answers 200 (dq "{'Status': 3}")) test_panel
              "/GetSecurityStatus" [("operation", "get")])).
Proof.
  refine (proj2 (proj2
            (status_poll_payload_errors (panel_answers 200 (dq "{'Status': 3}")) test_panel
               (JObj [("Status", JInt 3)]) _ _ _))
            (JInt 3) _ _);
    [vm_compute; reflexivity | reflexivity | reflexivity | discriminate].
Defined.

(** X8, on the test data: arming in stay mode with the configured code. *)
Lemma arm_commands_differ_in_arming_only_witness :
  exists blob,
    encrypt_params (_cipher test_panel) (arm_params "STAY" (CInt 1234)) = Ok blob /\
    url (api_request test_panel "/AdvancedSecurity/ArmWithCode" blob) =
      "https://192.168.1.10/system_http_api/API_REV01/AdvancedSecurity/ArmWithCode" /\
    panel_reads (_cipher test_panel)
      (api_request test_panel "/AdvancedSecurity/ArmWithCode" blob) =
      Ok [("arming", "STAY"); ("pID", "1"); ("ucode", "1234"); ("operation", "set")].
Proof.
  eexists. split; [vm_compute; reflexivity|].
  refine (arm_commands_differ_in_arming_only panel_unreachable test_panel CNone _
            (async_alarm_arm_home panel_unreachable) "STAY" _ _);
    [right; left; reflexivity | vm_compute; left; reflexivity].
Defined.

(** X9, on the test data. *)
Lemma requests_carry_key_and_iv_witness :
  exists blob,
    encrypt_params (_cipher test_panel) [("operation", "get")] = Ok blob /\
    verify (api_request test_panel "/GetSecurityStatus" blob) = false /\
    headers (api_request test_panel "/GetSecurityStatus" blob) =
      [("authtoken", test_key); ("identity", test_iv)] /\
    (exists endpoint,
       url (api_request test_panel "/GetSecurityStatus" blob) =
         ("https://" ++ "192.168.1.10" ++ "/system_http_api/API_REV01" ++ endpoint)%string) /\
    (exists params blob',
       data (api_request test_panel "/GetSecurityStatus" blob) = [("param", blob')] /\
       Cipher__init__ test_key test_iv = Ok (_cipher test_panel) /\
       encrypt_params (_cipher test_panel) params = Ok blob' /\
       decrypt_bytes (_cipher test_panel) (JStr blob') = Ok (urlencode params) /\
       (In (EvPost (api_request test_panel "/GetSecurityStatus" blob))
           (snd (async_update panel_unreachable test_panel)) /\
        params = [("operation", "get")] \/
        In (EvPost (api_request test_panel "/GetSecurityStatus" blob))
           (snd (_alarm_arm panel_unreachable test_panel "AWAY" CNone)) /\
        params = [("arming", "AWAY"); ("pID", "1");
                  ("ucode", code_str (resolved_code test_panel CNone));
                  ("operation", "set")] \/
        In (EvPost (api_request test_panel "/GetSecurityStatus" blob))
           (snd (async_alarm_disarm panel_unreachable test_panel CNone)) /\
        params = [("pID", "1"); ("ucode", code_str (resolved_code test_panel CNone));
                  ("operation", "set")])).
Proof.
  eexists. split; [vm_compute; reflexivity|].
  refine (requests_carry_key_and_iv panel_unreachable "192.168.1.10" "Tuxedo" test_key test_iv
            (CInt 1234) test_panel "AWAY" CNone _ _ _);
    [vm_compute; reflexivity | left; vm_compute; left; reflexivity].
Defined.

(** X10, on the test data: a panel with a configured code, called without. *)
Lemma code_required_flag_matches_calls_witness :
  _attr_code_arm_required test_panel = negb (code_truthy (CInt 1234)) /\
  _attr_code_format test_panel = None /\
  code_is_None (resolved_code test_panel CNone) = false.
Proof.
  destruct (code_required_flag_matches_calls "192.168.1.10" "Tuxedo" test_key test_iv
              (CInt 1234) test_panel) as (Hflag & Hformat & Hcalls);
    [vm_compute; reflexivity|].
  split; [exact Hflag|]. split; [exact Hformat|].
  exact (proj1 (Hcalls ltac:(reflexivity) panel_unreachable "AWAY" CNone)).
Defined.

(** ** Text by characters: slices and lengths *)

Lemma skip_continuation_suffix (l : list byte) :
  exists p, l = p ++ skip_continuation l /\ forallb is_continuation p = true.
Proof.
  induction l as [|b l (p & IH & Hp)]; [now exists []|].
  cbn [skip_continuation]. destruct (is_continuation b) eqn:Hb; [|now exists []].
  exists (b :: p). cbn [forallb app]. rewrite Hb, Hp. now rewrite <- IH.
Qed.

Lemma count_chars_app (l l' : list byte) :
  count_chars (l ++ l') = (count_chars l + count_chars l')%nat.
Proof. unfold count_chars. now rewrite filter_app, length_app. Qed.

Lemma count_chars_continuation (p : list byte) :
  forallb is_continuation p = true -> count_chars p = 0%nat.
Proof.
  induction p as [|b p IH]; [reflexivity|]. cbn [forallb]. rewrite andb_true_iff.
  intros [Hb Hp]. unfold count_chars in *. cbn [filter]. rewrite Hb. cbn [negb]. auto.
Qed.

(** [s[n:]] is a suffix of [s], and what comes before it has at most [n]
    characters. *)
Lemma skip_chars_suffix (n : nat) :
  forall l, exists p, l = p ++ skip_chars n l /\ (count_chars p <= n)%nat.
Proof.
  induction n as [|n IH]; intros l; [exists []; split; [reflexivity | cbn; lia]|].
  destruct l as [|b rest]; [exists []; split; [reflexivity | cbn; lia]|].
  cbn [skip_chars].
  destruct (skip_continuation_suffix rest) as (c & Hc & Hcont).
  destruct (IH (skip_continuation rest)) as (p & Hp & Hcount).
  exists (b :: c ++ p). split.
  - cbn [app]. rewrite <- app_assoc, <- Hp, <- Hc. reflexivity.
  - change (b :: c ++ p) with ([b] ++ c ++ p). rewrite !count_chars_app.
    rewrite (count_chars_continuation c Hcont).
    assert (count_chars [b] <= 1)%nat by (unfold count_chars; cbn; destruct (negb _); cbn; lia).
    lia.
Qed.

Lemma firstn_app_suffix (p s : list byte) :
  firstn (List.length (p ++ s) - List.length s) (p ++ s) = p.
Proof.
  rewrite length_app. replace (List.length p + List.length s - List.length s)%nat
    with (List.length p + 0)%nat by lia.
  rewrite firstn_app_2. cbn [firstn]. apply app_nil_r.
Qed.

Lemma string_of_list_byte_app (l l' : list byte) :
  string_of_list_byte (l ++ l') = (string_of_list_byte l ++ string_of_list_byte l')%string.
Proof.
  unfold string_of_list_byte. induction l as [|b l IH]; [reflexivity|].
  cbn [app map string_of_list_ascii String.append]. now rewrite <- IH.
Qed.

(** The two slices of a text make up the text, and the first has at most
    [n] characters. *)
Lemma str_upto_from (n : nat) (s : string) :
  (str_upto n s ++ str_from n s)%string = s /\ (str_len (str_upto n s) <= n)%nat.
Proof.
  unfold str_upto, str_from, str_len. cbv zeta.
  destruct (skip_chars_suffix n (list_byte_of_string s)) as (p & Hp & Hcount).
  set (l := list_byte_of_string s) in *.
  assert (Hfirst : firstn (List.length l - List.length (skip_chars n l)) l = p).
  { rewrite Hp at 1 3. apply firstn_app_suffix. }
  rewrite Hfirst. split.
  - rewrite <- string_of_list_byte_app, <- Hp. apply string_of_list_byte_of_string.
  - now rewrite list_byte_of_string_of_list_byte.
Qed.

Lemma ascii_not_continuation (b : byte) :
  implb (is_ascii b) (negb (is_continuation b)) = true.
Proof. by_bytes. Qed.

Lemma skip_chars_ascii (n : nat) :
  forall l, forallb is_ascii l = true -> skip_chars n l = skipn n l.
Proof.
  induction n as [|n IH]; intros l Hl; [reflexivity|].
  destruct l as [|b rest]; [reflexivity|].
  cbn [forallb] in Hl. apply andb_true_iff in Hl. destruct Hl as [_ Hrest].
  cbn [skip_chars skipn]. rewrite <- (IH rest Hrest). f_equal.
  destruct rest as [|c rest']; [reflexivity|].
  cbn [forallb] in Hrest. apply andb_true_iff in Hrest. destruct Hrest as [Hc _].
  pose proof (ascii_not_continuation c) as H. rewrite Hc in H. cbn [implb] in H.
  cbn [skip_continuation]. now destruct (is_continuation c).
Qed.

(** On ASCII text the slices are those of the bytes. *)
Lemma str_slices_ascii (n : nat) (s : string) :
  forallb is_ascii (list_byte_of_string s) = true ->
  str_upto n s = string_of_list_byte (firstn n (list_byte_of_string s)) /\
  str_from n s = string_of_list_byte (skipn n (list_byte_of_string s)).
Proof.
  intros Hs. unfold str_upto, str_from. cbv zeta.
  rewrite (skip_chars_ascii n _ Hs). split; [|reflexivity].
  f_equal. set (l := list_byte_of_string s).
  rewrite <- (firstn_skipn n l) at 1 3. rewrite firstn_app_suffix. reflexivity.
Qed.

Lemma str_len_ascii (s : string) :
  forallb is_ascii (list_byte_of_string s) = true -> str_len s = String.length s.
Proof.
  intros Hs. unfold str_len, count_chars. rewrite <- length_list_byte_of_string.
  induction (list_byte_of_string s) as [|b l IH]; [reflexivity|].
  cbn [forallb] in Hs. apply andb_true_iff in Hs. destruct Hs as [Hb Hl].
  pose proof (ascii_not_continuation b) as H. rewrite Hb in H. cbn [implb] in H.
  cbn [filter]. rewrite H. cbn [List.length]. now rewrite (IH Hl).
Qed.

(** ** The decimal form of an integer *)

Lemma string_of_uint_length (u : Decimal.uint) :
  String.length (NilEmpty.string_of_uint u) = Decimal.nb_digits u.
Proof. induction u; cbn; congruence. Qed.

Lemma string_of_uint_ascii (u : Decimal.uint) :
  forallb is_ascii (list_byte_of_string (NilEmpty.string_of_uint u)) = true.
Proof. induction u; cbn; trivial. Qed.

(** The value accumulated over the digits [l] after [acc]. *)
Lemma of_uint_acc_bounds (l : Decimal.uint) :
  forall acc,
    (Z.pos acc * 10 ^ Z.of_nat (Decimal.nb_digits l)
       <= Z.pos (Pos.of_uint_acc l acc)
       < (Z.pos acc + 1) * 10 ^ Z.of_nat (Decimal.nb_digits l))%Z.
Proof.
  induction l as [|l IH|l IH|l IH|l IH|l IH|l IH|l IH|l IH|l IH|l IH]; intros acc;
    cbn [Pos.of_uint_acc Decimal.nb_digits];
    [cbn; lia|..];
    rewrite Nat2Z.inj_succ, Z.pow_succ_r by lia;
    match goal with
    | |- context [Pos.of_uint_acc l ?a] => specialize (IH a)
    end;
    assert (0 < 10 ^ Z.of_nat (Decimal.nb_digits l))%Z by (apply Z.pow_pos_nonneg; lia);
    nia.
Qed.

Lemma nzhead_not_zero (u l : Decimal.uint) : Decimal.nzhead u <> Decimal.D0 l.
Proof. induction u; cbn; try discriminate. exact IHu. Qed.

(** A positive number with [n] decimal digits lies between [10^(n-1)] and
    [10^n]. *)
Lemma to_uint_bounds (p : positive) :
  exists n,
    Decimal.nb_digits (Pos.to_uint p) = S n /\
    (10 ^ Z.of_nat n <= Z.pos p < 10 ^ Z.of_nat (S n))%Z.
Proof.
  pose proof (DecimalPos.Unsigned.of_to p) as Hof.
  pose proof (DecimalPos.Unsigned.to_of (Pos.to_uint p)) as Hto.
  rewrite Hof in Hto. cbn [N.to_uint] in Hto.
  pose proof (DecimalPos.Unsigned.to_uint_nonnil p) as Hnil.
  destruct (Pos.to_uint p) as [|l|l|l|l|l|l|l|l|l|l] eqn:Hu; [congruence|..];
    try (exists (Decimal.nb_digits l); split; [reflexivity|];
         cbn [Pos.of_uint] in Hof; injection Hof as <-;
         match goal with
         | |- context [Pos.of_uint_acc l ?a] => pose proof (of_uint_acc_bounds l a)
         end;
         rewrite Nat2Z.inj_succ, Z.pow_succ_r by lia;
         assert (0 < 10 ^ Z.of_nat (Decimal.nb_digits l))%Z by (apply Z.pow_pos_nonneg; lia);
         nia).
  exfalso. unfold Decimal.unorm in Hto. cbn [Decimal.nzhead] in Hto.
  destruct (Decimal.nzhead l) eqn:Hz; try discriminate.
  - injection Hto as Hl. subst l.
    now apply (DecimalPos.Unsigned.to_uint_nonzero p).
  - now apply (nzhead_not_zero l u).
Qed.

Lemma to_uint_four_digits (p : positive) (n : nat) :
  Decimal.nb_digits (Pos.to_uint p) = S n <->
  (10 ^ Z.of_nat n <= Z.pos p < 10 ^ Z.of_nat (S n))%Z.
Proof.
  destruct (to_uint_bounds p) as (m & Hm & Hlo & Hhi). rewrite Hm. split.
  - intros E. injection E as <-. lia.
  - intros [Hlo' Hhi']. f_equal.
    destruct (Nat.lt_trichotomy m n) as [Hlt|[->|Hgt]]; [|reflexivity|]; exfalso.
    + assert (10 ^ Z.of_nat (S m) <= 10 ^ Z.of_nat n)%Z by (apply Z.pow_le_mono_r; lia). lia.
    + assert (10 ^ Z.of_nat (S n) <= 10 ^ Z.of_nat m)%Z by (apply Z.pow_le_mono_r; lia). lia.
Qed.

Lemma code_str_int_ascii (z : Z) :
  forallb is_ascii (list_byte_of_string (code_str (CInt z))) = true.
Proof.
  unfold code_str, NilZero.string_of_int, NilZero.string_of_uint.
  destruct (Z.to_int z) as [u|u]; destruct u; try reflexivity;
    try apply (string_of_uint_ascii (_ u));
    change (list_byte_of_string (String "-" ?s)) with ("-"%byte :: list_byte_of_string s).
  all: cbn [forallb]; try apply (string_of_uint_ascii (_ u)).
Qed.

(** The decimal form of an integer has four characters exactly when the
    integer has four digits, or three and a sign. *)
Lemma int_code_length (z : Z) :
  str_len (code_str (CInt z)) = 4%nat <->
  (1000 <= z <= 9999 \/ -999 <= z <= -100)%Z.
Proof.
  rewrite (str_len_ascii _ (code_str_int_ascii z)).
  unfold code_str, NilZero.string_of_int, NilZero.string_of_uint.
  destruct z as [|p|p]; cbn [Z.to_int].
  - cbn. split; [discriminate | lia].
  - pose proof (to_uint_four_digits p 3) as H4.
    pose proof (DecimalPos.Unsigned.to_uint_nonnil p) as Hnil.
    assert (E : String.length match Pos.to_uint p with
                              | Decimal.Nil => "0"
                              | _ => NilEmpty.string_of_uint (Pos.to_uint p)
                              end = Decimal.nb_digits (Pos.to_uint p)).
    { destruct (Pos.to_uint p) eqn:Hu; try congruence;
        rewrite <- Hu; apply string_of_uint_length. }
    rewrite E, H4. change (10 ^ Z.of_nat 3)%Z with 1000%Z.
    change (10 ^ Z.of_nat 4)%Z with 10000%Z. lia.
  - pose proof (to_uint_four_digits p 2) as H3.
    pose proof (DecimalPos.Unsigned.to_uint_nonnil p) as Hnil.
    assert (E : String.length match Pos.to_uint p with
                              | Decimal.Nil => "0"
                              | _ => NilEmpty.string_of_uint (Pos.to_uint p)
                              end = Decimal.nb_digits (Pos.to_uint p)).
    { destruct (Pos.to_uint p) eqn:Hu; try congruence;
        rewrite <- Hu; apply string_of_uint_length. }
    cbn [String.length]. rewrite E.
    change (10 ^ Z.of_nat 2)%Z with 100%Z in H3.
    change (10 ^ Z.of_nat 3)%Z with 1000%Z in H3. lia.
Qed.

(** ** The configuration flow, case by case *)

Section ConfigFlowFacts.

Variable requests_get : string -> exc HttpPage.
Variable soup_find : string -> string -> exc (option Tag).
Variable ip_address_valid : form_value -> bool.
Variable int_valid : string -> bool.

Lemma fbind_fret {A B} (a : A) (k : A -> F B) : fbind (Returns a, []) k = k a.
Proof. unfold fbind. now destruct (k a). Qed.

Lemma obtain_key_cases (ip_address : form_value) :
  _obtain_key requests_get soup_find ip_address =
  match requests_get (obtain_key_target ip_address) with
  | Raise e =>
      (Raises (obtain_key_handler (Builtin e)), [FlGet (obtain_key_target ip_address)])
  | Ok readit =>
      if Z.eqb (page_status_code readit) 200 then
        match soup_find (page_text readit) "input" with
        | Raise e =>
            (Raises (obtain_key_handler (Builtin e)),
             [FlGet (obtain_key_target ip_address)])
        | Ok found =>
            match tag_getitem found "value" with
            | Raise e =>
                (Raises (obtain_key_handler (Builtin e)),
                 [FlGet (obtain_key_target ip_address)])
            | Ok value =>
                (Returns (str_upto 64 value, str_from 64 value),
                 [FlGet (obtain_key_target ip_address)])
            end
        end
      else
        (Raises CannotConnect,
         [FlGet (obtain_key_target ip_address);
          FlLog WARNING "request to obtain key returned code {readit.status_code}"
            [LInt (page_status_code readit)]])
  end.
Proof.
  unfold _obtain_key, obtain_key_target. cbv zeta.
  destruct (requests_get _) as [readit|e]; [|reflexivity].
  cbn [flift femit fbind fexcept app].
  destruct (Z.eqb (page_status_code readit) 200); [|reflexivity].
  cbn [negb]. destruct (soup_find _ _) as [found|e]; [|reflexivity].
  cbn [flift fbind]. destruct (tag_getitem found "value") as [value|e]; reflexivity.
Qed.

(** What [_obtain_key] raises is nothing that its handlers catch, and
    none of the exceptions of the validation. *)
Lemma obtain_key_raises (ip_address : form_value) (e : flow_exn) :
  fst (_obtain_key requests_get soup_find ip_address) = Raises e ->
  obtain_key_handler e = e /\ e <> InvalidAddress /\ e <> InvalidCode.
Proof.
  rewrite obtain_key_cases.
  assert (H : forall e' : exn,
            Raises (A := string * string) (obtain_key_handler (Builtin e')) = Raises e ->
            obtain_key_handler e = e /\ e <> InvalidAddress /\ e <> InvalidCode).
  { intros e' E. injection E as <-. destruct e'; cbn; repeat split; discriminate. }
  destruct (requests_get _) as [readit|e']; [|exact (H e')].
  destruct (Z.eqb (page_status_code readit) 200);
    [|cbn [fst]; intros E; injection E as <-; repeat split; discriminate].
  destruct (soup_find _ _) as [found|e']; [|exact (H e')].
  destruct (tag_getitem found "value") as [value|e']; [discriminate | exact (H e')].
Qed.

Lemma validate_input_cases (data : pydict form_value) :
  validate_input requests_get soup_find ip_address_valid int_valid data =
  match pydict_lookup data "ip_address" with
  | None => (Raises (Builtin (KeyError "ip_address")), [])
  | Some ip_address =>
      if ip_address_valid ip_address then
        if code_accepted int_valid (pydict_get data "code") then
          match _obtain_key requests_get soup_find ip_address with
          | (Returns (secret_key, initial_value), trace) =>
              (Returns [("ip_address", ip_address);
                        ("title", title_for data);
                        ("secret_key", CStr secret_key);
                        ("initial_value", CStr initial_value);
                        ("code", pydict_get data "code")],
               trace)
          | (Raises e, trace) => (Raises e, trace)
          end
        else (Raises InvalidCode, [])
      else (Raises InvalidAddress, [])
  end.
Proof.
  unfold validate_input, pydict_getitem, CONF_IP_ADDRESS, CONF_CODE.
  destruct (pydict_lookup data "ip_address") as [ip_address|]; [|reflexivity].
  unfold fret, fraise. cbn [flift]. rewrite fbind_fret.
  destruct (ip_address_valid ip_address); [|reflexivity].
  rewrite fbind_fret. unfold code_accepted, int_returns. cbv zeta.
  set (code := pydict_get data "code").
  assert (Htitle : (if code_truthy (pydict_get data CONF_NAME)
                    then flift match pydict_lookup data CONF_NAME with
                               | Some v => Ok v
                               | None => Raise (KeyError CONF_NAME)
                               end
                    else (Returns (CStr "Tuxedo Touch Controller"), []))
                   = (Returns (title_for data), [])).
  { unfold title_for, pydict_get.
    destruct (pydict_lookup data CONF_NAME) as [v|]; [|reflexivity].
    now destruct (code_truthy v). }
  rewrite Htitle.
  assert (Hrest : (title <-- (Returns (title_for data), []) ;;
                   key_iv <-- _obtain_key requests_get soup_find ip_address ;;
                   (let '(secret_key, initial_value) := key_iv in
                    (Returns [("ip_address", ip_address); ("title", title);
                              ("secret_key", CStr secret_key);
                              ("initial_value", CStr initial_value); ("code", code)],
                     [])))
                  = match _obtain_key requests_get soup_find ip_address with
                    | (Returns (secret_key, initial_value), trace) =>
                        (Returns [("ip_address", ip_address);
                                  ("title", title_for data);
                                  ("secret_key", CStr secret_key);
                                  ("initial_value", CStr initial_value);
                                  ("code", code)],
                         trace)
                    | (Raises e, trace) => (Raises e, trace)
                    end).
  { rewrite fbind_fret. unfold fbind.
    destruct (_obtain_key _ _ _) as [[[secret_key initial_value]|e] trace];
      [|reflexivity].
    cbn. now rewrite app_nil_r. }
  destruct (code_is_None code); cbn [orb]; [now rewrite fbind_fret|].
  destruct (match code with CStr s => int_valid s | _ => true end); cbn [andb];
    [|reflexivity].
  rewrite fbind_fret.
  destruct (Nat.eqb (str_len (code_str code)) 4); cbn [negb]; [|reflexivity].
  now rewrite fbind_fret.
Qed.

(** ** Obtaining the key *)

(** X11: the key page gives the key and the iv as the two parts of one
    attribute.  When the page is answered with 200 and its first [input]
    tag has a [value], [_obtain_key] returns after its one request, to
    [http://<address>/TuxedoAPI], with the value cut after 64 characters:
    the two parts make up the value, the first has at most 64 characters,
    and on ASCII text it has 64 of them or the whole value. *)
Theorem obtain_key_splits_value (ip_address : form_value) (readit : HttpPage)
  (attrs : Tag) (value : string) :
  requests_get (obtain_key_target ip_address) = Ok readit ->
  page_status_code readit = 200%Z ->
  soup_find (page_text readit) "input" = Ok (Some attrs) ->
  pydict_lookup attrs "value" = Some value ->
  exists secret_key initial_value,
    _obtain_key requests_get soup_find ip_address =
      (Returns (secret_key, initial_value), [FlGet (obtain_key_target ip_address)]) /\
    (secret_key ++ initial_value)%string = value /\
    (str_len secret_key <= 64)%nat /\
    (forallb is_ascii (list_byte_of_string value) = true ->
     String.length secret_key = Nat.min 64 (String.length value)).
Proof.
  intros Hget Hstatus Hfind Hvalue.
  exists (str_upto 64 value), (str_from 64 value). split; [|split; [|split]].
  - rewrite obtain_key_cases, Hget, Hstatus, Hfind. cbn [Z.eqb Pos.eqb tag_getitem].
    unfold pydict_getitem. now rewrite Hvalue.
  - apply str_upto_from.
  - apply str_upto_from.
  - intros Hascii. rewrite (proj1 (str_slices_ascii 64 value Hascii)).
    rewrite length_string_of_list_byte, length_firstn, length_list_byte_of_string.
    reflexivity.
Qed.

(** X12: every way of not getting the key is one of two errors.  A
    connection error of the request and an answer other than 200 (which
    is also logged as a warning) make [_obtain_key] raise [CannotConnect];
    a page without an [input] tag and an [input] tag without a [value]
    make it raise [CannotObtainkey].  In each case one request was made. *)
Theorem obtain_key_failures (ip_address : form_value) :
  (forall msg, requests_get (obtain_key_target ip_address) = Raise (ConnectionError msg) ->
     _obtain_key requests_get soup_find ip_address =
       (Raises CannotConnect, [FlGet (obtain_key_target ip_address)])) /\
  (forall readit, requests_get (obtain_key_target ip_address) = Ok readit ->
     page_status_code readit <> 200%Z ->
     _obtain_key requests_get soup_find ip_address =
       (Raises CannotConnect,
        [FlGet (obtain_key_target ip_address);
         FlLog WARNING "request to obtain key returned code {readit.status_code}"
           [LInt (page_status_code readit)]])) /\
  (forall readit, requests_get (obtain_key_target ip_address) = Ok readit ->
     page_status_code readit = 200%Z ->
     soup_find (page_text readit) "input" = Ok None ->
     _obtain_key requests_get soup_find ip_address =
       (Raises CannotObtainkey, [FlGet (obtain_key_target ip_address)])) /\
  (forall readit attrs, requests_get (obtain_key_target ip_address) = Ok readit ->
     page_status_code readit = 200%Z ->
     soup_find (page_text readit) "input" = Ok (Some attrs) ->
     pydict_lookup attrs "value" = None ->
     _obtain_key requests_get soup_find ip_address =
       (Raises CannotObtainkey, [FlGet (obtain_key_target ip_address)])).
Proof.
  rewrite obtain_key_cases. split; [|split; [|split]].
  - intros msg ->. reflexivity.
  - intros readit -> Hstatus. apply Z.eqb_neq in Hstatus. now rewrite Hstatus.
  - intros readit -> -> ->. reflexivity.
  - intros readit attrs -> -> -> Hvalue. cbn [Z.eqb Pos.eqb tag_getitem].
    unfold pydict_getitem. now rewrite Hvalue.
Qed.

Lemma obtain_key_trace (ip_address : form_value) :
  exists logs,
    snd (_obtain_key requests_get soup_find ip_address) =
      FlGet (obtain_key_target ip_address) :: logs /\
    count_gets logs = 0%nat.
Proof.
  rewrite obtain_key_cases.
  destruct (requests_get _) as [readit|e]; [|now exists []].
  destruct (Z.eqb (page_status_code readit) 200); [|now eexists].
  destruct (soup_find _ _) as [found|e]; [|now exists []].
  destruct (tag_getitem found "value"); now exists [].
Qed.

(** X13: what [_obtain_key] lets through.  Whatever the network and the
    parser do, [_obtain_key] makes exactly one request, the first thing it
    does, and an exception that leaves it is never a connection error, a
    [TypeError] or a [KeyError] (these are turned into [CannotConnect] and
    [CannotObtainkey]), nor one of the two validation errors; any other
    exception of the request or of the parser leaves it unchanged. *)
Theorem obtain_key_lets_through (ip_address : form_value) :
  count_gets (snd (_obtain_key requests_get soup_find ip_address)) = 1%nat /\
  hd_error (snd (_obtain_key requests_get soup_find ip_address)) =
    Some (FlGet (obtain_key_target ip_address)) /\
  match fst (_obtain_key requests_get soup_find ip_address) with
  | Returns _ => True
  | Raises e =>
      match e with
      | Builtin (ConnectionError _) | Builtin (TypeError _) | Builtin (KeyError _)
      | InvalidAddress | InvalidCode => False
      | _ => True
      end
  end /\
  (forall e, requests_get (obtain_key_target ip_address) = Raise e ->
     obtain_key_handler (Builtin e) = Builtin e ->
     fst (_obtain_key requests_get soup_find ip_address) = Raises (Builtin e)).
Proof.
  destruct (obtain_key_trace ip_address) as (logs & Htrace & Hlogs).
  split; [|split; [|split]].
  - rewrite Htrace. unfold count_gets in *. cbn [filter is_get List.length].
    now rewrite Hlogs.
  - now rewrite Htrace.
  - destruct (fst (_obtain_key requests_get soup_find ip_address)) as [r|e] eqn:E;
      [exact I|].
    destruct (obtain_key_raises _ _ E) as (Hh & Ha & Hc).
    destruct e as [| | | |e']; try congruence; try exact I.
    destruct e'; try exact I; discriminate Hh.
  - intros e He Hh. rewrite obtain_key_cases, He. cbn [fst]. now rewrite Hh.
Qed.

(** ** Validating the input *)

(** X14: validation comes before the network.  A request is made only
    for an input whose address [ipaddress.ip_address] takes and whose code
    passes the checks, and it goes to that address.  When [validate_input]
    raises [InvalidAddress] or [InvalidCode], or the input has no address,
    nothing was requested and nothing logged; an invalid address is
    reported whatever the code is. *)
Theorem validation_precedes_network (data : pydict form_value) :
  (forall target,
     In (FlGet target)
        (snd (validate_input requests_get soup_find ip_address_valid int_valid data)) ->
     exists ip_address,
       pydict_lookup data "ip_address" = Some ip_address /\
       ip_address_valid ip_address = true /\
       code_accepted int_valid (pydict_get data "code") = true /\
       target = obtain_key_target ip_address) /\
  (forall e,
     fst (validate_input requests_get soup_find ip_address_valid int_valid data)
       = Raises e ->
     e = InvalidAddress \/ e = InvalidCode \/ e = Builtin (KeyError "ip_address") ->
     snd (validate_input requests_get soup_find ip_address_valid int_valid data) = []) /\
  (forall ip_address,
     pydict_lookup data "ip_address" = Some ip_address ->
     ip_address_valid ip_address = false ->
     validate_input requests_get soup_find ip_address_valid int_valid data =
       (Raises InvalidAddress, [])).
Proof.
  rewrite validate_input_cases. split; [|split].
  - intros target.
    destruct (pydict_lookup data "ip_address") as [ip_address|]; [|intros []].
    destruct (ip_address_valid ip_address) eqn:Hip; [|intros []].
    destruct (code_accepted int_valid (pydict_get data "code")) eqn:Hcode; [|intros []].
    intros Hin. exists ip_address. repeat split; try assumption.
    destruct (obtain_key_trace ip_address) as (logs & Htrace & Hlogs).
    assert (Hin' : In (FlGet target) (FlGet (obtain_key_target ip_address) :: logs)).
    { rewrite <- Htrace.
      destruct (_obtain_key _ _ _) as [[[key iv]|e] trace]; exact Hin. }
    destruct Hin' as [E|Hin']; [now inversion E|].
    exfalso. unfold count_gets in Hlogs.
    assert (In (FlGet target) (filter is_get logs)) as Hf
      by (apply filter_In; split; [exact Hin' | reflexivity]).
    destruct (filter is_get logs); [contradiction | discriminate].
  - intros e.
    destruct (pydict_lookup data "ip_address") as [ip_address|]; [|reflexivity].
    destruct (ip_address_valid ip_address); [|reflexivity].
    destruct (code_accepted int_valid (pydict_get data "code")); [|reflexivity].
    pose proof (obtain_key_raises ip_address e) as Hraises.
    destruct (_obtain_key _ _ _) as [[[key iv]|e'] trace]; cbn [fst snd] in *;
      [discriminate|].
    intros E He. injection E as E'. subst e'.
    destruct (Hraises eq_refl) as (Hh & Ha & Hc).
    destruct He as [-> | [-> | ->]]; [congruence | congruence | discriminate Hh].
  - intros ip_address -> ->. reflexivity.
Qed.

Lemma code_accepted_int (z : Z) :
  code_accepted int_valid (CInt z) = true <->
  (1000 <= z <= 9999 \/ -999 <= z <= -100)%Z.
Proof.
  unfold code_accepted. cbn [code_is_None orb andb].
  rewrite Nat.eqb_eq. apply int_code_length.
Qed.

(** X15: which integer codes pass.  For an input with a valid address
    and an integer code, [validate_input] raises [InvalidCode] exactly
    when the decimal form of the code does not have four characters: a
    code passes when it lies between 1000 and 9999, or between -999 and
    -100.  Among the integers that the form lets through, those from 0,
    the codes that pass are the ones with four digits and no leading
    zero. *)
Theorem int_code_passes_iff_four_characters (data : pydict form_value)
  (ip_address : form_value) (z : Z) :
  pydict_lookup data "ip_address" = Some ip_address ->
  ip_address_valid ip_address = true ->
  pydict_lookup data "code" = Some (CInt z) ->
  (fst (validate_input requests_get soup_find ip_address_valid int_valid data)
     = Raises InvalidCode <->
   ~ (1000 <= z <= 9999 \/ -999 <= z <= -100)%Z) /\
  ((0 <= z)%Z ->
   (fst (validate_input requests_get soup_find ip_address_valid int_valid data)
      <> Raises InvalidCode <->
    (1000 <= z <= 9999)%Z)).
Proof.
  intros Hip Hvalid Hcode.
  assert (Hget : pydict_get data "code" = CInt z) by (unfold pydict_get; now rewrite Hcode).
  assert (Hiff : fst (validate_input requests_get soup_find ip_address_valid int_valid data)
                   = Raises InvalidCode <->
                 ~ (1000 <= z <= 9999 \/ -999 <= z <= -100)%Z).
  { rewrite validate_input_cases, Hip, Hvalid, Hget.
    rewrite <- code_accepted_int.
    destruct (code_accepted int_valid (CInt z)).
    - split; [|intros H; now contradiction H].
      pose proof (obtain_key_raises ip_address InvalidCode) as Hraises.
      destruct (_obtain_key _ _ _) as [[[key iv]|e] trace]; cbn [fst] in *;
        [discriminate|].
      intros E. injection E as E'. subst e. destruct (Hraises eq_refl) as (_ & _ & Hc).
      now contradiction Hc.
    - split; [discriminate | reflexivity]. }
  split; [exact Hiff|].
  intros Hpos. rewrite Hiff. split.
  - intros H. destruct (Z_le_dec 1000 z); destruct (Z_le_dec z 9999); try lia;
      contradiction H; intros [?|?]; lia.
  - intros H Hn. apply Hn. now left.
Qed.

(** ** The step of the flow *)

Lemma step_user_success (data : pydict form_value) (ip_address : form_value)
  (secret_key initial_value : string) (trace : list flow_event) :
  pydict_lookup data "ip_address" = Some ip_address ->
  ip_address_valid ip_address = true ->
  code_accepted int_valid (pydict_get data "code") = true ->
  _obtain_key requests_get soup_find ip_address
    = (Returns (secret_key, initial_value), trace) ->
  async_step_user requests_get soup_find ip_address_valid int_valid (Some data) =
    (Returns (async_create_entry (title_for data)
                (entry_data_for data ip_address secret_key initial_value)),
     trace).
Proof.
  intros Hip Hvalid Hcode Hkey. unfold async_step_user, ftry.
  rewrite validate_input_cases, Hip, Hvalid, Hcode, Hkey.
  cbn. now rewrite app_nil_r.
Qed.

Lemma step_user_failure (data : pydict form_value) (e : flow_exn) (trace : list flow_event) :
  validate_input requests_get soup_find ip_address_valid int_valid data
    = (Raises e, trace) ->
  async_step_user requests_get soup_find ip_address_valid int_valid (Some data) =
    (Returns (async_show_form "user" STEP_USER_DATA_SCHEMA (Some [("base", error_key e)])),
     trace ++ match e with
              | Builtin _ => [FlLog ERROR "Unexpected exception" []]
              | _ => []
              end).
Proof.
  intros H. unfold async_step_user, ftry. rewrite H. now destruct e.
Qed.

(** X16: the step never raises.  Whatever the input, the network and the
    parser, [async_step_user] returns: the form without errors when there
    is no input, an entry, or the form again with exactly one error under
    [base], one of the five keys of the flow. *)
Theorem step_user_never_raises (user_input : option (pydict form_value)) :
  exists result,
    fst (async_step_user requests_get soup_find ip_address_valid int_valid user_input)
      = Returns result /\
    match result with
    | async_show_form step_id data_schema errors =>
        step_id = "user" /\ data_schema = STEP_USER_DATA_SCHEMA /\
        match errors with
        | None => user_input = None
        | Some shown =>
            exists key,
              shown = [("base", key)] /\
              In key ["cannot_connect"; "cannot_obtain_key"; "invalid_address";
                      "invalid_code"; "unknown"]
        end
    | async_create_entry _ _ => user_input <> None
    end.
Proof.
  destruct user_input as [data|]; [|eexists; split; [reflexivity|]; now repeat split].
  destruct (validate_input requests_get soup_find ip_address_valid int_valid data)
    as [[info|e] trace] eqn:Hv.
  - rewrite validate_input_cases in Hv.
    destruct (pydict_lookup data "ip_address") as [ip_address|] eqn:Hip; [|discriminate].
    destruct (ip_address_valid ip_address) eqn:Hvalid; [|discriminate].
    destruct (code_accepted int_valid (pydict_get data "code")) eqn:Hcode; [|discriminate].
    destruct (_obtain_key requests_get soup_find ip_address)
      as [[[secret_key initial_value]|e] trace'] eqn:Hkey; [|discriminate].
    rewrite (step_user_success _ _ _ _ _ Hip Hvalid Hcode Hkey).
    eexists. split; [reflexivity|]. discriminate.
  - rewrite (step_user_failure _ _ _ Hv). eexists. split; [reflexivity|].
    split; [reflexivity|]. split; [reflexivity|].
    exists (error_key e). split; [reflexivity|].
    destruct e; cbn; auto 6.
Qed.

(** X17: which error the form shows.  An input without an address gives
    [unknown], with the exception logged; an address that
    [ipaddress.ip_address] refuses gives [invalid_address] and a code that
    fails the checks [invalid_code], both without a request and without a
    log record; and when [_obtain_key] raises, the form shows
    [cannot_connect], [cannot_obtain_key] or, for any other exception,
    [unknown] with the exception logged. *)
Theorem step_user_reports_failures (data : pydict form_value) :
  let step := async_step_user requests_get soup_find ip_address_valid int_valid in
  let form key := Returns (async_show_form "user" STEP_USER_DATA_SCHEMA
                             (Some [("base", key)])) in
  (pydict_lookup data "ip_address" = None ->
   step (Some data) = (form "unknown", [FlLog ERROR "Unexpected exception" []])) /\
  (forall ip_address,
     pydict_lookup data "ip_address" = Some ip_address ->
     (ip_address_valid ip_address = false ->
      step (Some data) = (form "invalid_address", [])) /\
     (ip_address_valid ip_address = true ->
      code_accepted int_valid (pydict_get data "code") = false ->
      step (Some data) = (form "invalid_code", [])) /\
     (ip_address_valid ip_address = true ->
      code_accepted int_valid (pydict_get data "code") = true ->
      forall e trace,
        _obtain_key requests_get soup_find ip_address = (Raises e, trace) ->
        step (Some data) =
          (form (error_key e),
           trace ++ match e with
                    | Builtin _ => [FlLog ERROR "Unexpected exception" []]
                    | _ => []
                    end) /\
        In (error_key e) ["cannot_connect"; "cannot_obtain_key"; "unknown"])).
Proof.
  cbv zeta. split.
  - intros Hip. apply (step_user_failure data (Builtin (KeyError "ip_address")) []).
    now rewrite validate_input_cases, Hip.
  - intros ip_address Hip. split; [|split].
    + intros Hvalid. apply (step_user_failure data InvalidAddress []).
      now rewrite validate_input_cases, Hip, Hvalid.
    + intros Hvalid Hcode. apply (step_user_failure data InvalidCode []).
      now rewrite validate_input_cases, Hip, Hvalid, Hcode.
    + intros Hvalid Hcode e trace Hkey. split.
      * apply step_user_failure.
        now rewrite validate_input_cases, Hip, Hvalid, Hcode, Hkey.
      * assert (E : fst (_obtain_key requests_get soup_find ip_address) = Raises e)
          by now rewrite Hkey.
        destruct (obtain_key_raises _ _ E) as (_ & Ha & Hc).
        destruct e; cbn; auto; congruence.
Qed.

End ConfigFlowFacts.

(** ** From the flow to the entity *)

Lemma pydict_lookup_setitem {V} (d : pydict V) (k : string) (v : V) :
  pydict_lookup (pydict_setitem d k v) k = Some v.
Proof.
  induction d as [|[k' v'] d IH]; cbn; [now rewrite String.eqb_refl|].
  destruct (String.eqb k' k) eqn:E; cbn; now rewrite E.
Qed.

Lemma pydict_lookup_setitem_other {V} (d : pydict V) (k k' : string) (v : V) :
  String.eqb k k' = false ->
  pydict_lookup (pydict_setitem d k v) k' = pydict_lookup d k'.
Proof.
  intros Hk. induction d as [|[k0 v0] d IH]; cbn; [now rewrite Hk|].
  destruct (String.eqb k0 k) eqn:E; cbn; [|now rewrite IH].
  apply String.eqb_eq in E. subst k0. now rewrite Hk.
Qed.

Lemma entry_data_for_lookup (data : pydict form_value) (ip_address : form_value)
  (secret_key initial_value : string) :
  let entry := entry_data_for data ip_address secret_key initial_value in
  pydict_lookup entry "ip_address" = Some ip_address /\
  pydict_lookup entry "secret_key" = Some (CStr secret_key) /\
  pydict_lookup entry "initial_value" = Some (CStr initial_value) /\
  forall k, String.eqb "ip_address" k = false -> String.eqb "secret_key" k = false ->
    String.eqb "initial_value" k = false ->
    pydict_lookup entry k = pydict_lookup data k.
Proof.
  cbv zeta. unfold entry_data_for. repeat split.
  - rewrite !pydict_lookup_setitem_other by reflexivity. apply pydict_lookup_setitem.
  - rewrite pydict_lookup_setitem_other by reflexivity. apply pydict_lookup_setitem.
  - apply pydict_lookup_setitem.
  - intros k H1 H2 H3. now rewrite !pydict_lookup_setitem_other.
Qed.

(** X18: the entry that the flow creates sets up the entity.  When the
    input passes the validation and the key page gives a key and an iv,
    the step creates an entry whose data is the input with the address,
    the key and the iv stored, the name and the code kept; and
    [async_setup_entry] on an entry with that title and data finds every
    key it reads and makes exactly the entity of the constructor for the
    address, the title, the two parts of the page's value and the code of
    the form, to be updated before it is added. *)
Theorem flow_entry_sets_up_entity (requests_get : string -> exc HttpPage)
  (soup_find : string -> string -> exc (option Tag))
  (ip_address_valid : form_value -> bool) (int_valid : string -> bool)
  (data : pydict form_value) (ip_address : form_value)
  (secret_key initial_value title : string) (trace : list flow_event) :
  pydict_lookup data "ip_address" = Some ip_address ->
  ip_address_valid ip_address = true ->
  code_accepted int_valid (pydict_get data "code") = true ->
  _obtain_key requests_get soup_find ip_address
    = (Returns (secret_key, initial_value), trace) ->
  title_for data = CStr title ->
  exists entry,
    async_step_user requests_get soup_find ip_address_valid int_valid (Some data) =
      (Returns (async_create_entry (CStr title) entry), trace) /\
    pydict_get entry "code" = pydict_get data "code" /\
    pydict_get entry "name" = pydict_get data "name" /\
    async_setup_entry (mkConfigEntry title entry) =
      (entity <- TuxedoTouch__init__ (code_str ip_address) title secret_key initial_value
                   (pydict_get data "code") ;;
       Ok ([entity], true)).
Proof.
  intros Hip Hvalid Hcode Hkey Htitle.
  exists (entry_data_for data ip_address secret_key initial_value).
  destruct (entry_data_for_lookup data ip_address secret_key initial_value)
    as (Eip & Ekey & Eiv & Eother).
  assert (Ecode : pydict_get (entry_data_for data ip_address secret_key initial_value) "code"
                  = pydict_get data "code")
    by (unfold pydict_get; now rewrite Eother).
  split; [|split; [|split]].
  - rewrite <- Htitle. now apply step_user_success.
  - exact Ecode.
  - unfold pydict_get. now rewrite Eother.
  - unfold async_setup_entry, pydict_getitem. cbn [entry_data entry_title].
    rewrite Eip, Ekey, Eiv, Ecode. reflexivity.
Qed.

(** ** The key material that the flow can give *)

Lemma list_byte_of_string_app (s t : string) :
  list_byte_of_string (s ++ t) = list_byte_of_string s ++ list_byte_of_string t.
Proof.
  rewrite <- (string_of_list_byte_of_string s) at 1.
  rewrite <- (string_of_list_byte_of_string t) at 1.
  now rewrite <- string_of_list_byte_app, list_byte_of_string_of_list_byte.
Qed.

Lemma hex_string_ascii (s : string) :
  hex_string s = true -> forallb is_ascii (list_byte_of_string s) = true.
Proof.
  unfold hex_string. rewrite andb_true_iff. intros [Hhex _].
  rewrite forallb_forall in *. intros b Hb. specialize (Hhex b Hb).
  pose proof (hex_digit_ascii b) as H. now destruct (hex_digit b).
Qed.

Lemma hex_string_even (s : string) :
  hex_string s = true -> exists k, String.length s = (2 * k)%nat.
Proof.
  unfold hex_string. rewrite andb_true_iff, length_list_byte_of_string.
  intros [_ Hev]. now apply Nat.even_spec.
Qed.

(** X19: the flow gives a usable key only from a value of 96 digits.
    When the two parts of the page's value are accepted by the [Cipher]
    constructor, the key material is valid for AES exactly when the value
    has 96 characters; the key is then the 32 bytes of its first 64
    hexadecimal digits, an AES-256 key, and the iv the 16 bytes of the
    other 32.  A shorter or longer value makes an entity whose every
    request fails. *)
Theorem flow_key_material (value : string) (c : Cipher) :
  Cipher__init__ (str_upto 64 value) (str_from 64 value) = Ok c ->
  (valid_material c = true <-> String.length value = 96%nat) /\
  (valid_material c = true ->
   List.length (_key_bin c) = 32%nat /\ List.length (_iv_bin c) = 16%nat).
Proof.
  unfold Cipher__init__. intros Hinit.
  destruct (a2b_hex (str_upto 64 value)) as [key_bin|e] eqn:Hkey; [|discriminate].
  destruct (a2b_hex (str_from 64 value)) as [iv_bin|e] eqn:Hiv; [|discriminate].
  cbn [bind] in Hinit. injection Hinit as <-.
  destruct (a2b_hex_ok _ _ Hkey) as (Hkhex & Hklen).
  destruct (a2b_hex_ok _ _ Hiv) as (Hihex & Hilen).
  destruct (str_upto_from 64 value) as (Hparts & _).
  assert (Hascii : forallb is_ascii (list_byte_of_string value) = true).
  { rewrite <- Hparts, list_byte_of_string_app, forallb_app.
    now rewrite (hex_string_ascii _ Hkhex), (hex_string_ascii _ Hihex). }
  destruct (str_slices_ascii 64 value Hascii) as (Eupto & Efrom).
  assert (Hk : String.length (str_upto 64 value) = Nat.min 64 (String.length value)).
  { rewrite Eupto, length_string_of_list_byte, length_firstn.
    now rewrite length_list_byte_of_string. }
  assert (Hi : String.length (str_from 64 value) = (String.length value - 64)%nat).
  { rewrite Efrom, length_string_of_list_byte, length_skipn.
    now rewrite length_list_byte_of_string. }
  destruct (hex_string_even _ Hkhex) as (k & Hkeven).
  destruct (hex_string_even _ Hihex) as (i & Hieven).
  assert (Hkb : List.length key_bin = k).
  { rewrite Hklen, Hkeven. replace (2 * k)%nat with (k * 2)%nat by lia.
    now rewrite Nat.div_mul. }
  assert (Hib : List.length iv_bin = i).
  { rewrite Hilen, Hieven. replace (2 * i)%nat with (i * 2)%nat by lia.
    now rewrite Nat.div_mul. }
  unfold valid_material, key_size. cbn [_key_bin _iv_bin existsb].
  rewrite Hkb, Hib, andb_true_iff, !orb_true_iff, !Nat.eqb_eq.
  split; [split|]; lia.
Qed.

(** ** Setting up an entry *)

(** X20: what [async_setup_entry] needs of an entry.  An entry without
    [ip_address], [secret_key] or [initial_value] makes it raise the
    [KeyError] of the first of them that is missing; [code] may be
    missing.  When it returns, it hands over one entity, to be updated
    before it is added: its name is the title of the entry, its unique id
    the key, its code the [code] of the entry or [None], and without a
    [code] the entity requires the user to enter one. *)
Theorem setup_entry_reads_entry (entry : ConfigEntry) :
  (pydict_lookup (entry_data entry) "ip_address" = None ->
   async_setup_entry entry = Raise (KeyError "ip_address")) /\
  (pydict_lookup (entry_data entry) "ip_address" <> None ->
   pydict_lookup (entry_data entry) "secret_key" = None ->
   async_setup_entry entry = Raise (KeyError "secret_key")) /\
  (pydict_lookup (entry_data entry) "ip_address" <> None ->
   pydict_lookup (entry_data entry) "secret_key" <> None ->
   pydict_lookup (entry_data entry) "initial_value" = None ->
   async_setup_entry entry = Raise (KeyError "initial_value")) /\
  (forall result, async_setup_entry entry = Ok result ->
   exists entity secret_key initial_value,
     result = ([entity], true) /\
     pydict_lookup (entry_data entry) "secret_key" = Some (CStr secret_key) /\
     pydict_lookup (entry_data entry) "initial_value" = Some (CStr initial_value) /\
     _attr_name entity = entry_title entry /\
     _attr_unique_id entity = secret_key /\
     _code entity = pydict_get (entry_data entry) "code" /\
     (pydict_lookup (entry_data entry) "code" = None ->
      _attr_code_arm_required entity = true)).
Proof.
  unfold async_setup_entry, pydict_getitem.
  split; [|split; [|split]].
  - intros ->. reflexivity.
  - intros Hip ->. now destruct (pydict_lookup (entry_data entry) "ip_address").
  - intros Hip Hkey ->.
    destruct (pydict_lookup (entry_data entry) "ip_address"); [|contradiction].
    now destruct (pydict_lookup (entry_data entry) "secret_key").
  - intros result.
    destruct (pydict_lookup (entry_data entry) "ip_address") as [ip_address|];
      [|discriminate].
    destruct (pydict_lookup (entry_data entry) "secret_key") as [secret_key|];
      [|discriminate].
    destruct (pydict_lookup (entry_data entry) "initial_value") as [initial_value|];
      [|discriminate].
    cbn [bind]. unfold TuxedoTouch_call.
    destruct secret_key as [|secret_key|z]; try discriminate;
      destruct initial_value as [|initial_value|z']; cbn [a2b_hex_arg bind];
      try (destruct (a2b_hex secret_key); discriminate).
    unfold TuxedoTouch__init__.
    destruct (Cipher__init__ secret_key initial_value) as [cipher|e]; [|discriminate].
    cbn [bind]. intros E. injection E as <-.
    eexists _, secret_key, initial_value. repeat split.
    cbn [_attr_code_arm_required]. intros Hcode. unfold pydict_get. now rewrite Hcode.
Qed.

(** ** The flow on concrete inputs *)

(** X11, on the test data: the page carries the key and the iv. *)
Lemma obtain_key_splits_value_witness :
  exists secret_key initial_value,
    _obtain_key (page_answers 200 "<input type='hidden' value='...'>")
      (soup_finds (Some test_tag)) (CStr "192.168.1.10") =
      (Returns (secret_key, initial_value),
       [FlGet (obtain_key_target (CStr "192.168.1.10"))]) /\
    (secret_key ++ initial_value)%string = (test_key ++ test_iv)%string /\
    (str_len secret_key <= 64)%nat /\
    (forallb is_ascii (list_byte_of_string (test_key ++ test_iv)) = true ->
     String.length secret_key = Nat.min 64 (String.length (test_key ++ test_iv))).
Proof.
  apply (obtain_key_splits_value
           (page_answers 200 "<input type='hidden' value='...'>")
           (soup_finds (Some test_tag)) (CStr "192.168.1.10")
           (mkHttpPage 200 "<input type='hidden' value='...'>") test_tag
           (test_key ++ test_iv)); reflexivity.
Defined.

(** X12, on the test data: the panel answers 503. *)
Lemma obtain_key_failures_witness :
  _obtain_key (page_answers 503 "") (soup_finds None) (CStr "192.168.1.10") =
    (Raises CannotConnect,
     [FlGet (obtain_key_target (CStr "192.168.1.10"));
      FlLog WARNING "request to obtain key returned code {readit.status_code}"
        [LInt 503]]).
Proof.
  refine (proj1 (proj2 (obtain_key_failures (page_answers 503 "") (soup_finds None)
                          (CStr "192.168.1.10")))
            (mkHttpPage 503 "") _ _); [reflexivity | discriminate].
Defined.

(** X13, on the test data: an exception that no handler catches. *)
Lemma obtain_key_lets_through_witness :
  fst (_obtain_key (fun _ => Raise (ValueError "Invalid URL")) (soup_finds None)
         (CStr "192.168.1.10"))
    = Raises (Builtin (ValueError "Invalid URL")).
Proof.
  refine (proj2 (proj2 (proj2
            (obtain_key_lets_through (fun _ => Raise (ValueError "Invalid URL"))
               (soup_finds None) (CStr "192.168.1.10"))))
            (ValueError "Invalid URL") _ _); reflexivity.
Defined.

(** X14, on the test data: a host name is no address. *)
Lemma validation_precedes_network_witness :
  validate_input (page_answers 200 "") (soup_finds (Some test_tag))
    digits_and_dots ascii_digits [("ip_address", CStr "panel.local"); ("code", CInt 1)] =
    (Raises InvalidAddress, []).
Proof.
  refine (proj2 (proj2
            (validation_precedes_network (page_answers 200 "") (soup_finds (Some test_tag))
               digits_and_dots ascii_digits
               [("ip_address", CStr "panel.local"); ("code", CInt 1)]))
            (CStr "panel.local") _ _); reflexivity.
Defined.

(** X15, on the test data: the code 0123 reaches the flow as 123. *)
Lemma int_code_passes_iff_four_characters_witness :
  fst (validate_input (page_answers 200 "") (soup_finds (Some test_tag))
         digits_and_dots ascii_digits
         [("ip_address", CStr "192.168.1.10"); ("code", CInt 123)])
    = Raises InvalidCode.
Proof.
  refine (proj2 (proj1
            (int_code_passes_iff_four_characters (page_answers 200 "")
               (soup_finds (Some test_tag)) digits_and_dots ascii_digits
               [("ip_address", CStr "192.168.1.10"); ("code", CInt 123)]
               (CStr "192.168.1.10") 123 _ _ _)) _);
    [reflexivity | reflexivity | reflexivity | lia].
Defined.

(** X17, on the test data: the same code, as the user sees it. *)
Lemma step_user_reports_failures_witness :
  async_step_user (page_answers 200 "") (soup_finds (Some test_tag))
    digits_and_dots ascii_digits
    (Some [("ip_address", CStr "192.168.1.10"); ("code", CInt 123)]) =
    (Returns (async_show_form "user" STEP_USER_DATA_SCHEMA
                (Some [("base", "invalid_code")])), []).
Proof.
  refine (proj1 (proj2
            (proj2 (step_user_reports_failures (page_answers 200 "")
                      (soup_finds (Some test_tag)) digits_and_dots ascii_digits
                      [("ip_address", CStr "192.168.1.10"); ("code", CInt 123)])
               (CStr "192.168.1.10") _)) _ _); reflexivity.
Defined.

(** X18, on the test data: the entity of the test panel. *)
Lemma flow_entry_sets_up_entity_witness :
  exists entry,
    async_step_user (page_answers 200 "") (soup_finds (Some test_tag))
      digits_and_dots ascii_digits (Some test_input) =
      (Returns (async_create_entry (CStr "Tuxedo") entry),
       [FlGet "http://192.168.1.10/TuxedoAPI"]) /\
    pydict_get entry "code" = pydict_get test_input "code" /\
    pydict_get entry "name" = pydict_get test_input "name" /\
    async_setup_entry (mkConfigEntry "Tuxedo" entry) =
      (entity <- TuxedoTouch__init__ (code_str (CStr "192.168.1.10")) "Tuxedo"
                   test_key test_iv (pydict_get test_input "code") ;;
       Ok ([entity], true)).
Proof.
  apply (flow_entry_sets_up_entity (page_answers 200 "") (soup_finds (Some test_tag))
           digits_and_dots ascii_digits test_input (CStr "192.168.1.10")
           test_key test_iv "Tuxedo" [FlGet "http://192.168.1.10/TuxedoAPI"]);
    reflexivity.
Defined.

(** X19, on the test data: 64 and 32 digits. *)
Lemma flow_key_material_witness :
  (valid_material test_cipher = true <-> String.length (test_key ++ test_iv) = 96%nat) /\
  (valid_material test_cipher = true ->
   List.length (_key_bin test_cipher) = 32%nat /\
   List.length (_iv_bin test_cipher) = 16%nat).
Proof.
  apply (flow_key_material (test_key ++ test_iv) test_cipher).
  vm_compute. reflexivity.
Defined.

(** X20, on the test data: an entry that lost its key. *)
Lemma setup_entry_reads_entry_witness :
  async_setup_entry (mkConfigEntry "Tuxedo" [("ip_address", CStr "192.168.1.10")]) =
    Raise (KeyError "secret_key").
Proof.
  refine (proj1 (proj2
            (setup_entry_reads_entry
               (mkConfigEntry "Tuxedo" [("ip_address", CStr "192.168.1.10")]))) _ _);
    [discriminate | reflexivity].
Defined.
